(** * FIFO capital-gains engine of the crypto tax calculator

    A shallow embedding of [backend/calculator/tax_calculator.py]:
    the classes [TaxLot], [CapitalGain] and [FIFOTaxCalculator], with the
    engine's three mutable fields threaded explicitly through every
    method.  Numbers are kept behind a small interface, because the
    Python code only ever adds, subtracts, multiplies and compares them;
    the interface is instantiated with exact fractions (the decimal
    quantities of the data model) and with IEEE binary64 (the [float]s the
    CSV parser hands over). *)

From Stdlib Require Import ZArith QArith Qreduction Qminmax Lqa Lia.
From Stdlib Require Import Bool List String Permutation Sorted.
From Stdlib Require Import PrimFloat.
From Stdlib Require SpecFloat FloatOps FloatAxioms.
Import ListNotations.

Set Implicit Arguments.
Set Warnings "-inexact-float".
Local Open Scope Z_scope.

(** ** Numbers *)

(** The arithmetic the engine performs on amounts and prices.  [nzero] is
    the integer [0] that [sum] starts from and that the empty summary
    reports; [neps] is the literal [0.00000001]. *)
Class Number (num : Type) : Type := {
  nzero : num;
  neps  : num;
  nadd  : num -> num -> num;
  nsub  : num -> num -> num;
  nmul  : num -> num -> num;
  nltb  : num -> num -> bool
}.

(** [a > b] is [b < a]. *)
Definition ngtb {num} `{Number num} (a b : num) : bool := nltb b a.

(** Python's builtin [min(a, b)]: the first argument unless the second is
    strictly smaller. *)
Definition nmin {num} `{Number num} (a b : num) : num :=
  if nltb b a then b else a.

(** [sum(xs)]: a left fold of [+] starting from [0].  (On floats CPython
    may add with compensation; no statement below rests on a binary64 total
    of more than two terms, for which either way of adding gives the
    correctly rounded sum.) *)
Definition nsum {num} `{Number num} (xs : list num) : num :=
  fold_left nadd xs nzero.

(** *** Exact fractions

    Decimal quantities computed without rounding.  Every result is reduced
    to lowest terms, as [fractions.Fraction] does, so that equal numbers are
    equal terms.  The tolerance stays the [float] literal [0.00000001]: a
    [Fraction] compared with a [float] is compared with the exact value of
    that double, [6044629098073146 / 2^79], a little more than [1/10^8]. *)
Definition Qltb (a b : Q) : bool :=
  match a ?= b with Lt => true | _ => false end%Q.

#[export] Instance Fraction : Number Q := {
  nzero := 0%Q;
  neps  := (3022314549036573 # 302231454903657293676544)%Q;
  nadd a b := Qred (a + b);
  nsub a b := Qred (a - b);
  nmul a b := Qred (a * b);
  nltb := Qltb
}.

(** *** IEEE 754 binary64, Python's [float] *)
Definition binary64 : Number PrimFloat.float := {|
  nzero := 0%float;
  neps  := 0.00000001%float;
  nadd  := PrimFloat.add;
  nsub  := PrimFloat.sub;
  nmul  := PrimFloat.mul;
  nltb  := PrimFloat.ltb
|}.

(** ** Dates *)

(** A naive [datetime], as the count of microseconds since the start of
    0001-01-01 (ordinal day 1 starts at [0]). *)
Definition datetime : Type := Z.

Definition usec_per_day : Z := 86400000000.

(** [(a - b).days]: a [timedelta] is normalised with
    [0 <= seconds < 86400], so its [days] field is the floor of the
    difference in days. *)
Definition days_between (a b : datetime) : Z := (a - b) / usec_per_day.

Definition is_leap (y : Z) : bool :=
  ((y mod 4 =? 0) && negb (y mod 100 =? 0)) || (y mod 400 =? 0).

Definition days_before_year (y : Z) : Z :=
  let p := y - 1 in p * 365 + p / 4 - p / 100 + p / 400.

Definition days_before_month (y m : Z) : Z :=
  nth (Z.to_nat (m - 1)) [0; 31; 59; 90; 120; 151; 181; 212; 243; 273; 304; 334] 0
  + (if (2 <? m) && is_leap y then 1 else 0).

(** [datetime(y, m, d)], midnight of a calendar day. *)
Definition ymd (y m d : Z) : datetime :=
  (days_before_year y + days_before_month y m + d - 1) * usec_per_day.

(** [d + timedelta(days=n)] *)
Definition plus_days (d : datetime) (n : Z) : datetime := d + n * usec_per_day.

(** ** Data model *)

(** A transaction dict as the parser builds it. *)
Module Transaction.
Record t (num : Type) : Type := mk {
  date : datetime;
  type : string;
  symbol : string;
  amount : num;
  price_per_unit : num;
  price_usd : num;
  fee_usd : num
}.
End Transaction.

Module TaxLot.
Record t (num : Type) : Type := mk {
  date : datetime;
  amount : num;            (* remaining amount in this lot *)
  original_amount : num;
  price_per_unit : num;
  symbol : string;
  cost_basis : num
}.

(** [TaxLot.__init__] *)
Definition init {num} `{Number num}
    (date : datetime) (amount price_per_unit : num) (symbol : string) : t num :=
  mk date amount amount price_per_unit symbol (nmul amount price_per_unit).

(** [lot.amount -= x] *)
Definition take {num} `{Number num} (x : num) (lot : t num) : t num :=
  mk (date lot) (nsub (amount lot) x) (original_amount lot)
     (price_per_unit lot) (symbol lot) (cost_basis lot).
End TaxLot.

(** The two values of [CapitalGain.term], ['short'] and ['long']. *)
Inductive holding_term : Type := short | long.

Definition term_eqb (a b : holding_term) : bool :=
  match a, b with
  | short, short | long, long => true
  | _, _ => false
  end.

Module CapitalGain.
Record t (num : Type) : Type := mk {
  sale_date : datetime;
  purchase_date : datetime;
  symbol : string;
  amount : num;
  cost_basis : num;
  proceeds : num;
  gain_loss : num;
  term : holding_term;
  holding_days : Z
}.

(** [CapitalGain.__init__] *)
Definition init {num} (sale_date purchase_date : datetime) (symbol : string)
    (amount cost_basis proceeds gain_loss : num) (tm : holding_term) : t num :=
  mk sale_date purchase_date symbol amount cost_basis proceeds gain_loss tm
     (days_between sale_date purchase_date).
End CapitalGain.

(** The entries of [self.errors].  Each constructor stands for one of the
    three message templates and carries the values interpolated in it. *)
Inductive anomaly (num : Type) : Type :=
| NoLotsAvailable (remaining_to_sell : num) (symbol : string) (sale_date : datetime)
| SymbolMismatch (symbol lot_symbol : string)
| UnknownTransactionType (type : string).

Arguments SymbolMismatch {num} _ _.
Arguments UnknownTransactionType {num} _.

(** The state of a [FIFOTaxCalculator] instance.  The deque [self.lots] is
    a list whose head is the front (the oldest lot). *)
Record FIFOTaxCalculator (num : Type) : Type := mkEngine {
  lots : list (TaxLot.t num);
  capital_gains : list (CapitalGain.t num);
  errors : list (anomaly num)
}.

(** The dict built by [_generate_summary].  The early return for an empty
    gain list builds a dict with five keys only; the four keys it leaves
    out are the fields of type [option]. *)
Module Summary.
Record t (num : Type) : Type := mk {
  total_gain_loss : num;
  short_term_gain_loss : num;
  long_term_gain_loss : num;
  num_short_term : option nat;
  num_long_term : option nat;
  num_transactions : nat;
  capital_gains : option (list (CapitalGain.t num));
  remaining_lots : option (list (TaxLot.t num));
  errors : list (anomaly num)
}.
End Summary.

(** ** The engine *)

(** How one pass through the body of the [while] loop ends: at [break], or
    at the bottom of the body / at [continue], with the new value of
    [remaining_to_sell]. *)
Inductive loop_exit (num : Type) : Type :=
| Break (st : FIFOTaxCalculator num)
| Next (st : FIFOTaxCalculator num) (remaining_to_sell : num).

Section Engine.
Context {num : Type} `{Number num}.

Local Abbreviation engine := (FIFOTaxCalculator num).
Local Abbreviation transaction := (Transaction.t num).

(** [FIFOTaxCalculator.__init__]. *)
Definition fresh : engine := mkEngine [] [] [].

Definition _process_buy (st : engine) (tx : transaction) : engine :=
  let lot := TaxLot.init (Transaction.date tx) (Transaction.amount tx)
                         (Transaction.price_per_unit tx) (Transaction.symbol tx) in
  mkEngine (lots st ++ [lot]) (capital_gains st) (errors st).

(** The record appended to [self.capital_gains] when [amount_from_lot] of
    [oldest_lot] is sold by [tx]. *)
Definition gain_of (tx : transaction) (oldest_lot : TaxLot.t num)
    (amount_from_lot : num) : CapitalGain.t num :=
  let sale_date := Transaction.date tx in
  let sale_price_per_unit := Transaction.price_per_unit tx in
  let cost_basis := nmul amount_from_lot (TaxLot.price_per_unit oldest_lot) in
  let proceeds := nmul amount_from_lot sale_price_per_unit in
  let gain_loss := nsub proceeds cost_basis in
  let holding_days := days_between sale_date (TaxLot.date oldest_lot) in
  let tm := if 365 <? holding_days then long else short in
  CapitalGain.init sale_date (TaxLot.date oldest_lot) (Transaction.symbol tx)
                   amount_from_lot cost_basis proceeds gain_loss tm.

(** The body of [while remaining_to_sell > 0.00000001]. *)
Definition sell_body (tx : transaction) (st : engine) (remaining_to_sell : num)
    : loop_exit num :=
  let sale_date := Transaction.date tx in
  let symbol := Transaction.symbol tx in
  match lots st with
  | [] =>
      Break (mkEngine (lots st) (capital_gains st)
               (errors st ++ [NoLotsAvailable remaining_to_sell symbol sale_date]))
  | oldest_lot :: rest =>
      if negb (String.eqb (TaxLot.symbol oldest_lot) symbol) then
        Next (mkEngine rest (capital_gains st)
                (errors st ++ [SymbolMismatch symbol (TaxLot.symbol oldest_lot)]))
             remaining_to_sell
      else
        let amount_from_lot := nmin remaining_to_sell (TaxLot.amount oldest_lot) in
        let capital_gain := gain_of tx oldest_lot amount_from_lot in
        let oldest_lot' := TaxLot.take amount_from_lot oldest_lot in
        let remaining_to_sell' := nsub remaining_to_sell amount_from_lot in
        Next (mkEngine
                (if nltb (TaxLot.amount oldest_lot') neps then rest
                 else oldest_lot' :: rest)
                (capital_gains st ++ [capital_gain])
                (errors st))
             remaining_to_sell'
  end.

(** The [while] loop, run for at most [fuel] passes through its body;
    [None] when the guard still holds after that many. *)
Fixpoint sell_loop (fuel : nat) (tx : transaction) (st : engine)
    (remaining_to_sell : num) : option engine :=
  if ngtb remaining_to_sell neps then
    match fuel with
    | O => None
    | S fuel' =>
        match sell_body tx st remaining_to_sell with
        | Break st' => Some st'
        | Next st' remaining_to_sell' => sell_loop fuel' tx st' remaining_to_sell'
        end
    end
  else Some st.

(** [_process_sell].  One pass more than there are lots in the ledger is
    allowed for; [sell_loop_returns] and [sell_loop_fuel_enough] show that
    the loop needs no more, in exact arithmetic and on doubles. *)
Definition _process_sell (st : engine) (tx : transaction) : option engine :=
  sell_loop (S (List.length (lots st))) tx st (Transaction.amount tx).

Definition process_transaction (st : engine) (tx : transaction) : option engine :=
  if String.eqb (Transaction.type tx) "buy" then Some (_process_buy st tx)
  else if String.eqb (Transaction.type tx) "sell" then _process_sell st tx
  else Some (mkEngine (lots st) (capital_gains st)
               (errors st ++ [UnknownTransactionType (Transaction.type tx)])).

(** [sorted(transactions, key=lambda t: t['date'])].  The builtin is a
    stable sort; [insert_by_date] puts a transaction in front of the
    first one that is not earlier, and the list is built from its end,
    so equal dates keep their input order. *)
Fixpoint insert_by_date (tx : transaction) (l : list transaction) : list transaction :=
  match l with
  | [] => [tx]
  | y :: l' =>
      if Transaction.date tx <=? Transaction.date y then tx :: y :: l'
      else y :: insert_by_date tx l'
  end.

Definition sorted (transactions : list transaction) : list transaction :=
  fold_right insert_by_date [] transactions.

Definition is_term (tm : holding_term) (g : CapitalGain.t num) : bool :=
  term_eqb (CapitalGain.term g) tm.

Definition _generate_summary (st : engine) : Summary.t num :=
  match capital_gains st with
  | [] =>
      Summary.mk nzero nzero nzero None None 0%nat None None (errors st)
  | _ :: _ =>
      let short_term_gains := filter (is_term short) (capital_gains st) in
      let long_term_gains := filter (is_term long) (capital_gains st) in
      let short_term_total := nsum (map (@CapitalGain.gain_loss num) short_term_gains) in
      let long_term_total := nsum (map (@CapitalGain.gain_loss num) long_term_gains) in
      Summary.mk (nadd short_term_total long_term_total)
                 short_term_total long_term_total
                 (Some (List.length short_term_gains)) (Some (List.length long_term_gains))
                 (List.length (capital_gains st))
                 (Some (capital_gains st)) (Some (lots st)) (errors st)
  end.

(** The [for] loop of [calculate_taxes]. *)
Fixpoint process_all (st : engine) (txs : list transaction) : option engine :=
  match txs with
  | [] => Some st
  | tx :: txs' =>
      match process_transaction st tx with
      | Some st' => process_all st' txs'
      | None => None
      end
  end.

(** [calculate_taxes], called on an engine in state [st]: the summary it
    returns and the state it leaves the engine in. *)
Definition calculate_taxes (st : engine) (transactions : list transaction)
    : option (Summary.t num * engine) :=
  (* Reset state *)
  let st := mkEngine [] (capital_gains st) (errors st) in
  let st := mkEngine (lots st) [] (errors st) in
  let st := mkEngine (lots st) (capital_gains st) [] in
  let sorted_transactions := sorted transactions in
  match process_all st sorted_transactions with
  | Some st' => Some (_generate_summary st', st')
  | None => None
  end.

End Engine.

(** ** Instrumentation for the conservation law

    What leaves the ledger without being matched is not stored anywhere by
    the engine.  To state conservation, the run is replayed and every lot
    that a pass through the loop body removes is logged with the amount it
    still held: [Evicted] for a lot of the wrong symbol (an anomaly is
    recorded for it), [Residue] for a matched lot dropped because less than
    the tolerance was left in it (nothing is recorded for it). *)
Inductive drop (num : Type) : Type :=
| Evicted (lot : TaxLot.t num)
| Residue (lot : TaxLot.t num).

Section Replay.
Context {num : Type} `{Number num}.

(** The lot, if any, that [sell_body] removes from the ledger. *)
Definition dropped_by (tx : Transaction.t num) (st : FIFOTaxCalculator num)
    (remaining_to_sell : num) : list (drop num) :=
  match lots st with
  | [] => []
  | oldest_lot :: _ =>
      if negb (String.eqb (TaxLot.symbol oldest_lot) (Transaction.symbol tx)) then
        [Evicted oldest_lot]
      else
        let oldest_lot' :=
          TaxLot.take (nmin remaining_to_sell (TaxLot.amount oldest_lot)) oldest_lot in
        if nltb (TaxLot.amount oldest_lot') neps then [Residue oldest_lot'] else []
  end.

(** The drops of one [while] loop, following [sell_loop] pass by pass. *)
Fixpoint sell_loop_drops (fuel : nat) (tx : Transaction.t num)
    (st : FIFOTaxCalculator num) (remaining_to_sell : num) : list (drop num) :=
  if ngtb remaining_to_sell neps then
    match fuel with
    | O => []
    | S fuel' =>
        dropped_by tx st remaining_to_sell ++
        match sell_body tx st remaining_to_sell with
        | Break _ => []
        | Next st' remaining_to_sell' => sell_loop_drops fuel' tx st' remaining_to_sell'
        end
    end
  else [].

Definition transaction_drops (st : FIFOTaxCalculator num) (tx : Transaction.t num)
    : list (drop num) :=
  if String.eqb (Transaction.type tx) "sell" then
    sell_loop_drops (S (List.length (lots st))) tx st (Transaction.amount tx)
  else [].

Fixpoint drops_from (st : FIFOTaxCalculator num) (txs : list (Transaction.t num))
    : list (drop num) :=
  match txs with
  | [] => []
  | tx :: txs' =>
      transaction_drops st tx ++
      match process_transaction st tx with
      | Some st' => drops_from st' txs'
      | None => []
      end
  end.

(** The drops of a whole [calculate_taxes] run. *)
Definition run_drops (transactions : list (Transaction.t num)) : list (drop num) :=
  drops_from fresh (sorted transactions).

Definition is_buy (tx : Transaction.t num) : bool :=
  String.eqb (Transaction.type tx) "buy".

(** The lot [_process_buy] builds for a buy. *)
Definition lot_of_buy (tx : Transaction.t num) : TaxLot.t num :=
  TaxLot.init (Transaction.date tx) (Transaction.amount tx)
              (Transaction.price_per_unit tx) (Transaction.symbol tx).

(** The lots the run creates, one per buy, in processing order. *)
Definition lots_created (transactions : list (Transaction.t num)) : list (TaxLot.t num) :=
  map lot_of_buy (filter is_buy (sorted transactions)).

Definition evicted_lots (ds : list (drop num)) : list (TaxLot.t num) :=
  flat_map (fun d => match d with Evicted l => [l] | Residue _ => [] end) ds.

Definition residue_lots (ds : list (drop num)) : list (TaxLot.t num) :=
  flat_map (fun d => match d with Residue l => [l] | Evicted _ => [] end) ds.

(** Per-symbol totals. *)
Definition lots_of (s : string) (l : list (TaxLot.t num)) : list (TaxLot.t num) :=
  filter (fun lot => String.eqb (TaxLot.symbol lot) s) l.

Definition held (s : string) (l : list (TaxLot.t num)) : num :=
  nsum (map (@TaxLot.amount num) (lots_of s l)).

Definition originally (s : string) (l : list (TaxLot.t num)) : num :=
  nsum (map (@TaxLot.original_amount num) (lots_of s l)).

Definition matched (s : string) (l : list (CapitalGain.t num)) : num :=
  nsum (map (@CapitalGain.amount num)
          (filter (fun g => String.eqb (CapitalGain.symbol g) s) l)).

End Replay.

(** ** Vocabulary of the statements *)

(** What [_generate_summary] returns when no gain was realized. *)
Definition empty_summary {num} `{Number num} (errs : list (anomaly num)) : Summary.t num :=
  Summary.mk nzero nzero nzero None None 0%nat None None errs.

(** Ascending order of dates, and the transactions of one date. *)
Definition date_le {num} (a b : Transaction.t num) : Prop :=
  Transaction.date a <= Transaction.date b.

Definition on_date {num} (d : datetime) (tx : Transaction.t num) : bool :=
  Transaction.date tx =? d.

(** The relation between a gain's term and its holding period. *)
Definition term_matches_holding_days {num} (g : CapitalGain.t num) : Prop :=
  (CapitalGain.term g = long <-> 365 < CapitalGain.holding_days g)
  /\ (CapitalGain.term g = short <-> CapitalGain.holding_days g <= 365)
  /\ CapitalGain.holding_days g =
       days_between (CapitalGain.sale_date g) (CapitalGain.purchase_date g).

(** Two transactions that agree on every field but [fee_usd]. *)
Definition same_but_fee {num} (a b : Transaction.t num) : Prop :=
  Transaction.date a = Transaction.date b
  /\ Transaction.type a = Transaction.type b
  /\ Transaction.symbol a = Transaction.symbol b
  /\ Transaction.amount a = Transaction.amount b
  /\ Transaction.price_per_unit a = Transaction.price_per_unit b
  /\ Transaction.price_usd a = Transaction.price_usd b.

(** A residue is only ever logged for a lot found below the tolerance. *)
Definition residue_small {num} `{Number num} (d : drop num) : Prop :=
  match d with
  | Residue lot => nltb (TaxLot.amount lot) neps = true
  | Evicted _ => True
  end.

(** The number of symbol-mismatch anomalies among [errs]. *)
Definition is_mismatch {num} (e : anomaly num) : bool :=
  match e with SymbolMismatch _ _ => true | _ => false end.

Definition mismatches {num} (errs : list (anomaly num)) : nat :=
  List.length (filter is_mismatch errs).

(** *** Conservation, in exact arithmetic *)

(** The part of an amount that counts towards symbol [s]. *)
Definition share (s sym : string) (a : Q) : Q :=
  if String.eqb sym s then a else 0%Q.

(** Everything the engine and the drop log account for, per symbol: what
    was matched, what is still held, what was evicted with an anomaly, and
    what was left in lots removed as used up. *)
Definition accounted (s : string) (st : FIFOTaxCalculator Q) (ds : list (drop Q)) : Q :=
  (matched s (capital_gains st) + held s (lots st)
   + held s (evicted_lots ds) + held s (residue_lots ds))%Q.

Definition tx_nonneg (tx : Transaction.t Q) : Prop := (0 <= Transaction.amount tx)%Q.

Definition amount_nonneg (lot : TaxLot.t Q) : Prop := (0 <= TaxLot.amount lot)%Q.

Definition drop_nonneg (d : drop Q) : Prop :=
  match d with Evicted lot | Residue lot => amount_nonneg lot end.

(** The conservation law without a term for residues: what was bought is
    what was matched, what is held and what was evicted under a recorded
    anomaly. *)
Definition conserved_without_residue (txs : list (Transaction.t Q)) (s : string) : Prop :=
  exists sm st',
    calculate_taxes fresh txs = Some (sm, st')
    /\ (originally s (lots_created txs) ==
        matched s (capital_gains st') + held s (lots st')
        + held s (evicted_lots (run_drops txs)))%Q.

(** *** The end of the matching loop *)

(** What the loop needs of the arithmetic to come to an end.  With [r]
    left to sell and [a] in the front lot, a pass takes [m = min(r, a)]
    from both.  Either the lot is then found used up and leaves the
    ledger, or nothing is left to sell, or the pass after it, on the same
    lot, leaves nothing to sell. *)
Definition ends_within_two_passes (num : Type) `{Number num} : Prop :=
  forall r a : num,
    ngtb r neps = true ->
    let m := nmin r a in
    let a' := nsub a m in
    let r' := nsub r m in
    nltb a' neps = true
    \/ ngtb r' neps = false
    \/ ngtb (nsub r' (nmin r' a')) neps = false.

Arguments ends_within_two_passes num {H}.

(** Every lot of the ledger holds a number: no infinity, no NaN. *)
Definition finite_amounts (st : FIFOTaxCalculator float) : Prop :=
  Forall (fun lot => PrimFloat.is_finite (TaxLot.amount lot) = true) (lots st).

(** *** What is left of a ledger *)

(** What tells one lot from another while it is in the ledger: every
    field but the amount left in it. *)
Definition lot_identity {num} (lot : TaxLot.t num)
    : datetime * string * num * num * num :=
  (TaxLot.date lot, TaxLot.symbol lot, TaxLot.price_per_unit lot,
   TaxLot.original_amount lot, TaxLot.cost_basis lot).

(** The ledger [l] is what is left of the ledger [l0] once lots were
    removed from its front: the lots of [l0] from some position on, in
    order, whatever is still in them. *)
Definition remains_of {num} (l0 l : list (TaxLot.t num)) : Prop :=
  exists k : nat, map lot_identity l = skipn k (map lot_identity l0).

(** What a sell that found the engine in state [st] has made of it by
    the time the engine is in state [st']: gains and anomalies were added
    at the end of their lists, every gain added is of the sell's symbol,
    and the ledger is what is left of the one found. *)
Definition sell_effect {num} (tx : Transaction.t num)
    (st st' : FIFOTaxCalculator num) : Prop :=
  exists gs es,
    capital_gains st' = capital_gains st ++ gs
    /\ errors st' = errors st ++ es
    /\ Forall (fun g => CapitalGain.symbol g = Transaction.symbol tx) gs
    /\ remains_of (lots st) (lots st').

(** *** One transaction after the other *)

(** [processed_in_order st txs st']: starting from [st], the transactions
    [txs] were handed to [process_transaction] one by one, from the first
    to the last, each on the state its predecessor left, and [st'] is the
    state after the last. *)
Inductive processed_in_order {num} `{Number num}
    : FIFOTaxCalculator num -> list (Transaction.t num) -> FIFOTaxCalculator num -> Prop :=
| processed_none (st : FIFOTaxCalculator num) : processed_in_order st [] st
| processed_next (st st1 st' : FIFOTaxCalculator num) (tx : Transaction.t num)
    (txs : list (Transaction.t num)) :
    process_transaction st tx = Some st1 ->
    processed_in_order st1 txs st' ->
    processed_in_order st (tx :: txs) st'.

(** ** Sample data *)

(** The transaction of [test_simple_buy], as a batch of its own. *)
Definition simple_buy : Transaction.t Q :=
  (Transaction.mk (ymd 2024 1 1) "buy" "BTC" 1 50000 50000 10)%Q.

(** A sale with nothing bought before it, and a purchase after it. *)
Definition simple_sell : Transaction.t Q :=
  (Transaction.mk (ymd 2024 2 1) "sell" "BTC" 1 60000 60000 15)%Q.

Definition later_buy : Transaction.t Q :=
  (Transaction.mk (ymd 2024 3 1) "buy" "BTC" 1 50000 50000 10)%Q.

(** A sale of one satoshi, [1e-8]: not more than the [0.00000001] of the
    loop guard. *)
Definition satoshi_sell : Transaction.t Q :=
  (Transaction.mk (ymd 2024 1 1) "sell" "BTC" (1 # 100000000) 50000 (1 # 2000) 0)%Q.

Definition satoshi_sell_binary64 : Transaction.t float :=
  (Transaction.mk (ymd 2024 1 1) "sell" "BTC" 0.00000001 50000 0.0005 0)%float.

(** A sale of ETH that meets a ledger whose oldest lot is BTC. *)
Definition btc_lot : TaxLot.t Q := (TaxLot.init (ymd 2024 1 1) 1 50000 "BTC")%Q.

Definition eth_lot : TaxLot.t Q := (TaxLot.init (ymd 2024 2 1) 2 2000 "ETH")%Q.

Definition eth_sell : Transaction.t Q :=
  (Transaction.mk (ymd 2024 3 1) "sell" "ETH" 2 3000 6000 1)%Q.

Definition mixed_ledger : FIFOTaxCalculator Q := mkEngine [btc_lot; eth_lot] [] [].

(** The same ledger without its BTC lot and with the anomaly recorded for
    it, and what the sale makes of either. *)
Definition mixed_ledger_evicted : FIFOTaxCalculator Q :=
  mkEngine [eth_lot] [] [SymbolMismatch "ETH" "BTC"].

Definition eth_gain : CapitalGain.t Q :=
  (CapitalGain.mk (ymd 2024 3 1) (ymd 2024 2 1) "ETH" 2 4000 6000 2000 short 29)%Q.

Definition mixed_ledger_sold : FIFOTaxCalculator Q :=
  mkEngine [] [eth_gain] [SymbolMismatch "ETH" "BTC"].

(** Buy [1/2 @ 40000], buy [1/2 @ 50000], sell [4/5 @ 60000] of one symbol,
    on ascending dates; totals in USD and fees are left open. *)
Definition split_across_lots (d1 d2 d3 : datetime) (sym : string)
    (u1 u2 u3 f1 f2 f3 : Q) : list (Transaction.t Q) :=
  [ Transaction.mk d1 "buy" sym (1 # 2) 40000 u1 f1;
    Transaction.mk d2 "buy" sym (1 # 2) 50000 u2 f2;
    Transaction.mk d3 "sell" sym (4 # 5) 60000 u3 f3 ]%Q.

(** The batch of [test_multiple_lots_in_one_sale], in exact fractions and
    in binary64, and what the run makes of it. *)
Definition split_batch : list (Transaction.t Q) :=
  [ Transaction.mk (ymd 2024 1 1) "buy" "BTC" (1 # 2) 40000 20000 5;
    Transaction.mk (ymd 2024 2 1) "buy" "BTC" (1 # 2) 50000 25000 (25 # 4);
    Transaction.mk (ymd 2024 3 1) "sell" "BTC" (4 # 5) 60000 48000 12 ]%Q.

Definition split_batch_no_fees : list (Transaction.t Q) :=
  split_across_lots (ymd 2024 1 1) (ymd 2024 2 1) (ymd 2024 3 1) "BTC"
    20000 25000 48000 0 0 0.

Definition split_batch_binary64 : list (Transaction.t float) :=
  [ Transaction.mk (ymd 2024 1 1) "buy" "BTC" 0.5 40000 20000 5;
    Transaction.mk (ymd 2024 2 1) "buy" "BTC" 0.5 50000 25000 6.25;
    Transaction.mk (ymd 2024 3 1) "sell" "BTC" 0.8 60000 48000 12 ]%float.

Definition split_gain_1 : CapitalGain.t Q :=
  (CapitalGain.mk (ymd 2024 3 1) (ymd 2024 1 1) "BTC"
     (1 # 2) 20000 30000 10000 short 60)%Q.

Definition split_gain_2 : CapitalGain.t Q :=
  (CapitalGain.mk (ymd 2024 3 1) (ymd 2024 2 1) "BTC"
     (3 # 10) 15000 18000 3000 short 29)%Q.

Definition split_lot : TaxLot.t Q :=
  (TaxLot.mk (ymd 2024 2 1) (1 # 5) (1 # 2) 50000 "BTC" 25000)%Q.

Definition split_summary : Summary.t Q :=
  (Summary.mk 13000 13000 0 (Some 2%nat) (Some 0%nat) 2
     (Some [split_gain_1; split_gain_2]) (Some [split_lot]) [])%Q.

(** What binary64 makes of the second match: [0.8 - 0.5] is not the double
    nearest to [0.3]. *)
Definition split_gain_2_binary64 : CapitalGain.t float :=
  (CapitalGain.mk (ymd 2024 3 1) (ymd 2024 2 1) "BTC"
     0.30000000000000004 15000.000000000002 18000.000000000004
     3000.0000000000018 short 29)%float.

(** One lot bought on 2023-01-01 and sold in two halves, 365 and 366 days
    later. *)
Definition boundary_batch : list (Transaction.t Q) :=
  [ Transaction.mk (ymd 2023 1 1) "buy" "BTC" 2 30000 60000 10;
    Transaction.mk (plus_days (ymd 2023 1 1) 365) "sell" "BTC" 1 40000 40000 10;
    Transaction.mk (plus_days (ymd 2023 1 1) 366) "sell" "BTC" 1 40000 40000 10 ]%Q.

(** Three transactions on one day and one on the day before, out of
    order. *)
Definition tied_batch : list (Transaction.t Q) :=
  [ Transaction.mk (ymd 2024 1 2) "buy" "BTC" 1 100 100 0;
    Transaction.mk (ymd 2024 1 2) "sell" "BTC" 1 200 200 0;
    Transaction.mk (ymd 2024 1 1) "buy" "ETH" 1 10 10 0;
    Transaction.mk (ymd 2024 1 2) "buy" "BTC" 2 300 600 0 ]%Q.

(** What the run leaves of [tied_batch]: the ETH lot, first in date order,
    is evicted by the sale; the sale is matched with the BTC lot listed
    before it; the BTC lot listed after it is left whole. *)
Definition tied_engine : FIFOTaxCalculator Q :=
  mkEngine [(TaxLot.mk (ymd 2024 1 2) 2 2 300 "BTC" 600)%Q]
           [(CapitalGain.mk (ymd 2024 1 2) (ymd 2024 1 2) "BTC" 1 100 200 100 short 0)%Q]
           [SymbolMismatch "BTC" "ETH"].

(** Two lots bought with a little more than one unit each, and two sales
    of one unit: [1.000000009] and [1], in exact fractions and in
    binary64. *)
Definition dust_batch : list (Transaction.t Q) :=
  [ Transaction.mk (ymd 2024 1 1) "buy" "BTC" (1000000009 # 1000000000) 50000 50000 0;
    Transaction.mk (ymd 2024 1 2) "buy" "BTC" (1000000009 # 1000000000) 50000 50000 0;
    Transaction.mk (ymd 2024 2 1) "sell" "BTC" 1 60000 60000 0;
    Transaction.mk (ymd 2024 2 2) "sell" "BTC" 1 60000 60000 0 ]%Q.

Definition dust_batch_binary64 : list (Transaction.t float) :=
  [ Transaction.mk (ymd 2024 1 1) "buy" "BTC" 1.000000009 50000 50000 0;
    Transaction.mk (ymd 2024 1 2) "buy" "BTC" 1.000000009 50000 50000 0;
    Transaction.mk (ymd 2024 2 1) "sell" "BTC" 1 60000 60000 0;
    Transaction.mk (ymd 2024 2 2) "sell" "BTC" 1 60000 60000 0 ]%float.

Definition dust_gain_1 : CapitalGain.t Q :=
  (CapitalGain.mk (ymd 2024 2 1) (ymd 2024 1 1) "BTC" 1 50000 60000 10000 short 31)%Q.

Definition dust_gain_2 : CapitalGain.t Q :=
  (CapitalGain.mk (ymd 2024 2 2) (ymd 2024 1 2) "BTC" 1 50000 60000 10000 short 31)%Q.

(** A lot of [1.00000001] of which [1] is sold: exactly [1/10^8] is left
    in it. *)
Definition last_satoshi_batch : list (Transaction.t Q) :=
  [ Transaction.mk (ymd 2024 1 1) "buy" "BTC" (100000001 # 100000000) 50000 50000 0;
    Transaction.mk (ymd 2024 2 1) "sell" "BTC" 1 60000 60000 0 ]%Q.

(** One lot of [0.9] of which [0.2] is sold, in binary64. *)
Definition rounding_batch_binary64 : list (Transaction.t float) :=
  [ Transaction.mk (ymd 2024 1 1) "buy" "BTC" 0.9 50000 45000 0;
    Transaction.mk (ymd 2024 2 1) "sell" "BTC" 0.2 60000 12000 0 ]%float.

(** *** The batches of [tests/test_tax_calculator.py], with the floats the
    tests use *)

Definition test_buy (d : datetime) (amount price_per_unit price_usd fee_usd : float)
    : Transaction.t float :=
  Transaction.mk d "buy" "BTC" amount price_per_unit price_usd fee_usd.

Definition test_sell (d : datetime) (amount price_per_unit price_usd fee_usd : float)
    : Transaction.t float :=
  Transaction.mk d "sell" "BTC" amount price_per_unit price_usd fee_usd.

Definition test_simple_gain : list (Transaction.t float) :=
  [ test_buy (ymd 2024 1 1) 1 50000 50000 10;
    test_sell (ymd 2024 2 1) 1 60000 60000 15 ]%float.

Definition test_simple_loss : list (Transaction.t float) :=
  [ test_buy (ymd 2024 1 1) 1 60000 60000 10;
    test_sell (ymd 2024 2 1) 1 50000 50000 15 ]%float.

Definition test_partial_sale : list (Transaction.t float) :=
  [ test_buy (ymd 2024 1 1) 1 50000 50000 10;
    test_sell (ymd 2024 2 1) 0.5 60000 30000 7.5 ]%float.

Definition test_fifo_order : list (Transaction.t float) :=
  [ test_buy (ymd 2024 1 1) 1 40000 40000 10;
    test_buy (ymd 2024 2 1) 1 50000 50000 10;
    test_sell (ymd 2024 3 1) 1 60000 60000 15 ]%float.

Definition test_short_term : list (Transaction.t float) :=
  [ test_buy (ymd 2024 1 1) 1 50000 50000 10;
    test_sell (plus_days (ymd 2024 1 1) 200) 0.5 60000 30000 7.5 ]%float.

Definition test_long_term : list (Transaction.t float) :=
  [ test_buy (ymd 2024 1 1) 1 50000 50000 10;
    test_sell (plus_days (ymd 2024 1 1) 400) 1 60000 60000 15 ]%float.

(** The observations the tests assert on: the summary's total and counts,
    and the amounts and prices of the lots left in the engine. *)
Definition observed (r : option (Summary.t float * FIFOTaxCalculator float))
    : option (float * nat * option nat * option nat * list (float * float)) :=
  match r with
  | Some (s, st) =>
      Some (Summary.total_gain_loss s, Summary.num_transactions s,
            Summary.num_short_term s, Summary.num_long_term s,
            map (fun lot => (TaxLot.amount lot, TaxLot.price_per_unit lot)) (lots st))
  | None => None
  end.

(** ** Further vocabulary: kinds, provenance, order

    Used by the properties of the engine beyond the matching loop, of the
    aggregation, and of the CSV parser. *)

(** A transaction the engine acts on: [type] is ['buy'] or ['sell']. *)
Definition is_sell {num} (tx : Transaction.t num) : bool :=
  String.eqb (Transaction.type tx) "sell".

Definition is_known {num} (tx : Transaction.t num) : bool :=
  String.eqb (Transaction.type tx) "buy" || String.eqb (Transaction.type tx) "sell".

Definition is_unknown_type {num} (e : anomaly num) : bool :=
  match e with UnknownTransactionType _ => true | _ => false end.

Definition is_no_lots {num} (e : anomaly num) : bool :=
  match e with NoLotsAvailable _ _ _ => true | _ => false end.

(** Ascending purchase dates, of lots and of gains. *)
Definition lot_date_le {num} (a b : TaxLot.t num) : Prop :=
  TaxLot.date a <= TaxLot.date b.

Definition purchase_le {num} (a b : CapitalGain.t num) : Prop :=
  CapitalGain.purchase_date a <= CapitalGain.purchase_date b.

Definition sale_le {num} (a b : CapitalGain.t num) : Prop :=
  CapitalGain.sale_date a <= CapitalGain.sale_date b.

(** A lot as a buy of the batch made it, but for the amount left in it. *)
Definition lot_from {num} `{Number num} (txs : list (Transaction.t num))
    (lot : TaxLot.t num) : Prop :=
  exists buy,
    In buy txs /\ Transaction.type buy = "buy"%string
    /\ TaxLot.date lot = Transaction.date buy
    /\ TaxLot.symbol lot = Transaction.symbol buy
    /\ TaxLot.price_per_unit lot = Transaction.price_per_unit buy
    /\ TaxLot.original_amount lot = Transaction.amount buy
    /\ TaxLot.cost_basis lot =
         nmul (Transaction.amount buy) (Transaction.price_per_unit buy).

(** A gain that pairs a buy and a sell of the batch, of one symbol. *)
Definition gain_from {num} `{Number num} (txs : list (Transaction.t num))
    (g : CapitalGain.t num) : Prop :=
  exists buy sell,
    In buy txs /\ In sell txs
    /\ Transaction.type buy = "buy"%string /\ Transaction.type sell = "sell"%string
    /\ Transaction.symbol buy = Transaction.symbol sell
    /\ CapitalGain.symbol g = Transaction.symbol sell
    /\ CapitalGain.purchase_date g = Transaction.date buy
    /\ CapitalGain.sale_date g = Transaction.date sell
    /\ CapitalGain.cost_basis g =
         nmul (CapitalGain.amount g) (Transaction.price_per_unit buy)
    /\ CapitalGain.proceeds g =
         nmul (CapitalGain.amount g) (Transaction.price_per_unit sell)
    /\ CapitalGain.gain_loss g =
         nsub (CapitalGain.proceeds g) (CapitalGain.cost_basis g).

(** Two engines that differ only in that the second has none of the first's
    unknown-type anomalies. *)
Definition same_but_unknown {num} (st1 st2 : FIFOTaxCalculator num) : Prop :=
  lots st2 = lots st1
  /\ capital_gains st2 = capital_gains st1
  /\ errors st2 = filter (fun e => negb (is_unknown_type e)) (errors st1).

(** Both runs fail to return, or both return and the results are related. *)
Definition both {A : Type} (R : A -> A -> Prop) (a b : option A) : Prop :=
  match a, b with
  | Some x, Some y => R x y
  | None, None => True
  | _, _ => False
  end.

(** A batch with a transaction of a type the engine does not know. *)
Definition batch_with_transfer : list (Transaction.t Q) :=
  [ Transaction.mk (ymd 2024 1 1) "buy" "BTC" 1 50000 50000 10;
    Transaction.mk (ymd 2024 1 15) "transfer" "BTC" 1 0 0 0;
    Transaction.mk (ymd 2024 2 1) "sell" "BTC" 1 60000 60000 15 ]%Q.

(** What holds of an engine that has processed, in date order, transactions
    dated [b] at the latest: the ledger is in purchase order and not ahead
    of [b]; no gain was sold before it was bought; the gains are in purchase
    order and in sale order, and none was bought after a lot still held. *)
Definition in_date_order {num} (b : datetime) (st : FIFOTaxCalculator num) : Prop :=
  StronglySorted lot_date_le (lots st)
  /\ Forall (fun lot => TaxLot.date lot <= b) (lots st)
  /\ Forall (fun g => CapitalGain.purchase_date g <= CapitalGain.sale_date g
                      /\ 0 <= CapitalGain.holding_days g
                      /\ CapitalGain.sale_date g <= b) (capital_gains st)
  /\ StronglySorted purchase_le (capital_gains st)
  /\ StronglySorted sale_le (capital_gains st)
  /\ Forall (fun g => Forall (fun lot => CapitalGain.purchase_date g <= TaxLot.date lot)
                        (lots st)) (capital_gains st).

(** Every lot and every gain of the engine goes back to the batch. *)
Definition from_batch {num} `{Number num} (txs : list (Transaction.t num))
    (st : FIFOTaxCalculator num) : Prop :=
  Forall (lot_from txs) (lots st) /\ Forall (gain_from txs) (capital_gains st).

(** A lot holds something between nothing and what was bought. *)
Definition lot_within (lot : TaxLot.t Q) : Prop :=
  (0 <= TaxLot.amount lot /\ TaxLot.amount lot <= TaxLot.original_amount lot)%Q.

Definition amounts_in_bounds (st : FIFOTaxCalculator Q) : Prop :=
  Forall lot_within (lots st)
  /\ Forall (fun g => (0 <= CapitalGain.amount g)%Q) (capital_gains st).

(** How a sell ends: everything but at most the tolerance matched and no
    shortage recorded, or the ledger used up and the shortage [rest]
    recorded as the last anomaly. *)
Definition sell_outcome (tx : Transaction.t Q) (st' : FIFOTaxCalculator Q)
    (es : list (anomaly Q)) (rest : Q) : Prop :=
  ((rest <= neps)%Q /\ Forall (fun e => is_no_lots e = false) es)
  \/ ((neps < rest)%Q /\ lots st' = []
      /\ exists es0,
           es = es0 ++ [NoLotsAvailable rest (Transaction.symbol tx) (Transaction.date tx)]
           /\ Forall (fun e => is_no_lots e = false) es0).

(** A sell of [3] ETH for a ledger that holds [2] ETH behind a lot of
    another symbol. *)
Definition eth_oversell : Transaction.t Q :=
  (Transaction.mk (ymd 2024 3 1) "sell" "ETH" 3 3000 9000 1)%Q.

(** ** The CSV parser, [parsers/gemini_parser.py]

    [GeminiParser.parse] from the DataFrame on.  What the parser does
    itself is embedded: the loop over the rows, the dict it builds from a
    row, the arithmetic on doubles, the list it appends to.  What it calls
    in the libraries is left open, as the calls it makes on the cells of a
    row, each of which returns a value or raises. *)

Inductive exception : Type :=
| ValueError
| TypeError
| AttributeError
| ZeroDivisionError.

(** What evaluating an expression comes to: a value, or an exception. *)
Inductive outcome (A : Type) : Type :=
| Returns (a : A)
| Raises (e : exception).

Arguments Returns {A} a.
Arguments Raises {A} e.

Definition bind {A B : Type} (x : outcome A) (f : A -> outcome B) : outcome B :=
  match x with
  | Returns a => f a
  | Raises e => Raises e
  end.

Definition outcome_map {A B : Type} (f : A -> B) (x : outcome A) : outcome B :=
  bind x (fun a => Returns (f a)).

Notation "x <- e ;; k" := (bind e (fun x => k))
  (at level 61, e at next level, right associativity).

(** A row of the DataFrame [read_csv] returns, by column.  A cell is
    whatever object pandas put there: a [str], a number, NaN for an empty
    field.  [Symbol] is stored as it is read; the engine's transactions
    carry text there, and so do the rows here. *)
Module Row.
Record t (cell : Type) : Type := mk {
  Date : cell;
  Time : cell;
  Type_ : cell;
  Symbol : string;
  BTC_Amount : cell;
  USD_Amount : cell;
  Fee_USD : cell
}.
End Row.

Section GeminiParser.

Variable cell : Type.

(** [datetime.strptime(f"{date} {time}", "%Y-%m-%d %H:%M:%S")]: a
    [ValueError] when the text is not of that format. *)
Variable strptime : cell -> cell -> outcome datetime.

(** [c.lower()]: an [AttributeError] when the cell is not a [str]. *)
Variable lower : cell -> outcome string.

(** [float(c)]: a [ValueError] or [TypeError] when the cell is not a number
    or the text of one. *)
Variable to_float : cell -> outcome float.

(** [a / b] on [float]s. *)
Definition float_div (a b : float) : outcome float :=
  if (b =? 0)%float then Raises ZeroDivisionError else Returns (a / b)%float.

(** The body of the [for] loop up to the [append]: the transaction dict
    built from one row.  The entries are evaluated in the order in which
    the dict display lists them. *)
Definition parse_row (row : Row.t cell) : outcome (Transaction.t float) :=
  transaction_date <- strptime (Row.Date row) (Row.Time row) ;;
  type <- lower (Row.Type_ row) ;;
  let symbol := Row.Symbol row in
  btc <- to_float (Row.BTC_Amount row) ;;
  let amount := abs btc in
  usd <- to_float (Row.USD_Amount row) ;;
  let price_usd := abs usd in
  fee_usd <- to_float (Row.Fee_USD row) ;;
  usd' <- to_float (Row.USD_Amount row) ;;
  btc' <- to_float (Row.BTC_Amount row) ;;
  price_per_unit <- float_div (abs usd') (abs btc') ;;
  Returns (Transaction.mk transaction_date type symbol amount price_per_unit
             price_usd fee_usd).

(** The [for] loop of [parse] over the rows, appending to
    [self.transactions]: the list as the loop leaves it, and how the loop
    ended. *)
Fixpoint parse_rows (transactions : list (Transaction.t float))
    (rows : list (Row.t cell)) : list (Transaction.t float) * outcome unit :=
  match rows with
  | [] => (transactions, Returns tt)
  | row :: rows' =>
      match parse_row row with
      | Returns transaction => parse_rows (transactions ++ [transaction]) rows'
      | Raises e => (transactions, Raises e)
      end
  end.

(** [GeminiParser.parse] on a parser whose [self.transactions] is
    [transactions]: the new [self.transactions], and the list returned or
    the exception raised. *)
Definition parse (transactions : list (Transaction.t float)) (rows : list (Row.t cell))
    : list (Transaction.t float) * outcome (list (Transaction.t float)) :=
  let (transactions', finished) := parse_rows transactions rows in
  (transactions', outcome_map (fun _ => transactions') finished).

End GeminiParser.

(** The dict [get_summary] returns. *)
Module ParserSummary.
Record t (num : Type) : Type := mk {
  total_transactions : nat;
  total_buys : nat;
  total_sells : nat;
  total_spent : num;
  total_received : num
}.
End ParserSummary.


(** What every parsed transaction satisfies: no amount, total or unit price
    compares below zero, no amount equals zero, and the unit price is the
    total divided by the amount.  (A NaN cell passes: NaN compares neither
    below nor equal.) *)
Definition sign_normalized (tx : Transaction.t float) : Prop :=
  (Transaction.amount tx <? 0)%float = false
  /\ (Transaction.amount tx =? 0)%float = false
  /\ (Transaction.price_usd tx <? 0)%float = false
  /\ (Transaction.price_per_unit tx <? 0)%float = false
  /\ Transaction.price_per_unit tx
     = (Transaction.price_usd tx / Transaction.amount tx)%float.

(** What [split_batch] and [eth_oversell] leave behind. *)
Definition split_engine : FIFOTaxCalculator Q :=
  mkEngine [split_lot] [split_gain_1; split_gain_2] [].

Definition eth_oversell_engine : FIFOTaxCalculator Q :=
  mkEngine [] [gain_of eth_oversell eth_lot 2%Q]
    [SymbolMismatch "ETH" "BTC"; NoLotsAvailable 1%Q "ETH" (ymd 2024 3 1)].

(** * Properties *)

Unset Implicit Arguments.

Section EngineFacts.
Context {num : Type} `{Number num}.

Local Abbreviation engine := (FIFOTaxCalculator num).
Local Abbreviation transaction := (Transaction.t num).

(** *** The loop *)

Lemma sell_loop_done (fuel : nat) (tx : transaction) (st : engine) (r : num) :
  ngtb r neps = false -> sell_loop fuel tx st r = Some st.
Proof. intros Hg. destruct fuel; simpl; rewrite Hg; reflexivity. Qed.

Lemma sell_loop_step (fuel : nat) (tx : transaction) (st : engine) (r : num) :
  ngtb r neps = true ->
  sell_loop (S fuel) tx st r =
  match sell_body tx st r with
  | Break st' => Some st'
  | Next st' r' => sell_loop fuel tx st' r'
  end.
Proof. intros Hg. simpl. rewrite Hg. reflexivity. Qed.

(** A result reached with some fuel is reached with any larger fuel: the
    bound on the number of passes never shapes a result. *)
Lemma sell_loop_fuel_mono (tx : transaction) (fuel fuel' : nat) :
  (fuel <= fuel')%nat ->
  forall (st st' : engine) (r : num),
    sell_loop fuel tx st r = Some st' -> sell_loop fuel' tx st r = Some st'.
Proof.
  revert fuel'. induction fuel as [|n IH]; intros fuel' Hle st st' r Hrun.
  - simpl in Hrun. destruct (ngtb r neps) eqn:Hg; [discriminate|].
    rewrite sell_loop_done by assumption. assumption.
  - destruct fuel' as [|m]; [lia|].
    destruct (ngtb r neps) eqn:Hg.
    + rewrite sell_loop_step in * by assumption.
      destruct (sell_body tx st r) as [sb|sb rb]; [assumption|].
      apply IH; [lia|assumption].
    + rewrite sell_loop_done in * by assumption. assumption.
Qed.

Lemma sell_loop_drops_done (fuel : nat) (tx : transaction) (st : engine) (r : num) :
  ngtb r neps = false -> sell_loop_drops fuel tx st r = [].
Proof. intros Hg. destruct fuel; simpl; rewrite Hg; reflexivity. Qed.

Lemma sell_loop_drops_step (fuel : nat) (tx : transaction) (st : engine) (r : num) :
  ngtb r neps = true ->
  sell_loop_drops (S fuel) tx st r =
  dropped_by tx st r ++
  match sell_body tx st r with
  | Break _ => []
  | Next st' r' => sell_loop_drops fuel tx st' r'
  end.
Proof. intros Hg. simpl. rewrite Hg. reflexivity. Qed.

(** Invariants of the loop body are invariants of the loop. *)
Lemma sell_loop_invariant (P : engine -> Prop) (tx : transaction) :
  (forall st r, P st ->
     match sell_body tx st r with Break st' => P st' | Next st' _ => P st' end) ->
  forall fuel st r st', P st -> sell_loop fuel tx st r = Some st' -> P st'.
Proof.
  intros Hbody. induction fuel as [|n IH]; intros st r st' HP Hrun.
  - simpl in Hrun. destruct (ngtb r neps); [discriminate|].
    injection Hrun as <-. assumption.
  - simpl in Hrun. destruct (ngtb r neps).
    + specialize (Hbody st r HP).
      destruct (sell_body tx st r) as [sb|sb rb].
      * injection Hrun as <-. assumption.
      * apply (IH sb rb); assumption.
    + injection Hrun as <-. assumption.
Qed.

Lemma process_all_invariant (P : engine -> Prop) :
  (forall st tx st', P st -> process_transaction st tx = Some st' -> P st') ->
  forall txs st st', P st -> process_all st txs = Some st' -> P st'.
Proof.
  intros Hstep. induction txs as [|tx txs IH]; intros st st' HP Hrun; simpl in Hrun.
  - injection Hrun as <-. assumption.
  - destruct (process_transaction st tx) as [st1|] eqn:Etx; [|discriminate].
    eapply IH; [|eassumption]. eapply Hstep; eassumption.
Qed.

(** The three assignments at the top of [calculate_taxes] leave the engine
    as [__init__] does. *)
Lemma calculate_taxes_from_fresh (st : engine) (txs : list transaction) :
  calculate_taxes st txs =
  option_map (fun st' => (_generate_summary st', st')) (process_all fresh (sorted txs)).
Proof.
  unfold calculate_taxes. cbn [lots capital_gains errors]. fold (@fresh num).
  destruct (process_all fresh (sorted txs)); reflexivity.
Qed.

End EngineFacts.

(** *** The repository's tests

    The assertions of [tests/test_tax_calculator.py], replayed on the
    floats the tests use. *)

Lemma replay_test_simple_buy :
  option_map (fun st => map (fun lot => (TaxLot.amount lot, TaxLot.price_per_unit lot))
                            (lots st))
    (process_transaction (H := binary64) fresh (test_buy (ymd 2024 1 1) 1 50000 50000 10))
  = Some [(1, 50000)]%float.
Proof. vm_compute. reflexivity. Qed.

Lemma replay_test_simple_gain :
  observed (calculate_taxes (H := binary64) fresh test_simple_gain)
  = Some (10000%float, 1%nat, Some 1%nat, Some 0%nat, []).
Proof. vm_compute. reflexivity. Qed.

Lemma replay_test_simple_loss :
  observed (calculate_taxes (H := binary64) fresh test_simple_loss)
  = Some ((-10000)%float, 1%nat, Some 1%nat, Some 0%nat, []).
Proof. vm_compute. reflexivity. Qed.

Lemma replay_test_partial_sale :
  observed (calculate_taxes (H := binary64) fresh test_partial_sale)
  = Some (5000, 1%nat, Some 1%nat, Some 0%nat, [(0.5, 50000)])%float.
Proof. vm_compute. reflexivity. Qed.

Lemma replay_test_fifo_order :
  observed (calculate_taxes (H := binary64) fresh test_fifo_order)
  = Some (20000, 1%nat, Some 1%nat, Some 0%nat, [(1, 50000)])%float.
Proof. vm_compute. reflexivity. Qed.

Lemma replay_test_short_term_vs_long_term :
  observed (calculate_taxes (H := binary64) fresh test_short_term)
  = Some (5000, 1%nat, Some 1%nat, Some 0%nat, [(0.5, 50000)])%float
  /\ observed (calculate_taxes (H := binary64) fresh test_long_term)
     = Some (10000%float, 1%nat, Some 0%nat, Some 1%nat, []).
Proof. split; vm_compute; reflexivity. Qed.

Lemma replay_test_multiple_lots_in_one_sale :
  match calculate_taxes (H := binary64) fresh split_batch_binary64 with
  | Some (s, st) =>
      Summary.num_transactions s = 2%nat
      /\ exists lot, lots st = [lot]
                     /\ PrimFloat.ltb (abs (TaxLot.amount lot - 0.2)) 0.00000001 = true
  | None => False
  end.
Proof. vm_compute. split; [reflexivity|]. eexists. split; reflexivity. Qed.

(** *** Processing order *)

Section Ordering.
Context {num : Type} `{Number num}.

Local Abbreviation transaction := (Transaction.t num).

Lemma insert_by_date_Forall (P : transaction -> Prop) (tx : transaction)
    (l : list transaction) :
  P tx -> Forall P l -> Forall P (insert_by_date tx l).
Proof.
  intros Htx. induction 1 as [|y l Hy Hl IH]; simpl.
  - repeat constructor. exact Htx.
  - destruct (Transaction.date tx <=? Transaction.date y);
      repeat constructor; assumption.
Qed.

Lemma insert_by_date_sorted (tx : transaction) (l : list transaction) :
  StronglySorted date_le l -> StronglySorted date_le (insert_by_date tx l).
Proof.
  induction 1 as [|y l Hl IH Hy]; simpl.
  - repeat constructor.
  - destruct (Transaction.date tx <=? Transaction.date y) eqn:E.
    + apply Z.leb_le in E. constructor; [constructor; assumption|].
      constructor; [exact E|].
      eapply Forall_impl; [|exact Hy]. unfold date_le. intros z Hz. lia.
    + apply Z.leb_gt in E. constructor; [exact IH|].
      apply insert_by_date_Forall; [unfold date_le; lia|exact Hy].
Qed.

Lemma sorted_is_sorted (txs : list transaction) : StronglySorted date_le (sorted txs).
Proof.
  induction txs as [|tx txs IH]; simpl; [constructor|].
  apply insert_by_date_sorted. exact IH.
Qed.

Lemma insert_by_date_perm (tx : transaction) (l : list transaction) :
  Permutation (tx :: l) (insert_by_date tx l).
Proof.
  induction l as [|y l IH]; simpl; [reflexivity|].
  destruct (Transaction.date tx <=? Transaction.date y); [reflexivity|].
  rewrite perm_swap. constructor. exact IH.
Qed.

Lemma sorted_perm (txs : list transaction) : Permutation txs (sorted txs).
Proof.
  induction txs as [|tx txs IH]; simpl; [constructor|].
  rewrite <- insert_by_date_perm. constructor. exact IH.
Qed.

Lemma insert_by_date_filter (d : datetime) (tx : transaction) (l : list transaction) :
  filter (on_date d) (insert_by_date tx l) = filter (on_date d) (tx :: l).
Proof.
  induction l as [|y l IH]; simpl; [reflexivity|].
  destruct (Transaction.date tx <=? Transaction.date y) eqn:E; [reflexivity|].
  apply Z.leb_gt in E. simpl. rewrite IH. simpl. unfold on_date.
  destruct (Transaction.date tx =? d) eqn:Etx; [|reflexivity].
  apply Z.eqb_eq in Etx.
  assert (Hy : (Transaction.date y =? d) = false) by (apply Z.eqb_neq; lia).
  rewrite Hy. reflexivity.
Qed.

Lemma sorted_stable (d : datetime) (txs : list transaction) :
  filter (on_date d) (sorted txs) = filter (on_date d) txs.
Proof.
  induction txs as [|tx txs IH]; simpl; [reflexivity|].
  rewrite insert_by_date_filter. simpl. rewrite IH. reflexivity.
Qed.

Lemma filter_on_date_cons (d : datetime) (x : transaction) (l : list transaction) :
  filter (on_date d) (x :: l) =
  if Transaction.date x =? d then x :: filter (on_date d) l else filter (on_date d) l.
Proof. reflexivity. Qed.

(** Two date-sorted lists that list the transactions of every date in the
    same order are the same list: a stable sort has one possible result,
    whatever the algorithm. *)
Lemma stable_sort_unique (l1 l2 : list transaction) :
  StronglySorted date_le l1 -> StronglySorted date_le l2 ->
  (forall d, filter (on_date d) l1 = filter (on_date d) l2) ->
  l1 = l2.
Proof.
  intros H1. revert l2. induction H1 as [|x1 l1 Hs1 IH Hx1]; intros l2 H2 Hf.
  - destruct l2 as [|x2 l2]; [reflexivity|].
    specialize (Hf (Transaction.date x2)).
    rewrite filter_on_date_cons, Z.eqb_refl in Hf. discriminate Hf.
  - destruct l2 as [|x2 l2].
    { specialize (Hf (Transaction.date x1)).
      rewrite filter_on_date_cons, Z.eqb_refl in Hf. discriminate Hf. }
    inversion H2 as [|? ? Hs2 Hx2]; subst.
    assert (Hle21 : Transaction.date x2 <= Transaction.date x1).
    { pose proof (Hf (Transaction.date x1)) as Hd.
      rewrite (filter_on_date_cons _ x1), Z.eqb_refl in Hd.
      assert (Hin : In x1 (filter (on_date (Transaction.date x1)) (x2 :: l2))).
      { rewrite <- Hd. left. reflexivity. }
      apply filter_In in Hin as [[->|Hin] _]; [lia|].
      rewrite Forall_forall in Hx2. apply Hx2. exact Hin. }
    assert (Hle12 : Transaction.date x1 <= Transaction.date x2).
    { pose proof (Hf (Transaction.date x2)) as Hd.
      rewrite (filter_on_date_cons _ x2), Z.eqb_refl in Hd.
      assert (Hin : In x2 (filter (on_date (Transaction.date x2)) (x1 :: l1))).
      { rewrite Hd. left. reflexivity. }
      apply filter_In in Hin as [[->|Hin] _]; [lia|].
      rewrite Forall_forall in Hx1. apply Hx1. exact Hin. }
    assert (Hdate : Transaction.date x1 = Transaction.date x2) by lia.
    assert (Hhead : x1 = x2).
    { pose proof (Hf (Transaction.date x1)) as Hd.
      rewrite !filter_on_date_cons in Hd.
      rewrite <- Hdate, Z.eqb_refl in Hd.
      injection Hd as Hd _. exact Hd. }
    subst x2. f_equal. apply IH; [exact Hs2|].
    intros d. specialize (Hf d). rewrite !filter_on_date_cons in Hf.
    destruct (Transaction.date x1 =? d); [injection Hf as Hf|]; exact Hf.
Qed.

End Ordering.

(** ** Exact arithmetic *)

Lemma Qltb_lt (a b : Q) : Qltb a b = true <-> (a < b)%Q.
Proof.
  unfold Qltb. rewrite Qlt_alt. destruct (a ?= b)%Q; split; congruence.
Qed.

Lemma Qltb_ge (a b : Q) : Qltb a b = false <-> (b <= a)%Q.
Proof.
  rewrite <- not_true_iff_false, Qltb_lt. split; [apply Qnot_lt_le|apply Qle_not_lt].
Qed.

Lemma nsub_diag (a : Q) : nsub a a = 0%Q.
Proof.
  change (nsub a a) with (Qred (a - a)).
  change 0%Q with (Qred 0). apply Qred_complete. ring.
Qed.

Lemma neps_pos : (0 < neps)%Q.
Proof. reflexivity. Qed.

Lemma fold_left_nadd (l : list Q) (a : Q) :
  (fold_left nadd l a == a + fold_left nadd l 0)%Q.
Proof.
  revert a. induction l as [|x l IH]; intros a; simpl fold_left.
  - ring.
  - change (fold_left nadd l (Qred (a + x)) == a + fold_left nadd l (Qred (0 + x)))%Q.
    rewrite (IH (Qred (a + x))), (IH (Qred (0 + x))), !Qred_correct. ring.
Qed.

Lemma nsum_cons (x : Q) (l : list Q) : (nsum (x :: l) == x + nsum l)%Q.
Proof.
  unfold nsum. simpl fold_left.
  change (fold_left nadd l (Qred (0 + x)) == x + fold_left nadd l 0)%Q.
  rewrite fold_left_nadd, Qred_correct. ring.
Qed.

Lemma nsum_nil : nsum (@nil Q) = 0%Q.
Proof. reflexivity. Qed.

Lemma nsum_app (l1 l2 : list Q) : (nsum (l1 ++ l2) == nsum l1 + nsum l2)%Q.
Proof.
  induction l1 as [|x l1 IH]; simpl app.
  - rewrite nsum_nil. ring.
  - rewrite !nsum_cons, IH. ring.
Qed.

(** *** Matching a sell against the front lot *)

Section Matching.
Context {num : Type} `{Number num}.

Lemma sell_body_match (tx : Transaction.t num) (st : FIFOTaxCalculator num)
    (lot : TaxLot.t num) (rest : list (TaxLot.t num)) (r : num) :
  lots st = lot :: rest ->
  TaxLot.symbol lot = Transaction.symbol tx ->
  let m := nmin r (TaxLot.amount lot) in
  let lot' := TaxLot.take m lot in
  sell_body tx st r =
  Next (mkEngine (if nltb (TaxLot.amount lot') neps then rest else lot' :: rest)
          (capital_gains st ++ [gain_of tx lot m]) (errors st))
       (nsub r m).
Proof.
  intros Hlots Hsym. unfold sell_body. rewrite Hlots.
  rewrite Hsym, String.eqb_refl. reflexivity.
Qed.

End Matching.

(** *** Any arithmetic in which the loop ends within two passes *)

Section Returns.
Context {num : Type} `{Number num}.
Hypothesis Hlaw : ends_within_two_passes num.

(** One pass more than there are lots is enough: every pass but the last
    two removes a lot, or leaves nothing to sell. *)
Lemma sell_loop_returns (tx : Transaction.t num) (n : nat) :
  forall (st : FIFOTaxCalculator num) (r : num),
    (List.length (lots st) <= n)%nat ->
    exists st', sell_loop (S n) tx st r = Some st'.
Proof.
  induction n as [|n IH]; intros st r Hlen.
  - destruct (ngtb r neps) eqn:Hg; [|exists st; apply sell_loop_done; exact Hg].
    rewrite sell_loop_step by exact Hg. unfold sell_body.
    destruct (lots st) as [|lot rest]; [eexists; reflexivity|].
    simpl in Hlen. lia.
  - destruct (ngtb r neps) eqn:Hg; [|exists st; apply sell_loop_done; exact Hg].
    rewrite sell_loop_step by exact Hg.
    destruct (lots st) as [|lot rest] eqn:Elots.
    { unfold sell_body. rewrite Elots. eexists; reflexivity. }
    simpl in Hlen.
    destruct (String.eqb (TaxLot.symbol lot) (Transaction.symbol tx)) eqn:Esym.
    + apply String.eqb_eq in Esym.
      rewrite (sell_body_match tx st lot rest r Elots Esym). cbv zeta.
      set (m := nmin r (TaxLot.amount lot)).
      change (TaxLot.amount (TaxLot.take m lot)) with (nsub (TaxLot.amount lot) m).
      pose proof (Hlaw r (TaxLot.amount lot) Hg) as Hl. cbv zeta in Hl. fold m in Hl.
      destruct Hl as [Hpop|[Hend|Hnext]].
      * rewrite Hpop. apply IH. cbn [lots]. lia.
      * eexists. apply sell_loop_done. exact Hend.
      * destruct (nltb (nsub (TaxLot.amount lot) m) neps) eqn:Epop.
        { apply IH. cbn [lots]. lia. }
        destruct (ngtb (nsub r m) neps) eqn:Hg'; [|eexists; apply sell_loop_done; exact Hg'].
        rewrite sell_loop_step by exact Hg'.
        match goal with
        | |- context [sell_body tx ?s _] =>
            rewrite (sell_body_match tx s (TaxLot.take m lot) rest (nsub r m) eq_refl Esym)
        end.
        cbv zeta. eexists. apply sell_loop_done. exact Hnext.
    + unfold sell_body. rewrite Elots, Esym. simpl negb. cbv iota.
      apply IH. cbn [lots]. lia.
Qed.

Lemma process_transaction_returns (st : FIFOTaxCalculator num) (tx : Transaction.t num) :
  exists st', process_transaction st tx = Some st'.
Proof.
  unfold process_transaction.
  destruct (Transaction.type tx =? "buy")%string; [eexists; reflexivity|].
  destruct (Transaction.type tx =? "sell")%string; [|eexists; reflexivity].
  apply sell_loop_returns. lia.
Qed.

Lemma process_all_returns (txs : list (Transaction.t num)) :
  forall st : FIFOTaxCalculator num, exists st', process_all st txs = Some st'.
Proof.
  induction txs as [|tx txs IH]; intros st; simpl; [eexists; reflexivity|].
  destruct (process_transaction_returns st tx) as [st1 ->]. apply IH.
Qed.

Lemma calculate_taxes_returns (st : FIFOTaxCalculator num) (txs : list (Transaction.t num)) :
  exists s st', calculate_taxes st txs = Some (s, st').
Proof.
  rewrite calculate_taxes_from_fresh.
  destruct (process_all_returns (sorted txs) fresh) as [st' ->].
  eexists _, _. reflexivity.
Qed.

Lemma sell_loop_fuel_enough (tx : Transaction.t num) (st : FIFOTaxCalculator num)
    (fuel : nat) :
  (S (List.length (lots st)) <= fuel)%nat ->
  exists st', _process_sell st tx = Some st'
              /\ sell_loop fuel tx st (Transaction.amount tx) = Some st'.
Proof.
  intros Hfuel. unfold _process_sell.
  destruct (sell_loop_returns tx (List.length (lots st)) st (Transaction.amount tx))
    as [st' Hrun]; [lia|].
  exists st'. split; [exact Hrun|].
  eapply sell_loop_fuel_mono; [exact Hfuel|exact Hrun].
Qed.

End Returns.

Lemma Fraction_ends_within_two_passes : ends_within_two_passes Q.
Proof.
  intros r a Hg m a' r'. subst a' r' m. unfold nmin.
  destruct (nltb a r).
  - left. rewrite nsub_diag. reflexivity.
  - right. left. rewrite nsub_diag. reflexivity.
Qed.

(** *** Wrong symbol at the front of the ledger *)

Section SymbolMismatch.
Context {num : Type} `{Number num}.

Lemma remains_of_refl (l : list (TaxLot.t num)) : remains_of l l.
Proof. exists 0%nat. reflexivity. Qed.

Lemma remains_of_trans (l0 l1 l2 : list (TaxLot.t num)) :
  remains_of l0 l1 -> remains_of l1 l2 -> remains_of l0 l2.
Proof.
  intros [k1 H1] [k2 H2]. exists (k1 + k2)%nat.
  rewrite H2, H1, skipn_skipn. f_equal. lia.
Qed.

Lemma remains_of_tail (lot : TaxLot.t num) (l : list (TaxLot.t num)) :
  remains_of (lot :: l) l.
Proof. exists 1%nat. reflexivity. Qed.

Lemma remains_of_take (m : num) (lot : TaxLot.t num) (l : list (TaxLot.t num)) :
  remains_of (lot :: l) (TaxLot.take m lot :: l).
Proof. exists 0%nat. reflexivity. Qed.

Lemma sell_effect_refl (tx : Transaction.t num) (st : FIFOTaxCalculator num) :
  sell_effect tx st st.
Proof.
  exists [], []. rewrite !app_nil_r.
  split; [reflexivity|]. split; [reflexivity|].
  split; [constructor|apply remains_of_refl].
Qed.

(** A pass through the loop body adds to what the sell has done so far. *)
Lemma sell_body_effect (tx : Transaction.t num) (st0 st : FIFOTaxCalculator num) (r : num) :
  sell_effect tx st0 st ->
  match sell_body tx st r with
  | Break st' | Next st' _ => sell_effect tx st0 st'
  end.
Proof.
  intros (gs & es & Hg & He & Hsym & Hrem). unfold sell_body.
  destruct (lots st) as [|lot rest] eqn:Elots.
  { exists gs, (es ++ [NoLotsAvailable r (Transaction.symbol tx) (Transaction.date tx)]).
    cbn [capital_gains errors lots]. rewrite He, app_assoc.
    repeat split; assumption. }
  destruct (negb (TaxLot.symbol lot =? Transaction.symbol tx)%string).
  { exists gs, (es ++ [SymbolMismatch (Transaction.symbol tx) (TaxLot.symbol lot)]).
    cbn [capital_gains errors lots]. rewrite He, app_assoc.
    repeat split; try assumption.
    eapply remains_of_trans; [exact Hrem|]. apply remains_of_tail. }
  set (m := nmin r (TaxLot.amount lot)).
  exists (gs ++ [gain_of tx lot m]), es.
  cbn [capital_gains errors lots]. rewrite Hg, app_assoc.
  split; [reflexivity|]. split; [exact He|]. split.
  { apply Forall_app. split; [exact Hsym|]. repeat constructor. }
  eapply remains_of_trans; [exact Hrem|].
  destruct (nltb (TaxLot.amount (TaxLot.take m lot)) neps);
    [apply remains_of_tail|apply remains_of_take].
Qed.

Lemma sell_loop_effect (tx : Transaction.t num) (fuel : nat)
    (st st' : FIFOTaxCalculator num) (r : num) :
  sell_loop fuel tx st r = Some st' -> sell_effect tx st st'.
Proof.
  intros Hrun.
  apply (sell_loop_invariant (sell_effect tx st) tx (sell_body_effect tx st)
           fuel st r st' (sell_effect_refl tx st) Hrun).
Qed.

(** C3.  While a sell is being matched (the loop guard holds) and the
    front lot of the ledger is of another symbol, the pass through the
    loop body appends one symbol-mismatch anomaly, removes that lot from
    the ledger, leaves the list of realized gains as it was, and the loop
    goes on with the same remaining amount.  Whatever state the loop ends
    in, the anomaly is on record in it, every gain added is of the sell's
    symbol, not of the lot's, and the ledger consists of what is left of
    the lots behind the evicted one.  The sell as a whole, and every
    transaction after it, run as they would on the ledger without that
    lot; when the lot behind it is of the sell's symbol, the next pass
    matches the same remaining amount against that lot; and in an
    arithmetic in which the loop ends, the sell does end in such a
    state. *)
Theorem symbol_mismatch_evicts_front_lot
    (fuel : nat) (tx : Transaction.t num) (st : FIFOTaxCalculator num)
    (lot : TaxLot.t num) (rest : list (TaxLot.t num)) (remaining_to_sell : num) :
  lots st = lot :: rest ->
  ngtb remaining_to_sell neps = true ->
  TaxLot.symbol lot <> Transaction.symbol tx ->
  let mismatch := SymbolMismatch (Transaction.symbol tx) (TaxLot.symbol lot) in
  let st' := mkEngine rest (capital_gains st) (errors st ++ [mismatch]) in
  sell_body tx st remaining_to_sell = Next st' remaining_to_sell
  /\ sell_loop (S fuel) tx st remaining_to_sell = sell_loop fuel tx st' remaining_to_sell
  /\ (forall st_end,
        sell_loop (S fuel) tx st remaining_to_sell = Some st_end ->
        exists gs es,
          capital_gains st_end = capital_gains st ++ gs
          /\ errors st_end = errors st ++ mismatch :: es
          /\ Forall (fun g => CapitalGain.symbol g = Transaction.symbol tx
                             /\ CapitalGain.symbol g <> TaxLot.symbol lot) gs
          /\ remains_of rest (lots st_end))
  /\ (remaining_to_sell = Transaction.amount tx ->
      _process_sell st tx = _process_sell st' tx
      /\ (Transaction.type tx = "sell"%string ->
          forall later, process_all st (tx :: later) = process_all st' (tx :: later)))
  /\ (forall lot2 rest2,
        rest = lot2 :: rest2 ->
        TaxLot.symbol lot2 = Transaction.symbol tx ->
        let m := nmin remaining_to_sell (TaxLot.amount lot2) in
        exists st2,
          sell_loop (S (S fuel)) tx st remaining_to_sell
            = sell_loop fuel tx st2 (nsub remaining_to_sell m)
          /\ capital_gains st2 = capital_gains st ++ [gain_of tx lot2 m]
          /\ errors st2 = errors st ++ [mismatch]
          /\ forall st_end,
               sell_loop (S (S fuel)) tx st remaining_to_sell = Some st_end ->
               exists gs, capital_gains st_end
                          = capital_gains st ++ gain_of tx lot2 m :: gs)
  /\ (ends_within_two_passes num ->
      remaining_to_sell = Transaction.amount tx ->
      exists st_end gs es,
        _process_sell st tx = Some st_end
        /\ capital_gains st_end = capital_gains st ++ gs
        /\ errors st_end = errors st ++ mismatch :: es
        /\ Forall (fun g => CapitalGain.symbol g = Transaction.symbol tx
                           /\ CapitalGain.symbol g <> TaxLot.symbol lot) gs
        /\ remains_of rest (lots st_end)).
Proof.
  intros Hlots Hguard Hsym mismatch st'.
  assert (Hbody : sell_body tx st remaining_to_sell = Next st' remaining_to_sell).
  { unfold sell_body. rewrite Hlots.
    apply String.eqb_neq in Hsym. rewrite Hsym. reflexivity. }
  assert (Hstep : forall n, sell_loop (S n) tx st remaining_to_sell
                            = sell_loop n tx st' remaining_to_sell).
  { intros n. rewrite sell_loop_step by assumption. rewrite Hbody. reflexivity. }
  assert (Hend : forall n st_end,
             sell_loop (S n) tx st remaining_to_sell = Some st_end ->
             exists gs es,
               capital_gains st_end = capital_gains st ++ gs
               /\ errors st_end = errors st ++ mismatch :: es
               /\ Forall (fun g => CapitalGain.symbol g = Transaction.symbol tx
                                  /\ CapitalGain.symbol g <> TaxLot.symbol lot) gs
               /\ remains_of rest (lots st_end)).
  { intros n st_end Hrun. rewrite Hstep in Hrun.
    destruct (sell_loop_effect tx n st' st_end remaining_to_sell Hrun)
      as (gs & es & Hg & He & Hs & Hrem).
    exists gs, es. unfold st' in Hg, He, Hrem. cbn [capital_gains errors lots] in Hg, He, Hrem.
    split; [exact Hg|]. split; [rewrite He, <- app_assoc; reflexivity|].
    split; [|exact Hrem].
    eapply Forall_impl; [|exact Hs]. intros g Hgs. split; [exact Hgs|].
    rewrite Hgs. intros Heq. apply Hsym. symmetry. exact Heq. }
  split; [exact Hbody|]. split; [apply Hstep|]. split; [|split; [|split]].
  - apply Hend.
  - intros ->.
    assert (Hsell : _process_sell st tx = _process_sell st' tx).
    { unfold _process_sell. rewrite Hlots. cbn [lots List.length]. apply Hstep. }
    split; [exact Hsell|].
    intros Hty later. cbn [process_all]. unfold process_transaction.
    rewrite Hty. simpl String.eqb. cbv iota. rewrite Hsell. reflexivity.
  - intros lot2 rest2 -> Hsym2 m.
    pose proof (sell_body_match tx st' lot2 rest2 remaining_to_sell eq_refl Hsym2)
      as Hbody2. cbv zeta in Hbody2. fold m in Hbody2.
    eexists. split; [|split; [|split]].
    + rewrite Hstep, sell_loop_step by assumption. rewrite Hbody2. reflexivity.
    + reflexivity.
    + reflexivity.
    + intros st_end Hrun.
      rewrite Hstep, sell_loop_step in Hrun by assumption. rewrite Hbody2 in Hrun.
      destruct (sell_loop_effect tx fuel _ st_end _ Hrun) as (gs & _ & Hg & _).
      exists gs. cbn [capital_gains] in Hg. rewrite Hg, <- app_assoc. reflexivity.
  - intros Hlaw ->.
    destruct (sell_loop_returns Hlaw tx (List.length (lots st)) st (Transaction.amount tx))
      as [st_end Hrun]; [lia|].
    destruct (Hend _ st_end Hrun) as (gs & es & Hfacts).
    exists st_end, gs, es. split; [exact Hrun|exact Hfacts].
Qed.

End SymbolMismatch.

Lemma symbol_mismatch_evicts_front_lot_witness :
  lots mixed_ledger = btc_lot :: [eth_lot]
  /\ ngtb 2%Q neps = true
  /\ TaxLot.symbol btc_lot <> Transaction.symbol eth_sell
  /\ sell_body eth_sell mixed_ledger 2%Q = Next mixed_ledger_evicted 2%Q
  /\ _process_sell mixed_ledger eth_sell = Some mixed_ledger_sold
  /\ _process_sell mixed_ledger_evicted eth_sell = Some mixed_ledger_sold
  /\ exists gs es,
       capital_gains mixed_ledger_sold = capital_gains mixed_ledger ++ gs
       /\ errors mixed_ledger_sold
          = errors mixed_ledger ++ SymbolMismatch "ETH" "BTC" :: es
       /\ Forall (fun g => CapitalGain.symbol g = "ETH"%string
                          /\ CapitalGain.symbol g <> "BTC"%string) gs
       /\ remains_of [eth_lot] (lots mixed_ledger_sold).
Proof.
  assert (Hsym : TaxLot.symbol btc_lot <> Transaction.symbol eth_sell) by discriminate.
  assert (Hrun : _process_sell mixed_ledger eth_sell = Some mixed_ledger_sold)
    by (vm_compute; reflexivity).
  destruct (@symbol_mismatch_evicts_front_lot Q Fraction 2%nat eth_sell mixed_ledger
              btc_lot [eth_lot] 2%Q eq_refl eq_refl Hsym)
    as (Hbody & _ & Hend & Hsell & _ & _).
  split; [reflexivity|]. split; [reflexivity|]. split; [exact Hsym|].
  split; [exact Hbody|]. split; [exact Hrun|].
  split; [exact (eq_trans (eq_sym (proj1 (Hsell eq_refl))) Hrun)|].
  exact (Hend mixed_ledger_sold Hrun).
Defined.

Lemma nmin_Fraction (a b : Q) : nmin a b = Qmin a b.
Proof.
  unfold nmin, Qmin, GenericMinMax.gmin. simpl. unfold Qltb.
  rewrite <- (Qcompare_antisym a b).
  destruct (a ?= b)%Q; reflexivity.
Qed.

Lemma generate_summary_gains {num : Type} `{Number num} (st : FIFOTaxCalculator num) :
  capital_gains st <> [] ->
  Summary.capital_gains (_generate_summary st) = Some (capital_gains st)
  /\ Summary.remaining_lots (_generate_summary st) = Some (lots st)
  /\ Summary.num_transactions (_generate_summary st) = List.length (capital_gains st)
  /\ Summary.errors (_generate_summary st) = errors st.
Proof.
  intros Hne. unfold _generate_summary.
  destruct (capital_gains st) as [|g gs]; [contradiction|].
  repeat split; reflexivity.
Qed.

Lemma split_across_lots_run (d1 d2 d3 : datetime) (sym : string)
    (u1 u2 u3 f1 f2 f3 : Q) :
  d1 <= d2 -> d2 <= d3 ->
  let sell := Transaction.mk d3 "sell" sym (4 # 5)%Q 60000%Q u3 f3 in
  process_all fresh (sorted (split_across_lots d1 d2 d3 sym u1 u2 u3 f1 f2 f3)) =
  Some (mkEngine
          [TaxLot.mk d2 (1 # 5) (1 # 2) 50000 sym 25000]
          [gain_of sell (TaxLot.init d1 (1 # 2) 40000 sym) (1 # 2);
           gain_of sell (TaxLot.init d2 (1 # 2) 50000 sym) (3 # 10)]
          [])%Q.
Proof.
  intros H12 H23 sell. unfold split_across_lots, sorted.
  apply Z.leb_le in H12, H23.
  cbn [fold_right insert_by_date Transaction.date]. rewrite H23.
  cbn [fold_right insert_by_date Transaction.date]. rewrite H12.
  unfold process_all, process_transaction. simpl String.eqb. cbv iota beta.
  cbn -[String.eqb gain_of]. rewrite !String.eqb_refl.
  cbn -[String.eqb gain_of]. rewrite !String.eqb_refl.
  reflexivity.
Qed.

(** In binary64 the same batch yields the first gain exactly and the second
    one up to rounding, far below the engine's tolerance. *)
Lemma split_batch_binary64_gains :
  exists st lot,
    option_map snd (calculate_taxes (H := binary64) fresh split_batch_binary64) = Some st
    /\ capital_gains st
       = [CapitalGain.mk (ymd 2024 3 1) (ymd 2024 1 1) "BTC"
            0.5 20000 30000 10000 short 60;
          split_gain_2_binary64]%float
    /\ PrimFloat.ltb (abs (CapitalGain.amount split_gain_2_binary64 - 0.3)) 1e-8 = true
    /\ PrimFloat.ltb (abs (CapitalGain.cost_basis split_gain_2_binary64 - 15000)) 1e-8 = true
    /\ PrimFloat.ltb (abs (CapitalGain.gain_loss split_gain_2_binary64 - 3000)) 1e-8 = true
    /\ lots st = [lot]
    /\ PrimFloat.ltb (abs (TaxLot.amount lot - 0.2)) 1e-8 = true.
Proof.
  eexists _, _. split; [vm_compute; reflexivity|].
  repeat split; vm_compute; reflexivity.
Qed.

(** C4.  A pass through the loop body whose front lot is of the sell's
    symbol takes [m = min(remaining, lot.amount)] from that lot, appends
    one gain with [cost_basis = m * lot.price_per_unit],
    [proceeds = m * sale price] and [gain_loss = proceeds - cost_basis],
    lowers the lot's amount and the remaining amount by [m], and removes
    the lot when less than [1e-8] is left in it.  For buy [1/2 @ 40000],
    buy [1/2 @ 50000], sell [4/5 @ 60000] of one symbol on ascending dates
    this gives exactly the gains [(1/2, 20000, 10000)] and
    [(3/10, 15000, 3000)] and leaves one lot holding [1/5]; run on the
    test's floats it gives the first gain exactly, and the second gain and
    the lot to within rounding, well inside the tolerance. *)
Theorem fifo_matching_splits_across_lots :
  (forall (num : Type) (N : Number num) (fuel : nat) (tx : Transaction.t num)
          (st : FIFOTaxCalculator num) (lot : TaxLot.t num)
          (rest : list (TaxLot.t num)) (r : num),
      lots st = lot :: rest ->
      ngtb r neps = true ->
      TaxLot.symbol lot = Transaction.symbol tx ->
      let m := nmin r (TaxLot.amount lot) in
      let left := nsub (TaxLot.amount lot) m in
      exists g : CapitalGain.t num,
        let st' := mkEngine (if nltb left neps then rest
                             else TaxLot.take m lot :: rest)
                            (capital_gains st ++ [g]) (errors st) in
        sell_body tx st r = Next st' (nsub r m)
        /\ sell_loop (S fuel) tx st r = sell_loop fuel tx st' (nsub r m)
        /\ TaxLot.amount (TaxLot.take m lot) = left
        /\ CapitalGain.amount g = m
        /\ CapitalGain.cost_basis g = nmul m (TaxLot.price_per_unit lot)
        /\ CapitalGain.proceeds g = nmul m (Transaction.price_per_unit tx)
        /\ CapitalGain.gain_loss g =
             nsub (CapitalGain.proceeds g) (CapitalGain.cost_basis g)
        /\ CapitalGain.purchase_date g = TaxLot.date lot
        /\ CapitalGain.sale_date g = Transaction.date tx)
  /\ (forall a b : Q, nmin a b = Qmin a b)
  /\ (forall (d1 d2 d3 : datetime) (sym : string) (u1 u2 u3 f1 f2 f3 : Q)
             (st : FIFOTaxCalculator Q),
        d1 <= d2 -> d2 <= d3 ->
        exists s st' g1 g2 lot,
          calculate_taxes st (split_across_lots d1 d2 d3 sym u1 u2 u3 f1 f2 f3)
            = Some (s, st')
          /\ Summary.capital_gains s = Some [g1; g2]
          /\ Summary.num_transactions s = 2%nat
          /\ CapitalGain.amount g1 = (1 # 2)%Q
          /\ CapitalGain.cost_basis g1 = 20000%Q
          /\ CapitalGain.gain_loss g1 = 10000%Q
          /\ CapitalGain.amount g2 = (3 # 10)%Q
          /\ CapitalGain.cost_basis g2 = 15000%Q
          /\ CapitalGain.gain_loss g2 = 3000%Q
          /\ Summary.remaining_lots s = Some [lot]
          /\ lots st' = [lot]
          /\ TaxLot.amount lot = (1 # 5)%Q)
  /\ (exists st lot,
        option_map snd (calculate_taxes (H := binary64) fresh split_batch_binary64)
          = Some st
        /\ capital_gains st
           = [CapitalGain.mk (ymd 2024 3 1) (ymd 2024 1 1) "BTC"
                0.5 20000 30000 10000 short 60;
              split_gain_2_binary64]%float
        /\ PrimFloat.ltb (abs (CapitalGain.amount split_gain_2_binary64 - 0.3)) 1e-8 = true
        /\ PrimFloat.ltb (abs (CapitalGain.cost_basis split_gain_2_binary64 - 15000)) 1e-8
             = true
        /\ PrimFloat.ltb (abs (CapitalGain.gain_loss split_gain_2_binary64 - 3000)) 1e-8
             = true
        /\ lots st = [lot]
        /\ PrimFloat.ltb (abs (TaxLot.amount lot - 0.2)) 1e-8 = true).
Proof.
  split; [|split; [exact nmin_Fraction|split; [|exact split_batch_binary64_gains]]].
  - intros num N fuel tx st lot rest r Hlots Hguard Hsym m left.
    exists (gain_of tx lot m). cbv zeta.
    pose proof (sell_body_match tx st lot rest r Hlots Hsym) as Hbody.
    cbv zeta in Hbody.
    split; [exact Hbody|]. split.
    + rewrite sell_loop_step by assumption. rewrite Hbody. reflexivity.
    + repeat split; reflexivity.
  - intros d1 d2 d3 sym u1 u2 u3 f1 f2 f3 st H12 H23.
    rewrite calculate_taxes_from_fresh.
    rewrite (split_across_lots_run d1 d2 d3 sym u1 u2 u3 f1 f2 f3 H12 H23).
    eexists _, _, _, _, _.
    split; [reflexivity|]. repeat split; reflexivity.
Qed.

Lemma fifo_matching_splits_across_lots_witness :
  ymd 2024 1 1 <= ymd 2024 2 1
  /\ ymd 2024 2 1 <= ymd 2024 3 1
  /\ exists s st' g1 g2 lot,
       calculate_taxes fresh split_batch = Some (s, st')
       /\ Summary.capital_gains s = Some [g1; g2]
       /\ Summary.num_transactions s = 2%nat
       /\ CapitalGain.amount g1 = (1 # 2)%Q
       /\ CapitalGain.cost_basis g1 = 20000%Q
       /\ CapitalGain.gain_loss g1 = 10000%Q
       /\ CapitalGain.amount g2 = (3 # 10)%Q
       /\ CapitalGain.cost_basis g2 = 15000%Q
       /\ CapitalGain.gain_loss g2 = 3000%Q
       /\ Summary.remaining_lots s = Some [lot]
       /\ lots st' = [lot]
       /\ TaxLot.amount lot = (1 # 5)%Q.
Proof.
  assert (H12 : ymd 2024 1 1 <= ymd 2024 2 1) by (vm_compute; discriminate).
  assert (H23 : ymd 2024 2 1 <= ymd 2024 3 1) by (vm_compute; discriminate).
  split; [exact H12|]. split; [exact H23|].
  exact (proj1 (proj2 (proj2 fifo_matching_splits_across_lots))
           (ymd 2024 1 1) (ymd 2024 2 1) (ymd 2024 3 1) "BTC"%string
           20000%Q 25000%Q 48000%Q 5%Q (25 # 4)%Q 12%Q fresh H12 H23).
Defined.

(** The run on the test's own batch, in full. *)
Lemma split_batch_summary (st : FIFOTaxCalculator Q) :
  calculate_taxes st split_batch
  = Some (split_summary, mkEngine [split_lot] [split_gain_1; split_gain_2] []).
Proof. vm_compute. reflexivity. Qed.


(** *** A sell that finds the ledger empty *)

Section Oversell.
Context {num : Type} `{Number num}.

(** C2, as the code has it.  A batch of one sell whose amount exceeds the
    tolerance records exactly one anomaly, realizes no gain and reports
    [num_transactions = 0]; nothing of the unmatched amount is kept in the
    engine, and a buy processed after it is left whole. *)
Theorem oversell_records_one_anomaly
    (st : FIFOTaxCalculator num) (tx : Transaction.t num) :
  Transaction.type tx = "sell"%string ->
  ngtb (Transaction.amount tx) neps = true ->
  let err := NoLotsAvailable (Transaction.amount tx) (Transaction.symbol tx)
               (Transaction.date tx) in
  calculate_taxes st [tx] = Some (empty_summary [err], mkEngine [] [] [err])
  /\ Summary.num_transactions (empty_summary [err]) = 0%nat
  /\ List.length (Summary.errors (empty_summary [err])) = 1%nat
  /\ forall buy : Transaction.t num,
       Transaction.type buy = "buy"%string ->
       Transaction.date tx <= Transaction.date buy ->
       calculate_taxes st [tx; buy] =
       Some (empty_summary [err], mkEngine [lot_of_buy buy] [] [err]).
Proof.
  intros Hty Hguard err.
  assert (Hsell : process_transaction fresh tx = Some (mkEngine [] [] [err])).
  { unfold process_transaction. rewrite Hty. simpl String.eqb. cbv iota.
    unfold _process_sell. simpl List.length.
    rewrite sell_loop_step by assumption. reflexivity. }
  split; [|split; [reflexivity|split; [reflexivity|]]].
  - rewrite calculate_taxes_from_fresh. simpl sorted. simpl process_all.
    rewrite Hsell. reflexivity.
  - intros buy Hbuy Hdate. rewrite calculate_taxes_from_fresh. unfold sorted.
    cbn [fold_right insert_by_date].
    apply Z.leb_le in Hdate. rewrite Hdate.
    simpl process_all. rewrite Hsell.
    unfold process_transaction. rewrite Hbuy. reflexivity.
Qed.

End Oversell.

Lemma oversell_records_one_anomaly_witness :
  Transaction.type simple_sell = "sell"%string
  /\ ngtb (Transaction.amount simple_sell) neps = true
  /\ calculate_taxes fresh [simple_sell] =
       Some (empty_summary [NoLotsAvailable 1%Q "BTC" (ymd 2024 2 1)],
             mkEngine [] [] [NoLotsAvailable 1%Q "BTC" (ymd 2024 2 1)])
  /\ calculate_taxes fresh [simple_sell; later_buy] =
       Some (empty_summary [NoLotsAvailable 1%Q "BTC" (ymd 2024 2 1)],
             mkEngine [lot_of_buy later_buy] []
                      [NoLotsAvailable 1%Q "BTC" (ymd 2024 2 1)]).
Proof.
  split; [reflexivity|]. split; [reflexivity|].
  assert (Hdate : Transaction.date simple_sell <= Transaction.date later_buy)
    by (vm_compute; discriminate).
  pose proof (@oversell_records_one_anomaly Q Fraction fresh simple_sell
                eq_refl eq_refl) as (Hone & _ & _ & Hlater).
  split; [exact Hone|]. exact (Hlater later_buy eq_refl Hdate).
Defined.

(** C2, as stated, fails for a sell that never enters the loop: a sell of
    exactly [1e-8] records no anomaly at all. *)
Lemma satoshi_sell_records_nothing :
  Transaction.type satoshi_sell = "sell"%string
  /\ calculate_taxes fresh [satoshi_sell] = Some (empty_summary [], fresh)
  /\ ~ (exists s st', calculate_taxes fresh [satoshi_sell] = Some (s, st')
                      /\ List.length (Summary.errors s) = 1%nat).
Proof.
  split; [reflexivity|]. split; [vm_compute; reflexivity|].
  intros (s & st' & Hrun & Hlen).
  vm_compute in Hrun. injection Hrun as <- <-. discriminate Hlen.
Qed.

(** The binary64 run agrees: [1e-8 > 1e-8] is false there too. *)
Lemma satoshi_sell_records_nothing_binary64 :
  calculate_taxes (H := binary64) fresh [satoshi_sell_binary64]
  = Some (empty_summary (H := binary64) [], fresh).
Proof. vm_compute. reflexivity. Qed.

(** *** Batches of buys *)

Section BuysOnly.
Context {num : Type} `{Number num}.

Lemma process_all_buys (txs : list (Transaction.t num)) (st : FIFOTaxCalculator num) :
  forallb is_buy txs = true ->
  process_all st txs =
  Some (mkEngine (lots st ++ map lot_of_buy txs) (capital_gains st) (errors st)).
Proof.
  revert st. induction txs as [|tx txs IH]; intros st Hall; simpl.
  - rewrite app_nil_r. destruct st; reflexivity.
  - simpl in Hall. apply andb_true_iff in Hall as [Hbuy Hrest].
    unfold process_transaction. unfold is_buy in Hbuy. rewrite Hbuy.
    rewrite IH by assumption. simpl. rewrite <- app_assoc. reflexivity.
Qed.

Lemma insert_by_date_forallb (p : Transaction.t num -> bool)
    (tx : Transaction.t num) (l : list (Transaction.t num)) :
  forallb p (insert_by_date tx l) = p tx && forallb p l.
Proof.
  induction l as [|y l IH]; simpl; [reflexivity|].
  destruct (Transaction.date tx <=? Transaction.date y); simpl; [reflexivity|].
  rewrite IH. destruct (p y), (p tx); reflexivity.
Qed.

Lemma sorted_forallb (p : Transaction.t num -> bool) (txs : list (Transaction.t num)) :
  forallb p (sorted txs) = forallb p txs.
Proof.
  induction txs as [|tx txs IH]; simpl; [reflexivity|].
  rewrite insert_by_date_forallb, IH. reflexivity.
Qed.

(** For a batch of buys the engine ends with one untouched lot per buy, no
    gain and no anomaly, and [_generate_summary] takes its early return:
    totals of [0], no errors, and neither [remaining_lots] nor
    [capital_gains] among the keys. *)
Lemma buys_only_run (st : FIFOTaxCalculator num) (txs : list (Transaction.t num)) :
  forallb is_buy txs = true ->
  calculate_taxes st txs =
  Some (empty_summary [], mkEngine (map lot_of_buy (sorted txs)) [] []).
Proof.
  intros Hall. rewrite calculate_taxes_from_fresh.
  rewrite process_all_buys by (rewrite sorted_forallb; assumption).
  reflexivity.
Qed.

End BuysOnly.

(** *** The order in which a batch is processed *)

Section ProcessingOrder.
Context {num : Type} `{Number num}.

Local Abbreviation transaction := (Transaction.t num).

(** The [for] loop hands the transactions to [process_transaction] one by
    one, from the first to the last. *)
Lemma process_all_in_order (txs : list transaction) :
  forall st st' : FIFOTaxCalculator num,
    process_all st txs = Some st' <-> processed_in_order st txs st'.
Proof.
  induction txs as [|tx txs IH]; intros st st'; simpl.
  - split; [intros [= <-]; constructor|].
    intros Hp. inversion Hp. reflexivity.
  - split.
    + destruct (process_transaction st tx) as [st1|] eqn:E; [|discriminate].
      intros Hrun. econstructor; [exact E|]. apply IH. exact Hrun.
    + intros Hp. inversion Hp as [|? st1 ? ? ? E Hrest]; subst.
      rewrite E. apply IH. exact Hrest.
Qed.

Lemma filter_unknown_snoc (errs : list (anomaly num)) (e : anomaly num) :
  filter is_unknown_type (errs ++ [e]) =
  filter is_unknown_type errs ++ (if is_unknown_type e then [e] else []).
Proof.
  rewrite filter_app. simpl. destruct (is_unknown_type e); reflexivity.
Qed.

Lemma sell_body_no_unknown (l : list (anomaly num)) (tx : transaction)
    (st : FIFOTaxCalculator num) (r : num) :
  filter is_unknown_type (errors st) = l ->
  match sell_body tx st r with
  | Break st' | Next st' _ => filter is_unknown_type (errors st') = l
  end.
Proof.
  intros Hst. unfold sell_body. destruct (lots st) as [|lot rest].
  { cbn [errors]. rewrite filter_unknown_snoc, app_nil_r. exact Hst. }
  destruct (negb (TaxLot.symbol lot =? Transaction.symbol tx)%string); cbn [errors].
  - rewrite filter_unknown_snoc, app_nil_r. exact Hst.
  - exact Hst.
Qed.

(** The unknown-type anomalies of a run name the transactions of unknown
    type, in the order in which the run was handed them. *)
Lemma process_all_unknown_in_order (txs : list transaction) :
  forall st st' : FIFOTaxCalculator num,
    process_all st txs = Some st' ->
    filter is_unknown_type (errors st') =
    filter is_unknown_type (errors st)
    ++ map (fun tx => UnknownTransactionType (Transaction.type tx))
           (filter (fun tx => negb (is_known tx)) txs).
Proof.
  induction txs as [|tx txs IH]; intros st st' Hrun; simpl in Hrun.
  - injection Hrun as <-. simpl. rewrite app_nil_r. reflexivity.
  - destruct (process_transaction st tx) as [st1|] eqn:Etx; [|discriminate].
    rewrite (IH st1 st' Hrun). clear IH Hrun.
    cbn [filter]. unfold is_known. unfold process_transaction in Etx.
    destruct (Transaction.type tx =? "buy")%string.
    { injection Etx as <-. reflexivity. }
    destruct (Transaction.type tx =? "sell")%string.
    + unfold _process_sell in Etx. simpl negb. cbv iota.
      rewrite (sell_loop_invariant
                 (fun e => filter is_unknown_type (errors e)
                           = filter is_unknown_type (errors st))
                 tx (sell_body_no_unknown _ tx) _ st _ st1 eq_refl Etx).
      reflexivity.
    + injection Etx as <-. cbn [errors orb negb map].
      rewrite filter_unknown_snoc. cbn [is_unknown_type].
      rewrite <- app_assoc. reflexivity.
Qed.

(** Without a sell in the batch, the ledger ends as the run of the buys,
    in the order in which the run was handed them. *)
Lemma process_all_without_sells (txs : list transaction) :
  forallb (fun tx => negb (is_sell tx)) txs = true ->
  forall st : FIFOTaxCalculator num,
    exists st',
      process_all st txs = Some st'
      /\ lots st' = lots st ++ map lot_of_buy (filter is_buy txs)
      /\ capital_gains st' = capital_gains st.
Proof.
  induction txs as [|tx txs IH]; intros Hall st; simpl.
  - exists st. rewrite app_nil_r. repeat split; reflexivity.
  - simpl in Hall. apply andb_true_iff in Hall as [Htx Hrest].
    unfold process_transaction, is_buy. unfold is_sell in Htx.
    destruct (Transaction.type tx =? "buy")%string.
    + destruct (IH Hrest (_process_buy st tx)) as (st' & Hrun & Hlots & Hgains).
      exists st'. split; [exact Hrun|]. split; [|exact Hgains].
      rewrite Hlots. unfold _process_buy. cbn [lots map]. rewrite <- app_assoc.
      reflexivity.
    + destruct (Transaction.type tx =? "sell")%string; [discriminate Htx|].
      destruct (IH Hrest (mkEngine (lots st) (capital_gains st)
                            (errors st ++ [UnknownTransactionType (Transaction.type tx)])))
        as (st' & Hrun & Hlots & Hgains).
      exists st'. split; [exact Hrun|]. split; [exact Hlots|exact Hgains].
Qed.

(** C7.  [calculate_taxes] feeds the transactions to the engine in the
    order [sorted] puts them in; that order is ascending in [date], is a
    rearrangement of the input, and keeps the transactions of any one date
    in their input order; it is the only order with these properties.
    The run returns a state exactly when handing the transactions to
    [process_transaction] one by one in that order, starting from an empty
    engine, leads to that state.  The order shows in the result: the
    unknown-type anomalies name the transactions of unknown type in that
    order, and without a sell in the batch the ledger holds the lots of the
    buys in that order. *)
Theorem calculate_taxes_processes_in_stable_date_order
    (st : FIFOTaxCalculator num) (txs : list transaction) :
  calculate_taxes st txs =
    option_map (fun st' => (_generate_summary st', st'))
               (process_all fresh (sorted txs))
  /\ StronglySorted date_le (sorted txs)
  /\ Permutation txs (sorted txs)
  /\ (forall d, filter (on_date d) (sorted txs) = filter (on_date d) txs)
  /\ (forall l, StronglySorted date_le l ->
                (forall d, filter (on_date d) l = filter (on_date d) txs) ->
                l = sorted txs)
  /\ (forall s st',
        calculate_taxes st txs = Some (s, st') <->
        processed_in_order fresh (sorted txs) st' /\ s = _generate_summary st')
  /\ (forall s st',
        calculate_taxes st txs = Some (s, st') ->
        filter is_unknown_type (errors st') =
        map (fun tx => UnknownTransactionType (Transaction.type tx))
            (filter (fun tx => negb (is_known tx)) (sorted txs)))
  /\ (forallb (fun tx => negb (is_sell tx)) txs = true ->
      exists s st',
        calculate_taxes st txs = Some (s, st')
        /\ lots st' = map lot_of_buy (filter is_buy (sorted txs))).
Proof.
  split.
  { apply calculate_taxes_from_fresh. }
  split; [apply sorted_is_sorted|].
  split; [apply sorted_perm|].
  split; [intros d; apply sorted_stable|].
  split.
  { intros l Hl Hf. apply stable_sort_unique; [exact Hl|apply sorted_is_sorted|].
    intros d. rewrite Hf, sorted_stable. reflexivity. }
  split; [|split].
  - intros s st'. rewrite calculate_taxes_from_fresh. split.
    + destruct (process_all fresh (sorted txs)) as [st1|] eqn:Erun; [|discriminate].
      intros [= <- <-]. split; [|reflexivity].
      apply process_all_in_order. exact Erun.
    + intros [Hp ->]. apply process_all_in_order in Hp. rewrite Hp. reflexivity.
  - intros s st'. rewrite calculate_taxes_from_fresh.
    destruct (process_all fresh (sorted txs)) as [st1|] eqn:Erun; [|discriminate].
    intros [= _ <-].
    rewrite (process_all_unknown_in_order (sorted txs) fresh st1 Erun). reflexivity.
  - intros Hall. rewrite calculate_taxes_from_fresh.
    rewrite <- (sorted_forallb (fun tx => negb (is_sell tx)) txs) in Hall.
    destruct (process_all_without_sells (sorted txs) Hall fresh)
      as (st' & Hrun & Hlots & _).
    rewrite Hrun. eexists _, st'. split; [reflexivity|]. exact Hlots.
Qed.

End ProcessingOrder.

Lemma tied_batch_order :
  map (fun tx => (Transaction.type tx, Transaction.amount tx)) (sorted tied_batch)
  = [("buy", 1); ("buy", 1); ("sell", 1); ("buy", 2)]%string%Q
  /\ map (@Transaction.symbol Q) (sorted tied_batch) = ["ETH"; "BTC"; "BTC"; "BTC"]%string.
Proof. split; reflexivity. Qed.

(** On [tied_batch] the order shows: processed as listed, the sale is
    matched before the ETH lot is bought and no lot is evicted; processed
    by [calculate_taxes], the ETH lot comes first and is evicted, and of the
    three transactions of the second day the sale is matched with the
    purchase listed before it and leaves the one listed after it alone. *)
Lemma calculate_taxes_processes_in_stable_date_order_witness :
  map (@Transaction.symbol Q) (sorted tied_batch) = ["ETH"; "BTC"; "BTC"; "BTC"]%string
  /\ map (fun tx => (Transaction.type tx, Transaction.amount tx)) (sorted tied_batch)
     = [("buy", 1); ("buy", 1); ("sell", 1); ("buy", 2)]%string%Q
  /\ calculate_taxes fresh tied_batch = Some (_generate_summary tied_engine, tied_engine)
  /\ processed_in_order fresh (sorted tied_batch) tied_engine
  /\ option_map (fun st => (List.length (lots st), errors st)) (process_all fresh tied_batch)
     = Some (2%nat, []).
Proof.
  assert (Hrun : calculate_taxes fresh tied_batch
                 = Some (_generate_summary tied_engine, tied_engine))
    by (vm_compute; reflexivity).
  split; [reflexivity|]. split; [reflexivity|]. split; [exact Hrun|].
  split; [|vm_compute; reflexivity].
  destruct (calculate_taxes_processes_in_stable_date_order fresh tied_batch)
    as (_ & _ & _ & _ & _ & Hiff & _).
  exact (proj1 (proj1 (Hiff (_generate_summary tied_engine) tied_engine) Hrun)).
Defined.


Lemma nsum_perm (l1 l2 : list Q) : Permutation l1 l2 -> (nsum l1 == nsum l2)%Q.
Proof.
  induction 1 as [|x l1 l2 _ IH|x y l|l1 l2 l3 _ IH1 _ IH2].
  - reflexivity.
  - rewrite !nsum_cons, IH. reflexivity.
  - rewrite !nsum_cons. ring.
  - rewrite IH1. exact IH2.
Qed.

(** The ledger a batch of buys leaves behind holds, in total, what was
    bought; it is the summary that does not show it. *)
Lemma buys_only_ledger_total (st : FIFOTaxCalculator Q) (txs : list (Transaction.t Q)) :
  forallb is_buy txs = true ->
  exists st',
    calculate_taxes st txs = Some (empty_summary [], st')
    /\ capital_gains st' = [] /\ errors st' = []
    /\ (nsum (map (@TaxLot.amount Q) (lots st')) ==
        nsum (map (@Transaction.amount Q) txs))%Q.
Proof.
  intros Hall. eexists. split; [apply buys_only_run; exact Hall|].
  split; [reflexivity|]. split; [reflexivity|].
  cbn [lots]. rewrite map_map. unfold lot_of_buy. cbn [TaxLot.init TaxLot.amount].
  apply nsum_perm. apply Permutation_map. symmetry. apply sorted_perm.
Qed.

(** C1 at the batch of [test_simple_buy]: the summary reports a total of
    [0] and no errors, the ledger holds the lot that was bought, and the
    summary has no [remaining_lots] entry (nor [capital_gains],
    [num_short_term], [num_long_term]) to show it. *)
Theorem buys_only_summary_omits_open_lots :
  exists s st',
    calculate_taxes fresh [simple_buy] = Some (s, st')
    /\ Summary.total_gain_loss s = 0%Q
    /\ Summary.errors s = []
    /\ lots st' = [TaxLot.mk (ymd 2024 1 1) 1%Q 1%Q 50000%Q "BTC" 50000%Q]
    /\ Summary.remaining_lots s = None
    /\ Summary.capital_gains s = None
    /\ Summary.num_short_term s = None
    /\ Summary.num_long_term s = None.
Proof.
  eexists _, _. split; [vm_compute; reflexivity|].
  repeat split; reflexivity.
Qed.

(** *** Short and long term *)

Section Terms.
Context {num : Type} `{Number num}.

Lemma gain_of_term (tx : Transaction.t num) (lot : TaxLot.t num) (m : num) :
  term_matches_holding_days (gain_of tx lot m).
Proof.
  unfold term_matches_holding_days, gain_of. simpl.
  destruct (365 <? days_between (Transaction.date tx) (TaxLot.date lot)) eqn:E.
  - apply Z.ltb_lt in E. repeat split; intros; try easy; lia.
  - apply Z.ltb_ge in E. repeat split; intros; try easy; lia.
Qed.

Lemma sell_body_terms (tx : Transaction.t num) (st : FIFOTaxCalculator num) (r : num) :
  Forall term_matches_holding_days (capital_gains st) ->
  match sell_body tx st r with
  | Break st' => Forall term_matches_holding_days (capital_gains st')
  | Next st' _ => Forall term_matches_holding_days (capital_gains st')
  end.
Proof.
  intros Hst. unfold sell_body. destruct (lots st) as [|lot rest]; [assumption|].
  destruct (negb (TaxLot.symbol lot =? Transaction.symbol tx)%string); [assumption|].
  simpl. apply Forall_app. split; [assumption|].
  constructor; [apply gain_of_term|constructor].
Qed.

Lemma process_transaction_terms (st st' : FIFOTaxCalculator num) (tx : Transaction.t num) :
  Forall term_matches_holding_days (capital_gains st) ->
  process_transaction st tx = Some st' ->
  Forall term_matches_holding_days (capital_gains st').
Proof.
  intros Hst. unfold process_transaction.
  destruct (Transaction.type tx =? "buy")%string.
  { intros [= <-]. exact Hst. }
  destruct (Transaction.type tx =? "sell")%string.
  - unfold _process_sell. intros Hrun.
    eapply (sell_loop_invariant
              (fun e => Forall term_matches_holding_days (capital_gains e)) tx
              (sell_body_terms tx)); [exact Hst|exact Hrun].
  - intros [= <-]. exact Hst.
Qed.

(** C6.  Every gain a run produces is [long] exactly when its holding
    period, the whole days from purchase date to sale date, exceeds 365,
    and [short] otherwise: 365 days is short, 366 days is long. *)
Theorem term_is_long_iff_more_than_365_days
    (st st' : FIFOTaxCalculator num) (txs : list (Transaction.t num))
    (s : Summary.t num) :
  calculate_taxes st txs = Some (s, st') ->
  Forall term_matches_holding_days (capital_gains st')
  /\ (forall gs, Summary.capital_gains s = Some gs -> gs = capital_gains st')
  /\ (forall g, In g (capital_gains st') ->
        (CapitalGain.holding_days g = 365 -> CapitalGain.term g = short)
        /\ (CapitalGain.holding_days g = 366 -> CapitalGain.term g = long)).
Proof.
  rewrite calculate_taxes_from_fresh.
  destruct (process_all fresh (sorted txs)) as [st1|] eqn:Erun; [|discriminate].
  intros [= <- <-].
  assert (Hall : Forall term_matches_holding_days (capital_gains st1)).
  { eapply (process_all_invariant
              (fun e => Forall term_matches_holding_days (capital_gains e)));
      [| |exact Erun]; [|constructor].
    intros e tx e'. apply process_transaction_terms. }
  split; [exact Hall|]. split.
  - intros gs. unfold _generate_summary.
    destruct (capital_gains st1); simpl; [discriminate|]. intros [= <-]. reflexivity.
  - intros g Hin. rewrite Forall_forall in Hall.
    destruct (Hall g Hin) as (Hlong & Hshort & _). split; intros Hd.
    + apply Hshort. lia.
    + apply Hlong. lia.
Qed.

End Terms.

Lemma term_is_long_iff_more_than_365_days_witness :
  exists s st',
    calculate_taxes fresh boundary_batch = Some (s, st')
    /\ map (fun g => (CapitalGain.holding_days g, CapitalGain.term g)) (capital_gains st')
       = [(365, short); (366, long)]
    /\ Forall term_matches_holding_days (capital_gains st').
Proof.
  destruct (calculate_taxes fresh boundary_batch) as [[s st']|] eqn:Erun;
    [|vm_compute in Erun; discriminate Erun].
  exists s, st'. split; [reflexivity|]. split.
  - vm_compute in Erun. injection Erun as _ <-. reflexivity.
  - exact (proj1 (term_is_long_iff_more_than_365_days fresh st' boundary_batch s Erun)).
Defined.

(** *** Fees *)

Section Fees.
Context {num : Type} `{Number num}.

Lemma sell_body_fee (a b : Transaction.t num) (st : FIFOTaxCalculator num) (r : num) :
  same_but_fee a b -> sell_body a st r = sell_body b st r.
Proof.
  destruct a, b. unfold same_but_fee. simpl.
  intros (-> & -> & -> & -> & -> & ->). reflexivity.
Qed.

Lemma sell_loop_fee (a b : Transaction.t num) :
  same_but_fee a b ->
  forall fuel st r, sell_loop fuel a st r = sell_loop fuel b st r.
Proof.
  intros Hab. induction fuel as [|n IH]; intros st r; simpl; [reflexivity|].
  rewrite (sell_body_fee a b st r Hab).
  destruct (ngtb r neps); [|reflexivity].
  destruct (sell_body b st r); [reflexivity|apply IH].
Qed.

Lemma process_transaction_fee (a b : Transaction.t num) (st : FIFOTaxCalculator num) :
  same_but_fee a b -> process_transaction st a = process_transaction st b.
Proof.
  intros Hab. pose proof (sell_loop_fee a b Hab) as Hloop.
  destruct Hab as (Hd & Hty & Hsy & Ham & Hpr & _).
  unfold process_transaction, _process_sell, _process_buy.
  rewrite Hty, Hd, Ham, Hpr, Hsy, Hloop. reflexivity.
Qed.

Lemma process_all_fee (l1 l2 : list (Transaction.t num)) :
  Forall2 same_but_fee l1 l2 ->
  forall st, process_all st l1 = process_all st l2.
Proof.
  induction 1 as [|a b l1 l2 Hab _ IH]; intros st; simpl; [reflexivity|].
  rewrite (process_transaction_fee a b st Hab).
  destruct (process_transaction st b); [apply IH|reflexivity].
Qed.

Lemma insert_by_date_fee (a b : Transaction.t num) (l1 l2 : list (Transaction.t num)) :
  same_but_fee a b -> Forall2 same_but_fee l1 l2 ->
  Forall2 same_but_fee (insert_by_date a l1) (insert_by_date b l2).
Proof.
  intros Hab Hl. induction Hl as [|x y l1 l2 Hxy Hl IH]; simpl.
  - constructor; [exact Hab|constructor].
  - destruct Hab as (Hd & Hrest). destruct Hxy as (Hd' & Hrest').
    rewrite Hd, Hd'.
    destruct (Transaction.date b <=? Transaction.date y).
    + repeat (constructor; [split; assumption|]). exact Hl.
    + constructor; [split; assumption|]. exact IH.
Qed.

Lemma sorted_fee (l1 l2 : list (Transaction.t num)) :
  Forall2 same_but_fee l1 l2 -> Forall2 same_but_fee (sorted l1) (sorted l2).
Proof.
  induction 1 as [|a b l1 l2 Hab _ IH]; simpl; [constructor|].
  apply insert_by_date_fee; assumption.
Qed.

(** C10.  Two batches that differ in [fee_usd] only give the same result:
    the same summary (totals, counts, gains, open lots, anomalies) and the
    same final ledger. *)
Theorem fees_do_not_affect_result
    (st : FIFOTaxCalculator num) (txs1 txs2 : list (Transaction.t num)) :
  Forall2 same_but_fee txs1 txs2 ->
  calculate_taxes st txs1 = calculate_taxes st txs2.
Proof.
  intros Hfee. rewrite !calculate_taxes_from_fresh.
  rewrite (process_all_fee _ _ (sorted_fee _ _ Hfee)). reflexivity.
Qed.

End Fees.

Lemma fees_do_not_affect_result_witness :
  Forall2 same_but_fee split_batch split_batch_no_fees
  /\ calculate_taxes fresh split_batch = calculate_taxes fresh split_batch_no_fees.
Proof.
  assert (Hfee : Forall2 same_but_fee split_batch split_batch_no_fees).
  { repeat constructor. }
  split; [exact Hfee|].
  exact (fees_do_not_affect_result fresh _ _ Hfee).
Defined.

(** *** Termination of the matching loop *)

(** A pass through the loop body that does not [break] either shortens the
    ledger or leaves nothing to sell. *)
Lemma sell_body_progress (tx : Transaction.t Q) (st : FIFOTaxCalculator Q) (r : Q) :
  match sell_body tx st r with
  | Break _ => lots st = []
  | Next st' r' =>
      (List.length (lots st') < List.length (lots st))%nat
      \/ (r' = 0%Q /\ List.length (lots st') = List.length (lots st))
  end.
Proof.
  unfold sell_body. destruct (lots st) as [|lot rest]; [reflexivity|].
  destruct (negb (TaxLot.symbol lot =? Transaction.symbol tx)%string).
  { left. simpl. lia. }
  unfold nmin. destruct (nltb (TaxLot.amount lot) r) eqn:Emin.
  - left. cbn [TaxLot.take TaxLot.amount lots].
    rewrite nsub_diag. simpl. lia.
  - cbn [TaxLot.take TaxLot.amount lots]. rewrite nsub_diag.
    destruct (nltb (nsub (TaxLot.amount lot) r) neps); [left|right]; simpl; [lia|].
    split; reflexivity.
Qed.

Lemma sell_loop_terminates (tx : Transaction.t Q) (n : nat) :
  forall (st : FIFOTaxCalculator Q) (r : Q),
    (List.length (lots st) <= n)%nat ->
    exists st', sell_loop (S n) tx st r = Some st'.
Proof.
  induction n as [|n IH]; intros st r Hlen.
  - destruct (ngtb r neps) eqn:Hg.
    + rewrite sell_loop_step by exact Hg.
      pose proof (sell_body_progress tx st r) as Hp.
      destruct (sell_body tx st r) as [sb|sb rb]; [eexists; reflexivity|].
      destruct Hp as [Hp|[-> _]]; [lia|].
      exists sb. apply sell_loop_done. reflexivity.
    + exists st. apply sell_loop_done. exact Hg.
  - destruct (ngtb r neps) eqn:Hg.
    + rewrite sell_loop_step by exact Hg.
      pose proof (sell_body_progress tx st r) as Hp.
      destruct (sell_body tx st r) as [sb|sb rb]; [eexists; reflexivity|].
      destruct Hp as [Hp|[-> _]].
      * apply IH. lia.
      * exists sb. apply sell_loop_done. reflexivity.
    + exists st. apply sell_loop_done. exact Hg.
Qed.

Lemma process_transaction_terminates (st : FIFOTaxCalculator Q) (tx : Transaction.t Q) :
  exists st', process_transaction st tx = Some st'.
Proof.
  unfold process_transaction.
  destruct (Transaction.type tx =? "buy")%string; [eexists; reflexivity|].
  destruct (Transaction.type tx =? "sell")%string; [|eexists; reflexivity].
  apply sell_loop_terminates. lia.
Qed.

Lemma process_all_terminates (txs : list (Transaction.t Q)) :
  forall st : FIFOTaxCalculator Q, exists st', process_all st txs = Some st'.
Proof.
  induction txs as [|tx txs IH]; intros st; simpl; [eexists; reflexivity|].
  destruct (process_transaction_terminates st tx) as [st1 ->]. apply IH.
Qed.

(** The loop of [_process_sell] never needs more passes than it is given:
    with any larger bound it ends in the same state. *)
Lemma sell_loop_enough (tx : Transaction.t Q) (st : FIFOTaxCalculator Q) (fuel : nat) :
  (S (List.length (lots st)) <= fuel)%nat ->
  sell_loop fuel tx st (Transaction.amount tx) = _process_sell st tx.
Proof.
  intros Hfuel. unfold _process_sell.
  destruct (sell_loop_terminates tx (List.length (lots st)) st (Transaction.amount tx))
    as [st' Hrun]; [lia|].
  rewrite Hrun. eapply sell_loop_fuel_mono; [exact Hfuel|exact Hrun].
Qed.

(** **** binary64

    On doubles [x - x] is [0] for a number and NaN for an infinity or a
    NaN, and every comparison with NaN is false. *)

Section Binary64.
#[local] Existing Instance binary64.

Lemma neps_binary64 :
  FloatOps.Prim2SF neps = SpecFloat.S754_finite false 6044629098073146 (-79).
Proof. vm_compute. reflexivity. Qed.

(** The tolerance of the exact model is the value of that double. *)
Lemma neps_Fraction : (neps == 6044629098073146 * inject_Z 2 ^ (-79))%Q.
Proof. vm_compute. reflexivity. Qed.

Lemma sub_diag_binary64 (x : float) :
  FloatOps.Prim2SF (x - x) =
  match FloatOps.Prim2SF x with
  | SpecFloat.S754_zero _ | SpecFloat.S754_finite _ _ _ => SpecFloat.S754_zero false
  | _ => SpecFloat.S754_nan
  end.
Proof.
  rewrite FloatAxioms.sub_spec. unfold FloatAxioms.SF64sub.
  destruct (FloatOps.Prim2SF x) as [s|s| |s m e]; simpl.
  - destruct s; reflexivity.
  - destruct s; reflexivity.
  - reflexivity.
  - rewrite Z.sub_diag. reflexivity.
Qed.

Lemma nothing_left_binary64 (x : float) : ngtb (x - x)%float neps = false.
Proof.
  unfold ngtb. cbn [nltb binary64].
  rewrite FloatAxioms.ltb_spec, neps_binary64, sub_diag_binary64.
  destruct (FloatOps.Prim2SF x) as [s|s| |s m e]; reflexivity.
Qed.

Lemma used_up_binary64 (x : float) :
  match FloatOps.Prim2SF x with
  | SpecFloat.S754_zero _ | SpecFloat.S754_finite _ _ _ => True
  | _ => False
  end ->
  nltb (x - x)%float neps = true.
Proof.
  cbn [nltb binary64].
  rewrite FloatAxioms.ltb_spec, neps_binary64, sub_diag_binary64.
  destruct (FloatOps.Prim2SF x) as [s|s| |s m e]; intros Hx; try contradiction; reflexivity.
Qed.

(** A lot smaller than what is left to sell is used up, unless it holds
    [-inf]: then the lot is left with NaN and [+inf] is left to sell, and
    the next pass leaves NaN to sell.  Any other lot leaves [r - r] to
    sell. *)
Lemma binary64_ends_within_two_passes : ends_within_two_passes float.
Proof.
  intros r a Hg m a' r'. subst a' r' m. unfold nmin.
  cbn [nltb nsub binary64].
  destruct (a <? r)%float eqn:Ear.
  - destruct (FloatOps.Prim2SF a) as [s|s| |s m e] eqn:Ea.
    + left. apply used_up_binary64. rewrite Ea. exact I.
    + right. right.
      assert (Hnan : ((a - a) <? (r - a))%float = false).
      { rewrite FloatAxioms.ltb_spec, sub_diag_binary64, Ea. reflexivity. }
      rewrite Hnan. apply nothing_left_binary64.
    + rewrite FloatAxioms.ltb_spec, Ea in Ear. discriminate Ear.
    + left. apply used_up_binary64. rewrite Ea. exact I.
  - right. left. apply nothing_left_binary64.
Qed.

Lemma is_finite_binary64 (x : float) :
  PrimFloat.is_finite x = true ->
  match FloatOps.Prim2SF x with
  | SpecFloat.S754_zero _ | SpecFloat.S754_finite _ _ _ => True
  | _ => False
  end.
Proof.
  unfold is_finite, is_nan, is_infinity.
  rewrite !FloatAxioms.eqb_spec, FloatAxioms.abs_spec.
  destruct (FloatOps.Prim2SF x) as [s|s| |s m e]; try (intros _; exact I).
  - destruct s; vm_compute; discriminate.
  - vm_compute. discriminate.
Qed.

(** With numbers in the ledger and a number left to sell, a pass lowers
    what is left to sell or shortens the ledger. *)
Lemma sell_body_progress_binary64 (tx : Transaction.t float)
    (st : FIFOTaxCalculator float) (r : float) :
  ngtb r neps = true ->
  PrimFloat.is_finite r = true ->
  finite_amounts st ->
  match sell_body tx st r with
  | Break _ => lots st = []
  | Next st' r' =>
      (r' <? r)%float = true
      \/ (List.length (lots st') < List.length (lots st))%nat
  end.
Proof.
  intros Hg Hr Hst. unfold sell_body.
  destruct (lots st) as [|lot rest] eqn:Elots; [reflexivity|].
  destruct (negb (TaxLot.symbol lot =? Transaction.symbol tx)%string).
  { right. simpl. lia. }
  unfold finite_amounts in Hst. rewrite Elots in Hst.
  inversion Hst as [|? ? Hlot _]; subst.
  unfold nmin. cbn [TaxLot.take TaxLot.amount].
  destruct (nltb (TaxLot.amount lot) r).
  - right. change (nsub (TaxLot.amount lot) (TaxLot.amount lot))
      with (TaxLot.amount lot - TaxLot.amount lot)%float.
    rewrite (used_up_binary64 (TaxLot.amount lot) (is_finite_binary64 _ Hlot)).
    simpl. lia.
  - left. change (nsub r r) with (r - r)%float. apply is_finite_binary64 in Hr.
    unfold ngtb in Hg. cbn [nltb binary64] in Hg.
    rewrite FloatAxioms.ltb_spec, neps_binary64 in Hg.
    rewrite FloatAxioms.ltb_spec, sub_diag_binary64.
    destruct (FloatOps.Prim2SF r) as [s|s| |s m e]; try contradiction.
    + discriminate Hg.
    + destruct s; [discriminate Hg|reflexivity].
Qed.

End Binary64.

(** C9.  [calculate_taxes] returns on every batch, in exact arithmetic and
    on doubles.  A pass through the body of the matching loop ends the loop
    (at [break], on an empty ledger), or strictly lowers the remaining
    amount, or strictly shortens the ledger: in exact arithmetic always, on
    doubles whenever the amounts involved are numbers.  With an infinity or
    a NaN among them a pass can leave both as they were, but then the pass
    after it leaves nothing to sell.  The loop therefore ends within one
    pass more than there are lots, and a larger bound on the passes changes
    nothing. *)
Theorem calculate_taxes_terminates :
  (forall (st : FIFOTaxCalculator Q) (txs : list (Transaction.t Q)),
      exists s st', calculate_taxes st txs = Some (s, st'))
  /\ (forall (tx : Transaction.t Q) (st : FIFOTaxCalculator Q) (r : Q),
        ngtb r neps = true ->
        match sell_body tx st r with
        | Break _ => lots st = []
        | Next st' r' =>
            (r' < r)%Q \/ (List.length (lots st') < List.length (lots st))%nat
        end)
  /\ (forall (tx : Transaction.t Q) (st : FIFOTaxCalculator Q) (fuel : nat),
        (S (List.length (lots st)) <= fuel)%nat ->
        exists st', _process_sell st tx = Some st'
                    /\ sell_loop fuel tx st (Transaction.amount tx) = Some st')
  /\ (forall (st : FIFOTaxCalculator float) (txs : list (Transaction.t float)),
        exists s st', calculate_taxes (H := binary64) st txs = Some (s, st'))
  /\ (forall (tx : Transaction.t float) (st : FIFOTaxCalculator float) (r : float),
        ngtb (H := binary64) r (@neps float binary64) = true ->
        PrimFloat.is_finite r = true ->
        finite_amounts st ->
        match sell_body (H := binary64) tx st r with
        | Break _ => lots st = []
        | Next st' r' =>
            (r' <? r)%float = true
            \/ (List.length (lots st') < List.length (lots st))%nat
        end)
  /\ @ends_within_two_passes float binary64
  /\ (forall (tx : Transaction.t float) (st : FIFOTaxCalculator float) (fuel : nat),
        (S (List.length (lots st)) <= fuel)%nat ->
        exists st', _process_sell (H := binary64) st tx = Some st'
                    /\ sell_loop (H := binary64) fuel tx st (Transaction.amount tx)
                       = Some st').
Proof.
  split; [|split; [|split; [|split; [|split; [|split]]]]].
  - intros st txs. rewrite calculate_taxes_from_fresh.
    destruct (process_all_terminates (sorted txs) fresh) as [st' ->].
    eexists _, _. reflexivity.
  - intros tx st r Hg. pose proof (sell_body_progress tx st r) as Hp.
    destruct (sell_body tx st r) as [sb|sb rb]; [exact Hp|].
    destruct Hp as [Hp|[-> _]]; [right; exact Hp|left].
    apply Qltb_lt in Hg. pose proof neps_pos. lra.
  - intros tx st fuel Hfuel.
    destruct (sell_loop_terminates tx (List.length (lots st)) st (Transaction.amount tx))
      as [st' Hrun]; [lia|].
    exists st'. split; [exact Hrun|].
    rewrite sell_loop_enough by exact Hfuel. exact Hrun.
  - apply (calculate_taxes_returns binary64_ends_within_two_passes).
  - apply sell_body_progress_binary64.
  - exact binary64_ends_within_two_passes.
  - apply (sell_loop_fuel_enough binary64_ends_within_two_passes).
Qed.

(** *** No state is carried from one run to the next *)

(** C8.  [calculate_taxes] starts from empty [lots], [capital_gains] and
    [errors] whatever state the engine is in, so its result does not
    depend on that state; run a second time on the same batch, on the
    engine the first run left behind, it returns the same summary and
    leaves the same state. *)
Theorem calculate_taxes_idempotent :
  (forall (num : Type) (N : Number num) (st other : FIFOTaxCalculator num)
          (txs : list (Transaction.t num)),
      calculate_taxes other txs = calculate_taxes st txs
      /\ calculate_taxes st txs =
           option_map (fun st' => (_generate_summary st', st'))
                      (process_all (mkEngine [] [] []) (sorted txs)))
  /\ (forall (st : FIFOTaxCalculator Q) (txs : list (Transaction.t Q)),
        exists s st1,
          calculate_taxes st txs = Some (s, st1)
          /\ calculate_taxes st1 txs = Some (s, st1)).
Proof.
  split.
  - intros num N st other txs.
    rewrite !calculate_taxes_from_fresh. split; reflexivity.
  - intros st txs.
    destruct (process_all_terminates (sorted txs) fresh) as [st1 Hrun].
    exists (_generate_summary st1), st1.
    rewrite !calculate_taxes_from_fresh, Hrun. split; reflexivity.
Qed.

(** *** Conservation of amounts *)

Lemma held_cons (s : string) (lot : TaxLot.t Q) (l : list (TaxLot.t Q)) :
  (held s (lot :: l) == share s (TaxLot.symbol lot) (TaxLot.amount lot) + held s l)%Q.
Proof.
  unfold held, lots_of, share. simpl filter.
  destruct (TaxLot.symbol lot =? s)%string; simpl map.
  - apply nsum_cons.
  - ring.
Qed.

Lemma held_nil (s : string) : held s (@nil (TaxLot.t Q)) = 0%Q.
Proof. reflexivity. Qed.

Lemma held_app (s : string) (l1 l2 : list (TaxLot.t Q)) :
  (held s (l1 ++ l2) == held s l1 + held s l2)%Q.
Proof.
  unfold held, lots_of. rewrite filter_app, map_app. apply nsum_app.
Qed.

Lemma originally_app (s : string) (l1 l2 : list (TaxLot.t Q)) :
  (originally s (l1 ++ l2) == originally s l1 + originally s l2)%Q.
Proof.
  unfold originally, lots_of. rewrite filter_app, map_app. apply nsum_app.
Qed.

Lemma originally_buy (s : string) (tx : Transaction.t Q) :
  (originally s [lot_of_buy tx] == share s (Transaction.symbol tx) (Transaction.amount tx))%Q.
Proof.
  unfold originally, lots_of, share, lot_of_buy. simpl filter.
  destruct (Transaction.symbol tx =? s)%string; simpl map.
  - rewrite nsum_cons, nsum_nil. ring.
  - rewrite nsum_nil. reflexivity.
Qed.

Lemma matched_snoc (s : string) (l : list (CapitalGain.t Q)) (g : CapitalGain.t Q) :
  (matched s (l ++ [g]) ==
   matched s l + share s (CapitalGain.symbol g) (CapitalGain.amount g))%Q.
Proof.
  unfold matched, share. rewrite filter_app, map_app, nsum_app. simpl filter.
  destruct (CapitalGain.symbol g =? s)%string; simpl map.
  - rewrite nsum_cons, nsum_nil. ring.
  - rewrite nsum_nil. ring.
Qed.

Lemma accounted_app (s : string) (st : FIFOTaxCalculator Q) (d1 d2 : list (drop Q)) :
  (accounted s st (d1 ++ d2) ==
   accounted s st d2 + held s (evicted_lots d1) + held s (residue_lots d1))%Q.
Proof.
  unfold accounted, evicted_lots, residue_lots.
  rewrite !flat_map_app, !held_app. ring.
Qed.

Lemma accounted_nil (s : string) (st : FIFOTaxCalculator Q) :
  (accounted s st [] == matched s (capital_gains st) + held s (lots st))%Q.
Proof. unfold accounted. simpl. rewrite held_nil. ring. Qed.

Lemma share_split (s sym : string) (a m : Q) :
  (share s sym a == share s sym m + share s sym (Qred (a - m)))%Q.
Proof.
  unfold share. destruct (sym =? s)%string; [rewrite Qred_correct|]; ring.
Qed.

(** One pass through the loop body moves amounts between the ledger, the
    gains and the drop log, and loses none. *)
Lemma sell_body_conserves (s : string) (tx : Transaction.t Q)
    (st : FIFOTaxCalculator Q) (r : Q) :
  match sell_body tx st r with
  | Break st' | Next st' _ =>
      (accounted s st' (dropped_by tx st r) == accounted s st [])%Q
  end.
Proof.
  unfold sell_body, dropped_by.
  destruct (lots st) as [|lot rest] eqn:Elots.
  { unfold accounted. simpl. rewrite Elots. reflexivity. }
  destruct (TaxLot.symbol lot =? Transaction.symbol tx)%string eqn:Esym; simpl negb; cbv iota.
  - apply String.eqb_eq in Esym.
    set (m := nmin r (TaxLot.amount lot)).
    unfold accounted. cbn [capital_gains lots]. rewrite Elots.
    rewrite matched_snoc, held_cons.
    change (CapitalGain.symbol (gain_of tx lot m)) with (Transaction.symbol tx).
    change (CapitalGain.amount (gain_of tx lot m)) with m.
    rewrite (share_split s (TaxLot.symbol lot) (TaxLot.amount lot) m), Esym.
    destruct (nltb (TaxLot.amount (TaxLot.take m lot)) neps); simpl evicted_lots;
      simpl residue_lots; rewrite ?held_cons, ?held_nil;
      change (TaxLot.symbol (TaxLot.take m lot)) with (TaxLot.symbol lot);
      change (TaxLot.amount (TaxLot.take m lot)) with (Qred (TaxLot.amount lot - m));
      rewrite Esym; ring.
  - unfold accounted. cbn [capital_gains lots]. rewrite Elots. simpl evicted_lots.
    simpl residue_lots. rewrite !held_cons, !held_nil. ring.
Qed.

Lemma sell_loop_conserves (s : string) (tx : Transaction.t Q) (fuel : nat) :
  forall (st st' : FIFOTaxCalculator Q) (r : Q),
    sell_loop fuel tx st r = Some st' ->
    (accounted s st' (sell_loop_drops fuel tx st r) == accounted s st [])%Q.
Proof.
  induction fuel as [|n IH]; intros st st' r Hrun;
    destruct (ngtb r neps) eqn:Hg;
    try (rewrite sell_loop_done in Hrun by exact Hg; injection Hrun as <-;
         rewrite sell_loop_drops_done by exact Hg; reflexivity).
  - cbn [sell_loop] in Hrun. rewrite Hg in Hrun. discriminate Hrun.
  - rewrite sell_loop_step in Hrun by exact Hg.
    rewrite sell_loop_drops_step by exact Hg.
    pose proof (sell_body_conserves s tx st r) as Hbody.
    destruct (sell_body tx st r) as [sb|sb rb].
    + injection Hrun as <-. rewrite app_nil_r. exact Hbody.
    + rewrite accounted_app, (IH sb st' rb Hrun), (accounted_nil s sb).
      rewrite <- Hbody. unfold accounted. ring.
Qed.

Lemma accounted_split (s : string) (st : FIFOTaxCalculator Q) (ds : list (drop Q)) :
  (accounted s st ds ==
   accounted s st [] + held s (evicted_lots ds) + held s (residue_lots ds))%Q.
Proof. unfold accounted. simpl. rewrite held_nil. ring. Qed.

Lemma process_transaction_conserves (s : string) (st st' : FIFOTaxCalculator Q)
    (tx : Transaction.t Q) :
  process_transaction st tx = Some st' ->
  (accounted s st' (transaction_drops st tx) ==
   accounted s st [] + originally s (map lot_of_buy (filter is_buy [tx])))%Q.
Proof.
  unfold process_transaction, transaction_drops. simpl filter. unfold is_buy.
  destruct (Transaction.type tx =? "buy")%string eqn:Ebuy.
  - apply String.eqb_eq in Ebuy. rewrite Ebuy. simpl String.eqb. cbv iota.
    intros [= <-]. simpl map. rewrite originally_buy.
    unfold accounted, _process_buy. cbn [capital_gains lots].
    rewrite held_app. fold (lot_of_buy tx). rewrite held_cons, held_nil.
    simpl evicted_lots. simpl residue_lots. rewrite held_nil.
    unfold lot_of_buy. simpl TaxLot.symbol. simpl TaxLot.amount. ring.
  - simpl map. change (originally s []) with (nsum (@nil Q)). rewrite nsum_nil.
    destruct (Transaction.type tx =? "sell")%string.
    + unfold _process_sell. intros Hrun.
      rewrite (sell_loop_conserves s tx _ st st' _ Hrun). ring.
    + intros [= <-]. unfold accounted. cbn [capital_gains lots]. ring.
Qed.

Lemma drops_from_conserves (s : string) (txs : list (Transaction.t Q)) :
  forall st st' : FIFOTaxCalculator Q,
    process_all st txs = Some st' ->
    (accounted s st' (drops_from st txs) ==
     accounted s st [] + originally s (map lot_of_buy (filter is_buy txs)))%Q.
Proof.
  induction txs as [|tx txs IH]; intros st st' Hrun; simpl in Hrun.
  - injection Hrun as <-. simpl. change (originally s []) with (nsum (@nil Q)).
    rewrite nsum_nil. ring.
  - cbn [drops_from].
    destruct (process_transaction st tx) as [st1|] eqn:Etx; [|discriminate].
    change (tx :: txs) with ([tx] ++ txs).
    rewrite filter_app, map_app, originally_app.
    rewrite accounted_app, (IH st1 st' Hrun).
    pose proof (process_transaction_conserves s st st1 tx Etx) as Hstep.
    rewrite (accounted_split s st1 (transaction_drops st tx)) in Hstep. lra.
Qed.

Section DropLog.
Context {num : Type} `{Number num}.

Lemma dropped_by_small (tx : Transaction.t num) (st : FIFOTaxCalculator num) (r : num) :
  Forall residue_small (dropped_by tx st r).
Proof.
  unfold dropped_by. destruct (lots st) as [|lot rest]; [constructor|].
  destruct (negb (TaxLot.symbol lot =? Transaction.symbol tx)%string).
  { repeat constructor. }
  destruct (nltb (TaxLot.amount (TaxLot.take (nmin r (TaxLot.amount lot)) lot)) neps) eqn:E;
    repeat constructor. exact E.
Qed.

Lemma sell_loop_drops_small (tx : Transaction.t num) (fuel : nat) :
  forall (st : FIFOTaxCalculator num) (r : num),
    Forall residue_small (sell_loop_drops fuel tx st r).
Proof.
  induction fuel as [|n IH]; intros st r; simpl;
    destruct (ngtb r neps); try constructor.
  apply Forall_app. split; [apply dropped_by_small|].
  destruct (sell_body tx st r); [constructor|apply IH].
Qed.

Lemma drops_from_small (txs : list (Transaction.t num)) :
  forall st : FIFOTaxCalculator num, Forall residue_small (drops_from st txs).
Proof.
  induction txs as [|tx txs IH]; intros st; simpl; [constructor|].
  apply Forall_app. split.
  - unfold transaction_drops.
    destruct (Transaction.type tx =? "sell")%string;
      [apply sell_loop_drops_small|constructor].
  - destruct (process_transaction st tx); [apply IH|constructor].
Qed.

(** The log misses no removal: a pass through the loop body shortens the
    ledger by exactly the lots it logs. *)
Lemma sell_body_logs_removals (tx : Transaction.t num) (st : FIFOTaxCalculator num)
    (r : num) :
  match sell_body tx st r with
  | Break st' | Next st' _ =>
      List.length (lots st) =
      (List.length (lots st') + List.length (dropped_by tx st r))%nat
  end.
Proof.
  unfold sell_body, dropped_by. destruct (lots st) as [|lot rest]; [reflexivity|].
  destruct (negb (TaxLot.symbol lot =? Transaction.symbol tx)%string).
  { simpl. lia. }
  cbn [lots].
  destruct (nltb (TaxLot.amount (TaxLot.take (nmin r (TaxLot.amount lot)) lot)) neps);
    simpl; lia.
Qed.

Lemma sell_loop_logs_removals (tx : Transaction.t num) (fuel : nat) :
  forall (st st' : FIFOTaxCalculator num) (r : num),
    sell_loop fuel tx st r = Some st' ->
    List.length (lots st) =
    (List.length (lots st') + List.length (sell_loop_drops fuel tx st r))%nat.
Proof.
  induction fuel as [|n IH]; intros st st' r Hrun;
    destruct (ngtb r neps) eqn:Hg;
    try (rewrite sell_loop_done in Hrun by exact Hg; injection Hrun as <-;
         rewrite sell_loop_drops_done by exact Hg; simpl; lia).
  - cbn [sell_loop] in Hrun. rewrite Hg in Hrun. discriminate Hrun.
  - rewrite sell_loop_step in Hrun by exact Hg.
    rewrite sell_loop_drops_step by exact Hg.
    pose proof (sell_body_logs_removals tx st r) as Hbody.
    rewrite length_app.
    destruct (sell_body tx st r) as [sb|sb rb].
    + injection Hrun as <-. simpl. lia.
    + pose proof (IH sb st' rb Hrun). lia.
Qed.

Lemma drops_from_logs_removals (txs : list (Transaction.t num)) :
  forall st st' : FIFOTaxCalculator num,
    process_all st txs = Some st' ->
    (List.length (lots st) + List.length (filter is_buy txs))%nat =
    (List.length (lots st') + List.length (drops_from st txs))%nat.
Proof.
  induction txs as [|tx txs IH]; intros st st' Hrun; simpl in Hrun.
  - injection Hrun as <-. simpl. lia.
  - cbn [drops_from filter].
    destruct (process_transaction st tx) as [st1|] eqn:Etx; [|discriminate].
    rewrite length_app. specialize (IH st1 st' Hrun). clear Hrun.
    unfold process_transaction, transaction_drops, is_buy in *.
    destruct (Transaction.type tx =? "buy")%string eqn:Ebuy.
    + apply String.eqb_eq in Ebuy. rewrite Ebuy. simpl String.eqb. cbv iota.
      injection Etx as <-.
      assert (Hlen : List.length (lots (_process_buy st tx)) = S (List.length (lots st)))
        by (unfold _process_buy; cbn [lots]; rewrite length_app; simpl; lia).
      rewrite Hlen in IH. cbn [List.length app]. lia.
    + destruct (Transaction.type tx =? "sell")%string.
      * unfold _process_sell in Etx.
        pose proof (sell_loop_logs_removals tx _ st st1 _ Etx). lia.
      * injection Etx as <-. simpl in *. lia.
Qed.

(** Every eviction is recorded: the log holds as many evicted lots as the
    engine has symbol-mismatch anomalies. *)
Lemma mismatches_snoc (errs : list (anomaly num)) (e : anomaly num) :
  mismatches (errs ++ [e]) = (mismatches errs + if is_mismatch e then 1 else 0)%nat.
Proof.
  unfold mismatches. rewrite filter_app, length_app. simpl.
  destruct (is_mismatch e); reflexivity.
Qed.

Lemma sell_body_mismatches (tx : Transaction.t num) (st : FIFOTaxCalculator num) (r : num) :
  match sell_body tx st r with
  | Break st' | Next st' _ =>
      mismatches (errors st') =
      (mismatches (errors st) + List.length (evicted_lots (dropped_by tx st r)))%nat
  end.
Proof.
  unfold sell_body, dropped_by. destruct (lots st) as [|lot rest].
  { cbn [errors]. rewrite mismatches_snoc. reflexivity. }
  destruct (negb (TaxLot.symbol lot =? Transaction.symbol tx)%string).
  { cbn [errors]. rewrite mismatches_snoc. reflexivity. }
  cbn [errors].
  destruct (nltb (TaxLot.amount (TaxLot.take (nmin r (TaxLot.amount lot)) lot)) neps);
    simpl; lia.
Qed.

Lemma sell_loop_mismatches (tx : Transaction.t num) (fuel : nat) :
  forall (st st' : FIFOTaxCalculator num) (r : num),
    sell_loop fuel tx st r = Some st' ->
    mismatches (errors st') =
    (mismatches (errors st) + List.length (evicted_lots (sell_loop_drops fuel tx st r)))%nat.
Proof.
  induction fuel as [|n IH]; intros st st' r Hrun;
    destruct (ngtb r neps) eqn:Hg;
    try (rewrite sell_loop_done in Hrun by exact Hg; injection Hrun as <-;
         rewrite sell_loop_drops_done by exact Hg; simpl; lia).
  - cbn [sell_loop] in Hrun. rewrite Hg in Hrun. discriminate Hrun.
  - rewrite sell_loop_step in Hrun by exact Hg.
    rewrite sell_loop_drops_step by exact Hg.
    pose proof (sell_body_mismatches tx st r) as Hbody.
    unfold evicted_lots in *. rewrite flat_map_app, length_app.
    destruct (sell_body tx st r) as [sb|sb rb].
    + injection Hrun as <-. simpl. lia.
    + rewrite (IH sb st' rb Hrun). lia.
Qed.

Lemma drops_from_mismatches (txs : list (Transaction.t num)) :
  forall st st' : FIFOTaxCalculator num,
    process_all st txs = Some st' ->
    mismatches (errors st') =
    (mismatches (errors st) + List.length (evicted_lots (drops_from st txs)))%nat.
Proof.
  induction txs as [|tx txs IH]; intros st st' Hrun; simpl in Hrun.
  - injection Hrun as <-. simpl. lia.
  - cbn [drops_from].
    destruct (process_transaction st tx) as [st1|] eqn:Etx; [|discriminate].
    unfold evicted_lots in *. rewrite flat_map_app, length_app.
    rewrite (IH st1 st' Hrun). clear IH Hrun.
    unfold process_transaction, transaction_drops in *.
    destruct (Transaction.type tx =? "buy")%string eqn:Ebuy.
    + apply String.eqb_eq in Ebuy. rewrite Ebuy. simpl String.eqb. cbv iota.
      injection Etx as <-. simpl. lia.
    + destruct (Transaction.type tx =? "sell")%string.
      * unfold _process_sell in Etx.
        pose proof (sell_loop_mismatches tx _ st st1 _ Etx) as Hm.
        unfold evicted_lots in Hm. lia.
      * injection Etx as <-. cbn [errors]. rewrite mismatches_snoc. simpl. lia.
Qed.

End DropLog.

(** Amounts never go negative when no negative amount is bought. *)
Lemma nmin_le_r (r a : Q) : (nmin r a <= a)%Q.
Proof.
  unfold nmin. destruct (nltb a r) eqn:E; [apply Qle_refl|].
  apply Qltb_ge in E. exact E.
Qed.

Lemma take_nonneg (r : Q) (lot : TaxLot.t Q) :
  amount_nonneg (TaxLot.take (nmin r (TaxLot.amount lot)) lot).
Proof.
  unfold amount_nonneg.
  change (TaxLot.amount (TaxLot.take (nmin r (TaxLot.amount lot)) lot))
    with (Qred (TaxLot.amount lot - nmin r (TaxLot.amount lot))).
  rewrite Qred_correct. pose proof (nmin_le_r r (TaxLot.amount lot)). lra.
Qed.

Lemma sell_body_nonneg (tx : Transaction.t Q) (st : FIFOTaxCalculator Q) (r : Q) :
  Forall amount_nonneg (lots st) ->
  match sell_body tx st r with
  | Break st' | Next st' _ => Forall amount_nonneg (lots st')
  end
  /\ Forall drop_nonneg (dropped_by tx st r).
Proof.
  intros Hst. unfold sell_body, dropped_by.
  destruct (lots st) as [|lot rest] eqn:Elots.
  { split; [cbn [lots]|]; constructor. }
  inversion Hst as [|? ? Hlot Hrest]; subst.
  destruct (negb (TaxLot.symbol lot =? Transaction.symbol tx)%string).
  { split; [exact Hrest|]. repeat constructor. exact Hlot. }
  pose proof (take_nonneg r lot) as Htake.
  destruct (nltb (TaxLot.amount (TaxLot.take (nmin r (TaxLot.amount lot)) lot)) neps);
    cbn [lots]; split; repeat constructor; assumption.
Qed.

Lemma sell_loop_nonneg (tx : Transaction.t Q) (fuel : nat) :
  forall (st : FIFOTaxCalculator Q) (r : Q),
    Forall amount_nonneg (lots st) ->
    (forall st', sell_loop fuel tx st r = Some st' -> Forall amount_nonneg (lots st'))
    /\ Forall drop_nonneg (sell_loop_drops fuel tx st r).
Proof.
  induction fuel as [|n IH]; intros st r Hst;
    destruct (ngtb r neps) eqn:Hg;
    try (rewrite sell_loop_done, sell_loop_drops_done by exact Hg;
         split; [intros st' [= <-]; exact Hst|constructor]).
  - cbn [sell_loop sell_loop_drops]. rewrite Hg.
    split; [discriminate|constructor].
  - rewrite sell_loop_step, sell_loop_drops_step by exact Hg.
    destruct (sell_body_nonneg tx st r Hst) as [Hnext Hdrop].
    destruct (sell_body tx st r) as [sb|sb rb].
    + split; [intros st' [= <-]; exact Hnext|].
      rewrite app_nil_r. exact Hdrop.
    + destruct (IH sb rb Hnext) as [Hloop Hdrops].
      split; [exact Hloop|]. apply Forall_app. split; assumption.
Qed.

Lemma drops_from_nonneg (txs : list (Transaction.t Q)) :
  Forall tx_nonneg txs ->
  forall st : FIFOTaxCalculator Q,
    Forall amount_nonneg (lots st) -> Forall drop_nonneg (drops_from st txs).
Proof.
  induction 1 as [|tx txs Htx _ IH]; intros st Hst; cbn [drops_from]; [constructor|].
  apply Forall_app. unfold transaction_drops, process_transaction.
  destruct (Transaction.type tx =? "buy")%string eqn:Ebuy.
  - apply String.eqb_eq in Ebuy. rewrite Ebuy. simpl String.eqb. cbv iota.
    split; [constructor|]. apply IH. unfold _process_buy. cbn [lots].
    apply Forall_app. split; [exact Hst|]. repeat constructor. exact Htx.
  - destruct (Transaction.type tx =? "sell")%string.
    + unfold _process_sell.
      destruct (sell_loop_nonneg tx (S (List.length (lots st))) st
                  (Transaction.amount tx) Hst) as [Hloop Hdrops].
      split; [exact Hdrops|].
      destruct (sell_loop (S (List.length (lots st))) tx st (Transaction.amount tx))
        as [st1|]; [|constructor].
      apply IH. apply Hloop. reflexivity.
    + split; [constructor|]. apply IH. exact Hst.
Qed.

Lemma residue_lots_Forall_any {num : Type} (P : TaxLot.t num -> Prop)
    (Pd : drop num -> Prop) (ds : list (drop num)) :
  (forall lot, Pd (Residue lot) -> P lot) ->
  Forall Pd ds -> Forall P (residue_lots ds).
Proof.
  intros Himp. induction 1 as [|d ds Hd _ IH]; simpl; [constructor|].
  destruct d as [lot|lot]; simpl; [exact IH|].
  constructor; [apply Himp; exact Hd|exact IH].
Qed.

Lemma residue_lots_Forall (P : TaxLot.t Q -> Prop) (Pd : drop Q -> Prop)
    (ds : list (drop Q)) :
  (forall lot, Pd (Residue lot) -> P lot) ->
  Forall Pd ds -> Forall P (residue_lots ds).
Proof.
  intros Himp. induction 1 as [|d ds Hd _ IH]; simpl; [constructor|].
  destruct d as [lot|lot]; simpl; [exact IH|].
  constructor; [apply Himp; exact Hd|exact IH].
Qed.

(** A lot left with exactly [1/10^8] is below the [float] literal
    [0.00000001] and leaves the ledger. *)
Lemma last_satoshi_is_removed :
  option_map (fun r => lots (snd r)) (calculate_taxes fresh last_satoshi_batch) = Some []
  /\ map (@TaxLot.amount Q) (residue_lots (run_drops last_satoshi_batch))
     = [(1 # 100000000)%Q].
Proof. split; vm_compute; reflexivity. Qed.

(** On doubles the amounts are subtracted with rounding, and the sums of
    the conservation law need not agree even when nothing leaves the
    ledger: of [0.9] bought and [0.2] sold, [0.7] is left, and
    [0.2 + 0.7] is not [0.9]. *)
Lemma rounding_breaks_the_sums_binary64 :
  exists sm st',
    calculate_taxes (H := binary64) fresh rounding_batch_binary64 = Some (sm, st')
    /\ run_drops (H := binary64) rounding_batch_binary64 = []
    /\ errors st' = []
    /\ originally (H := binary64) "BTC" (lots_created (H := binary64) rounding_batch_binary64)
       = 0.9%float
    /\ matched (H := binary64) "BTC" (capital_gains st') = 0.2%float
    /\ held (H := binary64) "BTC" (lots st') = 0.7%float
    /\ (0.2 + 0.7 =? 0.9)%float = false
    /\ (0.2 + 0.7)%float = 0.8999999999999999%float.
Proof.
  eexists _, _. split; [vm_compute; reflexivity|].
  repeat split; vm_compute; reflexivity.
Qed.

(** C5, as the code has it.  In exact arithmetic, for every batch and
    every symbol, the amounts of the lots created add up to the amounts
    matched by the gains, plus the amounts left in the surviving lots, plus
    the amounts held by the lots evicted on a symbol mismatch, plus the
    residues of the lots removed as used up.  There is one recorded anomaly
    per evicted lot and none for a residue; every residue is below the
    tolerance [0.00000001], and is not negative when no transaction amount
    is.  In any arithmetic, doubles included, the bookkeeping holds lot by
    lot: every lot created is still in the ledger, or was evicted with an
    anomaly, or was removed when found below the tolerance.  On doubles the
    sums themselves agree only as far as rounding lets them. *)
Theorem amounts_conserved_up_to_residue :
  (forall (st : FIFOTaxCalculator Q) (txs : list (Transaction.t Q)) (s : string),
      exists sm st',
        calculate_taxes st txs = Some (sm, st')
        /\ (originally s (lots_created txs) ==
            matched s (capital_gains st') + held s (lots st')
            + held s (evicted_lots (run_drops txs))
            + held s (residue_lots (run_drops txs)))%Q
        /\ List.length (lots_created txs) =
             (List.length (lots st') + List.length (run_drops txs))%nat
        /\ List.length (evicted_lots (run_drops txs)) = mismatches (errors st')
        /\ Forall (fun lot => (TaxLot.amount lot < neps)%Q) (residue_lots (run_drops txs))
        /\ (Forall tx_nonneg txs ->
            Forall (fun lot => (0 <= TaxLot.amount lot)%Q) (residue_lots (run_drops txs))))
  /\ (forall (num : Type) (N : Number num) (st st' : FIFOTaxCalculator num)
             (txs : list (Transaction.t num)) (sm : Summary.t num),
        calculate_taxes st txs = Some (sm, st') ->
        List.length (lots_created txs) =
          (List.length (lots st') + List.length (run_drops txs))%nat
        /\ List.length (evicted_lots (run_drops txs)) = mismatches (errors st')
        /\ Forall (fun lot => nltb (TaxLot.amount lot) neps = true)
              (residue_lots (run_drops txs)))
  /\ (exists sm st',
        calculate_taxes (H := binary64) fresh rounding_batch_binary64 = Some (sm, st')
        /\ run_drops (H := binary64) rounding_batch_binary64 = []
        /\ errors st' = []
        /\ originally (H := binary64) "BTC"
             (lots_created (H := binary64) rounding_batch_binary64) = 0.9%float
        /\ matched (H := binary64) "BTC" (capital_gains st') = 0.2%float
        /\ held (H := binary64) "BTC" (lots st') = 0.7%float
        /\ (0.2 + 0.7 =? 0.9)%float = false
        /\ (0.2 + 0.7)%float = 0.8999999999999999%float).
Proof.
  split; [|split; [|exact rounding_breaks_the_sums_binary64]].
  - intros st txs s.
    destruct (process_all_terminates (sorted txs) fresh) as [st' Hrun].
    exists (_generate_summary st'), st'.
    split; [rewrite calculate_taxes_from_fresh, Hrun; reflexivity|].
    split; [|split; [|split; [|split]]].
    + pose proof (drops_from_conserves s (sorted txs) fresh st' Hrun) as Hc.
      rewrite accounted_nil in Hc. unfold accounted in Hc.
      unfold lots_created, run_drops.
      change (matched s (capital_gains fresh)) with (nsum (@nil Q)) in Hc.
      change (held s (lots fresh)) with (nsum (@nil Q)) in Hc.
      rewrite nsum_nil in Hc. lra.
    + pose proof (drops_from_logs_removals (sorted txs) fresh st' Hrun) as Hl.
      unfold lots_created, run_drops. rewrite length_map. simpl in Hl. lia.
    + pose proof (drops_from_mismatches (sorted txs) fresh st' Hrun) as Hm.
      unfold run_drops. simpl in Hm. lia.
    + unfold run_drops.
      apply (residue_lots_Forall _ residue_small); [|apply drops_from_small].
      intros lot Hsmall. apply Qltb_lt. exact Hsmall.
    + intros Hnonneg. unfold run_drops.
      apply (residue_lots_Forall _ drop_nonneg); [intros lot Hlot; exact Hlot|].
      apply drops_from_nonneg; [|constructor].
      eapply Permutation_Forall; [apply sorted_perm|exact Hnonneg].
  - intros num N st st' txs sm. rewrite calculate_taxes_from_fresh.
    destruct (process_all fresh (sorted txs)) as [st1|] eqn:Hrun; [|discriminate].
    intros [= _ <-]. split; [|split].
    + pose proof (drops_from_logs_removals (sorted txs) fresh st1 Hrun) as Hl.
      unfold lots_created, run_drops. rewrite length_map. simpl in Hl. lia.
    + pose proof (drops_from_mismatches (sorted txs) fresh st1 Hrun) as Hm.
      unfold run_drops. simpl in Hm. lia.
    + unfold run_drops.
      apply (residue_lots_Forall_any _ residue_small); [|apply drops_from_small].
      intros lot Hsmall. exact Hsmall.
Qed.

Lemma amounts_conserved_up_to_residue_witness :
  Forall tx_nonneg dust_batch
  /\ exists sm st',
       calculate_taxes fresh dust_batch = Some (sm, st')
       /\ (originally "BTC" (lots_created dust_batch) ==
           matched "BTC" (capital_gains st') + held "BTC" (lots st')
           + held "BTC" (evicted_lots (run_drops dust_batch))
           + held "BTC" (residue_lots (run_drops dust_batch)))%Q
       /\ List.length (lots_created dust_batch) =
            (List.length (lots st') + List.length (run_drops dust_batch))%nat
       /\ List.length (evicted_lots (run_drops dust_batch)) = mismatches (errors st')
       /\ Forall (fun lot => (TaxLot.amount lot < neps)%Q) (residue_lots (run_drops dust_batch))
       /\ Forall (fun lot => (0 <= TaxLot.amount lot)%Q) (residue_lots (run_drops dust_batch)).
Proof.
  assert (Hnonneg : Forall tx_nonneg dust_batch).
  { repeat constructor; unfold tx_nonneg; simpl; discriminate. }
  split; [exact Hnonneg|].
  destruct (proj1 amounts_conserved_up_to_residue fresh dust_batch "BTC"%string)
    as (sm & st' & Hrun & Hsum & Hlog & Hev & Hsmall & Hpos).
  exists sm, st'. repeat split; try assumption. exact (Hpos Hnonneg).
Defined.

(** C5, as stated, leaves the residues out and fails, by more than the
    tolerance: of two lots of [1.000000009], [1] each is matched and the
    remaining [0.000000009] each is removed from the ledger under the
    tolerance, with no anomaly; [0.000000018] of what was bought is neither
    matched nor held nor covered by an anomaly.  The run on doubles does
    the same. *)
Lemma dust_is_dropped_unrecorded :
  (exists sm st',
      calculate_taxes fresh dust_batch = Some (sm, st')
      /\ st' = mkEngine [] [dust_gain_1; dust_gain_2] []
      /\ Summary.errors sm = []
      /\ map (@TaxLot.amount Q) (residue_lots (run_drops dust_batch))
         = [(9 # 1000000000)%Q; (9 # 1000000000)%Q]
      /\ evicted_lots (run_drops dust_batch) = []
      /\ (originally "BTC" (lots_created dust_batch)
          - (matched "BTC" (capital_gains st') + held "BTC" (lots st')
             + held "BTC" (evicted_lots (run_drops dust_batch)))
          == 18 # 1000000000)%Q
      /\ (neps < 18 # 1000000000)%Q)
  /\ ~ conserved_without_residue dust_batch "BTC"
  /\ (exists sm st',
        calculate_taxes (H := binary64) fresh dust_batch_binary64 = Some (sm, st')
        /\ lots st' = []
        /\ map (@CapitalGain.amount float) (capital_gains st') = [1%float; 1%float]
        /\ errors st' = []
        /\ evicted_lots (run_drops (H := binary64) dust_batch_binary64) = []
        /\ map (@TaxLot.amount float)
             (residue_lots (run_drops (H := binary64) dust_batch_binary64))
           = [(1.000000009 - 1)%float; (1.000000009 - 1)%float]
        /\ ((@neps float binary64)
            <? (originally (H := binary64) "BTC"
                  (lots_created (H := binary64) dust_batch_binary64)
                - (matched (H := binary64) "BTC" (capital_gains st')
                   + held (H := binary64) "BTC" (lots st'))))%float = true).
Proof.
  assert (Hrun : calculate_taxes fresh dust_batch
                 = Some (Summary.mk 20000%Q 20000%Q 0%Q (Some 2%nat) (Some 0%nat) 2
                           (Some [dust_gain_1; dust_gain_2]) (Some []) [],
                         mkEngine [] [dust_gain_1; dust_gain_2] []))
    by (vm_compute; reflexivity).
  split; [|split].
  - eexists _, _. split; [exact Hrun|].
    split; [reflexivity|]. split; [reflexivity|].
    split; [vm_compute; reflexivity|]. split; [vm_compute; reflexivity|].
    split; vm_compute; reflexivity.
  - intros (sm & st' & Hrun' & Hsum).
    rewrite Hrun in Hrun'. injection Hrun' as _ <-.
    vm_compute in Hsum. discriminate Hsum.
  - eexists _, _. split; [vm_compute; reflexivity|].
    repeat split; vm_compute; reflexivity.
Qed.

(** * Further properties of the engine *)

(** ** Sorting composes *)

Section SortingAgain.
Context {num : Type} `{Number num}.

Local Abbreviation transaction := (Transaction.t num).

Lemma StronglySorted_filter {A : Type} (R : A -> A -> Prop) (p : A -> bool) (l : list A) :
  StronglySorted R l -> StronglySorted R (filter p l).
Proof.
  induction 1 as [|x l Hl IH Hx]; simpl; [constructor|].
  destruct (p x); [|exact IH].
  constructor; [exact IH|].
  rewrite Forall_forall in *. intros y Hy. apply filter_In in Hy as [Hy _].
  apply Hx. exact Hy.
Qed.

Lemma filter_comm {A : Type} (p q : A -> bool) (l : list A) :
  filter p (filter q l) = filter q (filter p l).
Proof.
  induction l as [|x l IH]; simpl; [reflexivity|].
  destruct (p x) eqn:Ep, (q x) eqn:Eq; simpl; rewrite ?Ep, ?Eq, IH; reflexivity.
Qed.

(** A batch already in date order is left as it is. *)
Lemma sorted_of_sorted (txs : list transaction) :
  StronglySorted date_le txs -> sorted txs = txs.
Proof.
  intros Hs. symmetry. apply stable_sort_unique; [exact Hs|apply sorted_is_sorted|].
  intros d. symmetry. apply sorted_stable.
Qed.

(** Sorting commutes with dropping transactions. *)
Lemma sorted_filter (p : transaction -> bool) (txs : list transaction) :
  sorted (filter p txs) = filter p (sorted txs).
Proof.
  apply stable_sort_unique.
  - apply sorted_is_sorted.
  - apply StronglySorted_filter. apply sorted_is_sorted.
  - intros d. rewrite sorted_stable.
    rewrite (filter_comm (on_date d) p (sorted txs)), sorted_stable.
    apply filter_comm.
Qed.

End SortingAgain.

Section OrderOfInput.
Context {num : Type} `{Number num}.

Local Abbreviation transaction := (Transaction.t num).

(** X1.  A batch that is already in ascending date order is not reordered:
    [calculate_taxes] processes it exactly as given, from an empty engine,
    whatever the engine held before. *)
Theorem presorted_batch_is_processed_as_given
    (st : FIFOTaxCalculator num) (txs : list transaction) :
  StronglySorted date_le txs ->
  sorted txs = txs
  /\ calculate_taxes st txs =
       option_map (fun st' => (_generate_summary st', st')) (process_all fresh txs).
Proof.
  intros Hs. pose proof (sorted_of_sorted txs Hs) as Heq.
  split; [exact Heq|].
  rewrite calculate_taxes_from_fresh, Heq. reflexivity.
Qed.

Lemma filter_on_date_short (d : datetime) (l : list transaction) :
  NoDup (map (@Transaction.date num) l) ->
  (List.length (filter (on_date d) l) <= 1)%nat.
Proof.
  induction l as [|x l IH]; simpl; intros Hnd; [lia|].
  inversion Hnd as [|? ? Hnotin Hnd']; subst. specialize (IH Hnd').
  unfold on_date at 1. destruct (Transaction.date x =? d) eqn:E; [|lia].
  apply Z.eqb_eq in E. simpl.
  destruct (filter (on_date d) l) as [|y ys] eqn:Ef; [simpl; lia|].
  exfalso. apply Hnotin.
  assert (Hy : In y (filter (on_date d) l)) by (rewrite Ef; left; reflexivity).
  apply filter_In in Hy as [Hy Hd]. unfold on_date in Hd. apply Z.eqb_eq in Hd.
  rewrite E, <- Hd. apply in_map. exact Hy.
Qed.

Lemma Permutation_filter_same {A : Type} (p : A -> bool) (l1 l2 : list A) :
  Permutation l1 l2 -> Permutation (filter p l1) (filter p l2).
Proof.
  induction 1 as [|x l1 l2 _ IH|x y l|l1 l2 l3 _ IH1 _ IH2]; simpl.
  - constructor.
  - destruct (p x); [constructor|]; exact IH.
  - destruct (p x), (p y); try reflexivity. apply perm_swap.
  - etransitivity; eassumption.
Qed.

Lemma Permutation_short {A : Type} (l1 l2 : list A) :
  Permutation l1 l2 -> (List.length l1 <= 1)%nat -> l1 = l2.
Proof.
  intros Hp Hlen. destruct l1 as [|x [|y l1]]; simpl in Hlen; [| |lia].
  - apply Permutation_nil in Hp. symmetry. exact Hp.
  - apply Permutation_length_1_inv in Hp. symmetry. exact Hp.
Qed.

(** X2.  When no two transactions of a batch carry the same date, the order
    in which the batch lists them has no influence on the result. *)
Theorem input_order_is_irrelevant_for_distinct_dates
    (st : FIFOTaxCalculator num) (txs1 txs2 : list transaction) :
  Permutation txs1 txs2 ->
  NoDup (map (@Transaction.date num) txs1) ->
  sorted txs1 = sorted txs2
  /\ calculate_taxes st txs1 = calculate_taxes st txs2.
Proof.
  intros Hp Hnd.
  assert (Heq : sorted txs1 = sorted txs2).
  { apply stable_sort_unique; try apply sorted_is_sorted.
    intros d. rewrite !sorted_stable.
    apply Permutation_short.
    - apply Permutation_filter_same. exact Hp.
    - apply filter_on_date_short. exact Hnd. }
  split; [exact Heq|]. rewrite !calculate_taxes_from_fresh, Heq. reflexivity.
Qed.

End OrderOfInput.

Lemma presorted_batch_is_processed_as_given_witness :
  StronglySorted date_le split_batch
  /\ sorted split_batch = split_batch
  /\ calculate_taxes fresh split_batch =
       option_map (fun st' => (_generate_summary st', st'))
                  (process_all fresh split_batch).
Proof.
  assert (Hs : StronglySorted date_le split_batch).
  { repeat constructor; unfold date_le; vm_compute; discriminate. }
  split; [exact Hs|].
  exact (presorted_batch_is_processed_as_given fresh split_batch Hs).
Defined.

Lemma input_order_is_irrelevant_for_distinct_dates_witness :
  Permutation split_batch (rev split_batch)
  /\ NoDup (map (@Transaction.date Q) split_batch)
  /\ sorted split_batch = sorted (rev split_batch)
  /\ calculate_taxes fresh split_batch = calculate_taxes fresh (rev split_batch).
Proof.
  assert (Hp : Permutation split_batch (rev split_batch)) by apply Permutation_rev.
  assert (Hnd : NoDup (map (@Transaction.date Q) split_batch)).
  { repeat constructor; simpl; intuition discriminate. }
  split; [exact Hp|]. split; [exact Hnd|].
  exact (input_order_is_irrelevant_for_distinct_dates fresh split_batch
           (rev split_batch) Hp Hnd).
Defined.

(** ** What processing never undoes *)

Section AppendOnly.
Context {num : Type} `{Number num}.

Local Abbreviation engine := (FIFOTaxCalculator num).

(** [later] extends the gain list and the anomaly list of [earlier]. *)
Let extends (earlier later : engine) : Prop :=
  exists gs es,
    capital_gains later = capital_gains earlier ++ gs
    /\ errors later = errors earlier ++ es.

Lemma extends_refl (st : engine) : extends st st.
Proof. exists [], []. rewrite !app_nil_r. split; reflexivity. Qed.

Lemma sell_body_extends (st0 : engine) (tx : Transaction.t num) (st : engine) (r : num) :
  extends st0 st ->
  match sell_body tx st r with
  | Break st' | Next st' _ => extends st0 st'
  end.
Proof.
  intros (gs & es & Hg & He). unfold sell_body.
  destruct (lots st) as [|lot rest].
  { eexists gs, (es ++ [_]). cbn [capital_gains errors].
    rewrite Hg, He, app_assoc. split; reflexivity. }
  destruct (negb (TaxLot.symbol lot =? Transaction.symbol tx)%string).
  - eexists gs, (es ++ [_]). cbn [capital_gains errors].
    rewrite Hg, He, app_assoc. split; reflexivity.
  - eexists (gs ++ [_]), es. cbn [capital_gains errors].
    rewrite Hg, He, app_assoc. split; reflexivity.
Qed.

Lemma process_transaction_extends (st0 st st' : engine) (tx : Transaction.t num) :
  extends st0 st -> process_transaction st tx = Some st' -> extends st0 st'.
Proof.
  intros Hext. unfold process_transaction.
  destruct (Transaction.type tx =? "buy")%string.
  { intros [= <-]. exact Hext. }
  destruct (Transaction.type tx =? "sell")%string.
  - unfold _process_sell. intros Hrun.
    eapply (sell_loop_invariant (extends st0) tx (sell_body_extends st0 tx));
      [exact Hext|exact Hrun].
  - intros [= <-]. destruct Hext as (gs & es & Hg & He).
    eexists gs, (es ++ [_]). cbn [capital_gains errors].
    rewrite Hg, He, app_assoc. split; reflexivity.
Qed.

(** X3.  Processing transactions only ever appends to the list of realized
    gains and to the list of anomalies: what was recorded before is still
    there, unchanged and in the same place, afterwards. *)
Theorem gains_and_anomalies_are_append_only
    (st st' : engine) (txs : list (Transaction.t num)) :
  process_all st txs = Some st' ->
  exists gs es,
    capital_gains st' = capital_gains st ++ gs
    /\ errors st' = errors st ++ es.
Proof.
  intros Hrun.
  eapply (process_all_invariant (extends st)); [|apply extends_refl|exact Hrun].
  intros e tx e'. apply process_transaction_extends.
Qed.

End AppendOnly.

Lemma gains_and_anomalies_are_append_only_witness :
  process_all mixed_ledger [eth_sell; simple_sell]
  = Some (mkEngine []
            [gain_of eth_sell eth_lot 2%Q]
            [SymbolMismatch "ETH" "BTC"; NoLotsAvailable 1%Q "BTC" (ymd 2024 2 1)])
  /\ exists gs es,
       [gain_of eth_sell eth_lot 2%Q] = capital_gains mixed_ledger ++ gs
       /\ [SymbolMismatch "ETH" "BTC"; NoLotsAvailable 1%Q "BTC" (ymd 2024 2 1)]
          = errors mixed_ledger ++ es.
Proof.
  assert (Hrun : process_all mixed_ledger [eth_sell; simple_sell]
                 = Some (mkEngine []
                           [gain_of eth_sell eth_lot 2%Q]
                           [SymbolMismatch "ETH" "BTC";
                            NoLotsAvailable 1%Q "BTC" (ymd 2024 2 1)]))
    by (vm_compute; reflexivity).
  split; [exact Hrun|].
  exact (gains_and_anomalies_are_append_only mixed_ledger _ _ Hrun).
Defined.

(** ** Aggregation *)

Lemma is_term_cases {num : Type} (g : CapitalGain.t num) :
  (is_term short g = true /\ is_term long g = false)
  \/ (is_term short g = false /\ is_term long g = true).
Proof. unfold is_term. destruct (CapitalGain.term g); auto. Qed.

Lemma nsum_by_term (gains : list (CapitalGain.t Q)) :
  (nsum (map (@CapitalGain.gain_loss Q) (filter (is_term short) gains))
   + nsum (map (@CapitalGain.gain_loss Q) (filter (is_term long) gains))
   == nsum (map (@CapitalGain.gain_loss Q) gains))%Q.
Proof.
  induction gains as [|g gains IH]; cbn [filter map].
  - rewrite nsum_nil. ring.
  - destruct (is_term_cases g) as [[-> ->]|[-> ->]]; cbn [map];
      rewrite !nsum_cons, <- IH; ring.
Qed.

Lemma length_by_term {num : Type} (gains : list (CapitalGain.t num)) :
  (List.length (filter (is_term short) gains)
   + List.length (filter (is_term long) gains))%nat = List.length gains.
Proof.
  induction gains as [|g gains IH]; cbn [filter]; [reflexivity|].
  destruct (is_term_cases g) as [[-> ->]|[-> ->]]; simpl; lia.
Qed.

(** X4.  The summary's total is the sum of [gain_loss] over all realized
    gains, split without loss or overlap into the short-term and the
    long-term total; the two counts add up to [num_transactions], the
    number of gains; the anomalies are passed on as they are. *)
Theorem summary_aggregates_all_gains (st : FIFOTaxCalculator Q) :
  (Summary.total_gain_loss (_generate_summary st)
   == nsum (map (@CapitalGain.gain_loss Q) (capital_gains st)))%Q
  /\ (Summary.short_term_gain_loss (_generate_summary st)
      == nsum (map (@CapitalGain.gain_loss Q)
                 (filter (is_term short) (capital_gains st))))%Q
  /\ (Summary.long_term_gain_loss (_generate_summary st)
      == nsum (map (@CapitalGain.gain_loss Q)
                 (filter (is_term long) (capital_gains st))))%Q
  /\ Summary.num_transactions (_generate_summary st) = List.length (capital_gains st)
  /\ (capital_gains st <> [] ->
      exists n_short n_long,
        Summary.num_short_term (_generate_summary st) = Some n_short
        /\ Summary.num_long_term (_generate_summary st) = Some n_long
        /\ (n_short + n_long)%nat = Summary.num_transactions (_generate_summary st)
        /\ Summary.capital_gains (_generate_summary st) = Some (capital_gains st)
        /\ Summary.remaining_lots (_generate_summary st) = Some (lots st))
  /\ Summary.errors (_generate_summary st) = errors st.
Proof.
  unfold _generate_summary. destruct (capital_gains st) as [|g gs] eqn:Eg.
  - cbn [Summary.total_gain_loss Summary.short_term_gain_loss
         Summary.long_term_gain_loss Summary.num_transactions Summary.errors].
    simpl filter. simpl map. rewrite nsum_nil.
    repeat split; try reflexivity. intros Hne. contradiction.
  - cbn [Summary.total_gain_loss Summary.short_term_gain_loss
         Summary.long_term_gain_loss Summary.num_transactions Summary.errors
         Summary.num_short_term Summary.num_long_term Summary.capital_gains
         Summary.remaining_lots].
    split; [|repeat split; try reflexivity].
    + change (nadd ?a ?b) with (Qred (a + b)). rewrite Qred_correct.
      apply nsum_by_term.
    + intros _. eexists _, _. split; [reflexivity|]. split; [reflexivity|].
      split; [apply length_by_term|]. split; reflexivity.
Qed.

(** ** Transactions of an unknown type *)

Section UnknownTypes.
Context {num : Type} `{Number num}.

Local Abbreviation engine := (FIFOTaxCalculator num).
Local Abbreviation transaction := (Transaction.t num).

Lemma filter_known_snoc (errs : list (anomaly num)) (e : anomaly num) :
  filter (fun e => negb (is_unknown_type e)) (errs ++ [e]) =
  filter (fun e => negb (is_unknown_type e)) errs
  ++ (if is_unknown_type e then [] else [e]).
Proof.
  rewrite filter_app. simpl. destruct (is_unknown_type e); reflexivity.
Qed.

Lemma sell_body_skips (tx : transaction) (st1 st2 : engine) (r : num) :
  same_but_unknown st1 st2 ->
  match sell_body tx st1 r, sell_body tx st2 r with
  | Break a, Break b => same_but_unknown a b
  | Next a ra, Next b rb => same_but_unknown a b /\ ra = rb
  | _, _ => False
  end.
Proof.
  intros (Hl & Hg & He). unfold sell_body. rewrite Hl.
  destruct (lots st1) as [|lot rest].
  { unfold same_but_unknown. cbn [lots capital_gains errors].
    rewrite filter_known_snoc, He, Hg. repeat split; reflexivity. }
  destruct (negb (TaxLot.symbol lot =? Transaction.symbol tx)%string).
  - unfold same_but_unknown. cbn [lots capital_gains errors].
    rewrite filter_known_snoc, He, Hg. repeat split; reflexivity.
  - unfold same_but_unknown. cbn [lots capital_gains errors].
    rewrite He, Hg. repeat split; reflexivity.
Qed.

Lemma sell_loop_skips (tx : transaction) (fuel : nat) :
  forall (st1 st2 : engine) (r : num),
    same_but_unknown st1 st2 ->
    both same_but_unknown (sell_loop fuel tx st1 r) (sell_loop fuel tx st2 r).
Proof.
  induction fuel as [|n IH]; intros st1 st2 r HR; cbn [sell_loop];
    destruct (ngtb r neps); try exact HR; try exact I.
  pose proof (sell_body_skips tx st1 st2 r HR) as Hb.
  destruct (sell_body tx st1 r) as [a|a ra], (sell_body tx st2 r) as [b|b rb];
    try contradiction.
  - exact Hb.
  - destruct Hb as [Hab <-]. apply IH. exact Hab.
Qed.

Lemma process_all_skips (txs : list transaction) :
  forall st1 st2 : engine,
    same_but_unknown st1 st2 ->
    both same_but_unknown (process_all st1 txs) (process_all st2 (filter is_known txs)).
Proof.
  induction txs as [|tx txs IH]; intros st1 st2 HR; cbn [process_all filter].
  { exact HR. }
  unfold is_known at 1, process_transaction at 1.
  destruct (Transaction.type tx =? "buy")%string eqn:Ebuy.
  - cbn [orb process_all]. unfold process_transaction. rewrite Ebuy.
    apply IH. destruct HR as (Hl & Hg & He).
    unfold same_but_unknown, _process_buy. cbn [lots capital_gains errors].
    rewrite Hl, Hg, He. repeat split; reflexivity.
  - cbn [orb]. destruct (Transaction.type tx =? "sell")%string eqn:Esell.
    + cbn [process_all]. unfold process_transaction. rewrite Ebuy, Esell.
      unfold _process_sell.
      assert (Hlen : lots st2 = lots st1) by apply HR. rewrite Hlen.
      pose proof (sell_loop_skips tx (S (List.length (lots st1))) st1 st2
                    (Transaction.amount tx) HR) as Hloop.
      destruct (sell_loop (S (List.length (lots st1))) tx st1 (Transaction.amount tx)),
               (sell_loop (S (List.length (lots st1))) tx st2 (Transaction.amount tx));
        try contradiction; [apply IH; exact Hloop|exact I].
    + apply IH. destruct HR as (Hl & Hg & He).
      unfold same_but_unknown. cbn [lots capital_gains errors].
      rewrite filter_known_snoc. cbn [is_unknown_type]. rewrite app_nil_r.
      repeat split; assumption.
Qed.

Lemma sell_body_adds_no_unknown (n : nat) (tx : transaction) (st : engine) (r : num) :
  List.length (filter is_unknown_type (errors st)) = n ->
  match sell_body tx st r with
  | Break st' | Next st' _ => List.length (filter is_unknown_type (errors st')) = n
  end.
Proof.
  intros Hn. unfold sell_body. destruct (lots st) as [|lot rest].
  { cbn [errors]. rewrite filter_app, length_app. simpl. lia. }
  destruct (negb (TaxLot.symbol lot =? Transaction.symbol tx)%string); cbn [errors].
  - rewrite filter_app, length_app. simpl. lia.
  - exact Hn.
Qed.

Lemma process_all_counts_unknown (txs : list transaction) :
  forall st st' : engine,
    process_all st txs = Some st' ->
    List.length (filter is_unknown_type (errors st')) =
    (List.length (filter is_unknown_type (errors st))
     + List.length (filter (fun tx => negb (is_known tx)) txs))%nat.
Proof.
  induction txs as [|tx txs IH]; intros st st' Hrun; cbn [process_all filter] in *.
  { injection Hrun as <-. simpl. lia. }
  destruct (process_transaction st tx) as [st1|] eqn:Etx; [|discriminate].
  rewrite (IH st1 st' Hrun). clear IH Hrun.
  unfold process_transaction in Etx. unfold is_known.
  destruct (Transaction.type tx =? "buy")%string.
  { injection Etx as <-. simpl. lia. }
  destruct (Transaction.type tx =? "sell")%string.
  - unfold _process_sell in Etx.
    rewrite (sell_loop_invariant
               (fun e => List.length (filter is_unknown_type (errors e)) =
                         List.length (filter is_unknown_type (errors st)))
               tx (sell_body_adds_no_unknown _ tx) _ st _ st1 eq_refl Etx).
    simpl. lia.
  - injection Etx as <-. cbn [errors orb negb List.length].
    rewrite filter_app, length_app. simpl. lia.
Qed.

(** X5.  Transactions whose type is neither ['buy'] nor ['sell'] are
    skipped: each adds one anomaly and nothing else.  Taking them out of
    the batch leaves the ledger, the gains and every other anomaly as they
    were, and the run records exactly as many unknown-type anomalies as the
    batch has such transactions. *)
Theorem unknown_types_are_recorded_and_skipped
    (st : engine) (txs : list transaction) :
  both (fun r1 r2 =>
          same_but_unknown (snd r1) (snd r2)
          /\ Summary.total_gain_loss (fst r2) = Summary.total_gain_loss (fst r1)
          /\ Summary.num_transactions (fst r2) = Summary.num_transactions (fst r1)
          /\ Summary.capital_gains (fst r2) = Summary.capital_gains (fst r1)
          /\ Summary.remaining_lots (fst r2) = Summary.remaining_lots (fst r1)
          /\ List.length (filter is_unknown_type (errors (snd r1))) =
             List.length (filter (fun tx => negb (is_known tx)) txs)
          /\ filter is_unknown_type (errors (snd r2)) = [])
       (calculate_taxes st txs) (calculate_taxes st (filter is_known txs)).
Proof.
  rewrite !calculate_taxes_from_fresh, sorted_filter.
  assert (H0 : same_but_unknown (@fresh num) fresh) by (repeat split; reflexivity).
  pose proof (process_all_skips (sorted txs) fresh fresh H0) as Hskip.
  pose proof (process_all_counts_unknown (sorted txs) fresh) as Hcount.
  destruct (process_all fresh (sorted txs)) as [st1|],
           (process_all fresh (filter is_known (sorted txs))) as [st2|];
    try contradiction; [|exact I].
  cbn [option_map both fst snd]. split; [exact Hskip|].
  destruct Hskip as (Hl & Hg & He).
  unfold _generate_summary. rewrite Hg, Hl.
  split; [destruct (capital_gains st1); reflexivity|].
  split; [destruct (capital_gains st1); reflexivity|].
  split; [destruct (capital_gains st1); reflexivity|].
  split; [destruct (capital_gains st1); reflexivity|].
  split.
  - rewrite (Hcount st1 eq_refl). cbn [fresh errors filter List.length].
    rewrite <- (sorted_filter (fun tx => negb (is_known tx)) txs).
    symmetry. apply Permutation_length. apply sorted_perm.
  - rewrite He. clear. induction (errors st1) as [|e es IH]; [reflexivity|].
    simpl. destruct (is_unknown_type e) eqn:E; simpl; [exact IH|].
    rewrite E. exact IH.
Qed.

End UnknownTypes.

Lemma batch_with_transfer_run :
  option_map (fun r => errors (snd r)) (calculate_taxes fresh batch_with_transfer)
  = Some [UnknownTransactionType "transfer"]
  /\ option_map (fun r => Summary.total_gain_loss (fst r))
       (calculate_taxes fresh batch_with_transfer)
     = Some 10000%Q.
Proof. split; vm_compute; reflexivity. Qed.

(** ** Dates: oldest first, never sold before bought *)

Lemma StronglySorted_snoc {A : Type} (R : A -> A -> Prop) (l : list A) (x : A) :
  StronglySorted R l -> Forall (fun y => R y x) l -> StronglySorted R (l ++ [x]).
Proof.
  induction 1 as [|y l Hl IH Hy]; intros Hx; simpl.
  - repeat constructor.
  - inversion Hx as [|? ? Hyx Hlx]; subst.
    constructor; [apply IH; exact Hlx|].
    apply Forall_app. split; [exact Hy|]. repeat constructor. exact Hyx.
Qed.

Lemma days_between_nonneg (a b : datetime) : b <= a -> 0 <= days_between a b.
Proof.
  intros Hle. unfold days_between, usec_per_day.
  apply Z.div_pos; lia.
Qed.

Section DateOrder.
Context {num : Type} `{Number num}.

Local Abbreviation engine := (FIFOTaxCalculator num).
Local Abbreviation transaction := (Transaction.t num).

Lemma in_date_order_later (b b' : datetime) (st : engine) :
  b <= b' -> in_date_order b st -> in_date_order b' st.
Proof.
  intros Hle (Hs & Hb & Hg & Hp & Hsl & Hgl).
  repeat split; try assumption.
  - eapply Forall_impl; [|exact Hb]. simpl. intros lot Hlot. lia.
  - eapply Forall_impl; [|exact Hg]. simpl. intros g (H1 & H2 & H3).
    repeat split; try assumption. lia.
Qed.

Lemma process_buy_in_date_order (b : datetime) (st : engine) (tx : transaction) :
  b <= Transaction.date tx -> in_date_order b st ->
  in_date_order (Transaction.date tx) (_process_buy st tx).
Proof.
  intros Hle Hinv.
  destruct (in_date_order_later b (Transaction.date tx) st Hle Hinv)
    as (Hs & Hb & Hg & Hp & Hsl & Hgl).
  unfold in_date_order, _process_buy. cbn [lots capital_gains].
  repeat split; try assumption.
  - apply StronglySorted_snoc; [exact Hs|]. exact Hb.
  - apply Forall_app. split; [exact Hb|]. repeat constructor.
    unfold TaxLot.init. simpl. lia.
  - rewrite Forall_forall in *. intros g Hin. apply Forall_app.
    split; [apply Hgl; exact Hin|]. repeat constructor.
    destruct (Hg g Hin) as (H1 & _ & H3). unfold TaxLot.init. simpl. lia.
Qed.

Lemma sell_body_in_date_order (tx : transaction) (st : engine) (r : num) :
  in_date_order (Transaction.date tx) st ->
  match sell_body tx st r with
  | Break st' | Next st' _ => in_date_order (Transaction.date tx) st'
  end.
Proof.
  intros (Hs & Hb & Hg & Hp & Hsl & Hgl). unfold sell_body.
  destruct (lots st) as [|lot rest] eqn:Elots.
  { unfold in_date_order. cbn [lots capital_gains]. repeat split; assumption. }
  inversion Hs as [|? ? Hsrest Hlot]; subst.
  inversion Hb as [|? ? Hblot Hbrest]; subst.
  assert (Hglrest : Forall (fun g => Forall (fun l => CapitalGain.purchase_date g
                                                      <= TaxLot.date l) rest)
                      (capital_gains st)).
  { eapply Forall_impl; [|exact Hgl]. intros g Hall.
    inversion Hall; subst. assumption. }
  destruct (negb (TaxLot.symbol lot =? Transaction.symbol tx)%string).
  { unfold in_date_order. cbn [lots capital_gains]. repeat split; assumption. }
  set (m := nmin r (TaxLot.amount lot)).
  assert (Hkeep : StronglySorted lot_date_le (TaxLot.take m lot :: rest)
                  /\ Forall (fun l => TaxLot.date l <= Transaction.date tx)
                       (TaxLot.take m lot :: rest)).
  { split; constructor; assumption. }
  assert (Hnew : forall ls,
             ls = rest \/ ls = TaxLot.take m lot :: rest ->
             in_date_order (Transaction.date tx)
               (mkEngine ls (capital_gains st ++ [gain_of tx lot m]) (errors st))).
  { intros ls Hls. unfold in_date_order. cbn [lots capital_gains].
    assert (Hfront : Forall (fun l => TaxLot.date lot <= TaxLot.date l) ls).
    { destruct Hls as [-> | ->]; [exact Hlot|].
      constructor; [simpl; lia|exact Hlot]. }
    split; [destruct Hls as [-> | ->]; [exact Hsrest|apply Hkeep]|].
    split; [destruct Hls as [-> | ->]; [exact Hbrest|apply Hkeep]|].
    split.
    { apply Forall_app. split; [exact Hg|]. repeat constructor; simpl; try lia.
      apply days_between_nonneg. exact Hblot. }
    split.
    { apply StronglySorted_snoc; [exact Hp|].
      eapply Forall_impl; [|exact Hgl]. intros g Hall.
      inversion Hall; subst. unfold purchase_le. simpl. assumption. }
    split.
    { apply StronglySorted_snoc; [exact Hsl|].
      eapply Forall_impl; [|exact Hg]. intros g (_ & _ & H3).
      unfold sale_le. simpl. exact H3. }
    apply Forall_app. split.
    - rewrite Forall_forall in *. intros g Hin.
      destruct Hls as [-> | ->]; [apply Hglrest; exact Hin|].
      constructor; [|apply Hglrest; exact Hin].
      specialize (Hgl g Hin). inversion Hgl; subst. simpl. assumption.
    - repeat constructor. simpl. exact Hfront. }
  destruct (nltb (TaxLot.amount (TaxLot.take m lot)) neps);
    apply Hnew; [left|right]; reflexivity.
Qed.

Lemma process_transaction_in_date_order (b : datetime) (st st' : engine)
    (tx : transaction) :
  b <= Transaction.date tx -> in_date_order b st ->
  process_transaction st tx = Some st' ->
  in_date_order (Transaction.date tx) st'.
Proof.
  intros Hle Hinv. unfold process_transaction.
  destruct (Transaction.type tx =? "buy")%string.
  { intros [= <-]. apply (process_buy_in_date_order b); assumption. }
  pose proof (in_date_order_later b _ st Hle Hinv) as Hinv'.
  destruct (Transaction.type tx =? "sell")%string.
  - unfold _process_sell. intros Hrun.
    eapply (sell_loop_invariant (in_date_order (Transaction.date tx)) tx
              (sell_body_in_date_order tx)); [exact Hinv'|exact Hrun].
  - intros [= <-]. exact Hinv'.
Qed.

Lemma process_all_in_date_order (txs : list transaction) :
  StronglySorted date_le txs ->
  forall (b : datetime) (st st' : engine),
    Forall (fun tx => b <= Transaction.date tx) txs ->
    in_date_order b st ->
    process_all st txs = Some st' ->
    exists b', in_date_order b' st'.
Proof.
  induction 1 as [|tx txs Hs IH Htx]; intros b st st' Hb Hinv Hrun;
    cbn [process_all] in Hrun.
  { injection Hrun as <-. exists b. exact Hinv. }
  destruct (process_transaction st tx) as [st1|] eqn:Etx; [|discriminate].
  inversion Hb as [|? ? Hbtx Hbrest]; subst.
  apply (IH (Transaction.date tx) st1 st'); [exact Htx| |exact Hrun].
  apply (process_transaction_in_date_order b st); assumption.
Qed.

Lemma calculate_taxes_in_date_order
    (st st' : engine) (txs : list transaction) (s : Summary.t num) :
  calculate_taxes st txs = Some (s, st') -> exists b, in_date_order b st'.
Proof.
  rewrite calculate_taxes_from_fresh.
  destruct (process_all fresh (sorted txs)) as [st1|] eqn:Erun; [|discriminate].
  intros [= _ <-].
  destruct (sorted txs) as [|tx0 rest] eqn:Es.
  { injection Erun as <-. exists 0. repeat split; constructor. }
  apply (process_all_in_date_order (tx0 :: rest)) with
    (b := Transaction.date tx0) (st := fresh); [| | |exact Erun].
  - rewrite <- Es. apply sorted_is_sorted.
  - pose proof (sorted_is_sorted txs) as Hs. rewrite Es in Hs.
    inversion Hs; subst. constructor; [lia|assumption].
  - repeat split; constructor.
Qed.

(** X6.  No gain of a [calculate_taxes] run is sold before it was bought:
    its purchase date is not after its sale date, and its holding period
    is not negative. *)
Theorem no_gain_is_sold_before_it_was_bought
    (st st' : engine) (txs : list transaction) (s : Summary.t num) :
  calculate_taxes st txs = Some (s, st') ->
  Forall (fun g => CapitalGain.purchase_date g <= CapitalGain.sale_date g
                   /\ 0 <= CapitalGain.holding_days g) (capital_gains st').
Proof.
  intros Hrun.
  destruct (calculate_taxes_in_date_order st st' txs s Hrun)
    as (b & _ & _ & Hg & _).
  eapply Forall_impl; [|exact Hg]. intros g (H1 & H2 & _). split; assumption.
Qed.

(** X7.  First in, first out: the gains of a run are listed in ascending
    order of purchase date and of sale date, the lots still held are in
    ascending order of purchase date, and no lot still held was bought
    before the purchase of any realized gain. *)
Theorem lots_are_consumed_oldest_first
    (st st' : engine) (txs : list transaction) (s : Summary.t num) :
  calculate_taxes st txs = Some (s, st') ->
  StronglySorted purchase_le (capital_gains st')
  /\ StronglySorted sale_le (capital_gains st')
  /\ StronglySorted lot_date_le (lots st')
  /\ (forall g lot, In g (capital_gains st') -> In lot (lots st') ->
        CapitalGain.purchase_date g <= TaxLot.date lot).
Proof.
  intros Hrun.
  destruct (calculate_taxes_in_date_order st st' txs s Hrun)
    as (b & Hs & _ & _ & Hp & Hsl & Hgl).
  repeat split; try assumption.
  intros g lot Hg Hlot. rewrite Forall_forall in Hgl.
  specialize (Hgl g Hg). rewrite Forall_forall in Hgl. apply Hgl. exact Hlot.
Qed.

End DateOrder.

(** ** Provenance of lots and gains *)

Section Provenance.
Context {num : Type} `{Number num}.

Local Abbreviation engine := (FIFOTaxCalculator num).
Local Abbreviation transaction := (Transaction.t num).

Lemma process_all_invariant_in (P : engine -> Prop) (Q : transaction -> Prop) :
  (forall st tx st', Q tx -> P st -> process_transaction st tx = Some st' -> P st') ->
  forall txs st st',
    Forall Q txs -> P st -> process_all st txs = Some st' -> P st'.
Proof.
  intros Hstep. induction txs as [|tx txs IH]; intros st st' HQ HP Hrun;
    cbn [process_all] in Hrun.
  - injection Hrun as <-. exact HP.
  - destruct (process_transaction st tx) as [st1|] eqn:Etx; [|discriminate].
    inversion HQ; subst.
    apply (IH st1 st'); [assumption| |exact Hrun].
    apply (Hstep st tx); assumption.
Qed.

Lemma take_from_batch (txs : list transaction) (m : num) (lot : TaxLot.t num) :
  lot_from txs lot -> lot_from txs (TaxLot.take m lot).
Proof.
  intros (buy & Hin & Hty & Hd & Hsy & Hp & Ho & Hc).
  exists buy. repeat split; assumption.
Qed.

Lemma sell_body_from_batch (txs : list transaction) (tx : transaction)
    (st : engine) (r : num) :
  In tx txs -> Transaction.type tx = "sell"%string ->
  from_batch txs st ->
  match sell_body tx st r with
  | Break st' | Next st' _ => from_batch txs st'
  end.
Proof.
  intros Hin Hty (Hlots & Hgains). unfold sell_body.
  destruct (lots st) as [|lot rest] eqn:Elots.
  { split; cbn [lots capital_gains]; assumption. }
  inversion Hlots as [|? ? Hlot Hrest]; subst.
  destruct (TaxLot.symbol lot =? Transaction.symbol tx)%string eqn:Esym;
    cbn [negb].
  2:{ split; cbn [lots capital_gains]; assumption. }
  apply String.eqb_eq in Esym.
  set (m := nmin r (TaxLot.amount lot)).
  assert (Hgain : Forall (gain_from txs) (capital_gains st ++ [gain_of tx lot m])).
  { apply Forall_app. split; [exact Hgains|]. repeat constructor.
    destruct Hlot as (buy & Hbin & Hbty & Hd & Hsy & Hp & Ho & Hc).
    exists buy, tx. unfold gain_of, CapitalGain.init. simpl.
    repeat split; try assumption; try reflexivity; try congruence. }
  destruct (nltb (TaxLot.amount (TaxLot.take m lot)) neps);
    split; cbn [lots capital_gains]; try assumption.
  constructor; [apply take_from_batch; exact Hlot|exact Hrest].
Qed.

Lemma process_transaction_from_batch (txs : list transaction) (st st' : engine)
    (tx : transaction) :
  In tx txs -> from_batch txs st ->
  process_transaction st tx = Some st' -> from_batch txs st'.
Proof.
  intros Hin Hinv. unfold process_transaction.
  destruct (Transaction.type tx =? "buy")%string eqn:Ebuy.
  { intros [= <-]. apply String.eqb_eq in Ebuy. destruct Hinv as (Hlots & Hgains).
    split; cbn [_process_buy lots capital_gains]; [|exact Hgains].
    apply Forall_app. split; [exact Hlots|]. repeat constructor.
    exists tx. unfold TaxLot.init. simpl. repeat split; try assumption; reflexivity. }
  destruct (Transaction.type tx =? "sell")%string eqn:Esell.
  - apply String.eqb_eq in Esell. unfold _process_sell. intros Hrun.
    eapply (sell_loop_invariant (from_batch txs) tx); [|exact Hinv|exact Hrun].
    intros e r He. apply sell_body_from_batch; assumption.
  - intros [= <-]. exact Hinv.
Qed.

(** X8.  Every gain of a run pairs one buy and one sell of the batch that
    carry the same symbol: its purchase date and cost basis come from that
    buy, its sale date and proceeds from that sell, and its gain is the
    difference.  Every lot still held is one a buy of the batch created,
    with the cost basis computed then. *)
Theorem gains_pair_a_buy_and_a_sell_of_one_symbol
    (st st' : engine) (txs : list transaction) (s : Summary.t num) :
  calculate_taxes st txs = Some (s, st') ->
  Forall (gain_from txs) (capital_gains st')
  /\ Forall (lot_from txs) (lots st').
Proof.
  rewrite calculate_taxes_from_fresh.
  destruct (process_all fresh (sorted txs)) as [st1|] eqn:Erun; [|discriminate].
  intros [= _ <-].
  assert (Hinv : from_batch txs st1).
  { eapply (process_all_invariant_in (from_batch txs) (fun tx => In tx txs));
      [| | |exact Erun]; [| |split; constructor].
    - intros e tx e' Hin. apply process_transaction_from_batch. exact Hin.
    - rewrite Forall_forall. intros tx Hin.
      eapply Permutation_in; [symmetry; apply sorted_perm|exact Hin]. }
  destruct Hinv. split; assumption.
Qed.

End Provenance.

(** ** Amounts, in exact arithmetic *)

Lemma sell_loop_invariant_guarded {num : Type} `{Number num}
    (P : FIFOTaxCalculator num -> Prop) (tx : Transaction.t num) :
  (forall st r, ngtb r neps = true -> P st ->
     match sell_body tx st r with Break st' | Next st' _ => P st' end) ->
  forall fuel st r st', P st -> sell_loop fuel tx st r = Some st' -> P st'.
Proof.
  intros Hbody. induction fuel as [|n IH]; intros st r st' HP Hrun;
    destruct (ngtb r neps) eqn:Hg;
    try (rewrite sell_loop_done in Hrun by exact Hg; injection Hrun as <-; exact HP).
  - cbn [sell_loop] in Hrun. rewrite Hg in Hrun. discriminate Hrun.
  - rewrite sell_loop_step in Hrun by exact Hg.
    specialize (Hbody st r Hg HP).
    destruct (sell_body tx st r) as [sb|sb rb].
    + injection Hrun as <-. exact Hbody.
    + apply (IH sb rb); assumption.
Qed.

Lemma nmin_nonneg (r a : Q) : (0 <= r)%Q -> (0 <= a)%Q -> (0 <= nmin r a)%Q.
Proof. intros Hr Ha. unfold nmin. destruct (nltb a r); assumption. Qed.

Lemma nmin_le_l (r a : Q) : (nmin r a <= r)%Q.
Proof.
  unfold nmin. destruct (nltb a r) eqn:E; [|apply Qle_refl].
  apply Qltb_lt in E. apply Qlt_le_weak. exact E.
Qed.

Lemma sell_body_in_bounds (tx : Transaction.t Q) (st : FIFOTaxCalculator Q) (r : Q) :
  ngtb r neps = true -> amounts_in_bounds st ->
  match sell_body tx st r with
  | Break st' | Next st' _ => amounts_in_bounds st'
  end.
Proof.
  intros Hg (Hlots & Hgains). unfold sell_body.
  destruct (lots st) as [|lot rest] eqn:Elots.
  { split; cbn [lots capital_gains]; assumption. }
  inversion Hlots as [|? ? Hlot Hrest]; subst.
  destruct (negb (TaxLot.symbol lot =? Transaction.symbol tx)%string).
  { split; cbn [lots capital_gains]; assumption. }
  apply Qltb_lt in Hg. pose proof neps_pos as Heps.
  destruct Hlot as [Hlo Hhi].
  set (m := nmin r (TaxLot.amount lot)).
  assert (Hm : (0 <= m)%Q) by (apply nmin_nonneg; [lra|exact Hlo]).
  assert (Hgain : Forall (fun g => (0 <= CapitalGain.amount g)%Q)
                    (capital_gains st ++ [gain_of tx lot m])).
  { apply Forall_app. split; [exact Hgains|]. repeat constructor. exact Hm. }
  assert (Htake : lot_within (TaxLot.take m lot)).
  { split; [apply take_nonneg|].
    change (TaxLot.amount (TaxLot.take m lot)) with (Qred (TaxLot.amount lot - m)).
    change (TaxLot.original_amount (TaxLot.take m lot)) with (TaxLot.original_amount lot).
    rewrite Qred_correct. lra. }
  destruct (nltb (TaxLot.amount (TaxLot.take m lot)) neps);
    split; cbn [lots capital_gains]; try assumption.
  constructor; assumption.
Qed.

Lemma process_transaction_in_bounds (st st' : FIFOTaxCalculator Q) (tx : Transaction.t Q) :
  tx_nonneg tx -> amounts_in_bounds st ->
  process_transaction st tx = Some st' -> amounts_in_bounds st'.
Proof.
  intros Htx Hinv. unfold process_transaction.
  destruct (Transaction.type tx =? "buy")%string.
  { intros [= <-]. destruct Hinv as (Hlots & Hgains).
    split; cbn [_process_buy lots capital_gains]; [|exact Hgains].
    apply Forall_app. split; [exact Hlots|]. repeat constructor; simpl.
    - exact Htx.
    - apply Qle_refl. }
  destruct (Transaction.type tx =? "sell")%string.
  - unfold _process_sell. intros Hrun.
    eapply (sell_loop_invariant_guarded amounts_in_bounds tx (sell_body_in_bounds tx));
      [exact Hinv|exact Hrun].
  - intros [= <-]. exact Hinv.
Qed.

(** X9.  When no transaction of the batch has a negative amount, every lot
    still held after the run holds between nothing and what was bought,
    [0 <= amount <= original_amount], and no gain has a negative amount. *)
Theorem lots_hold_between_nothing_and_what_was_bought
    (st st' : FIFOTaxCalculator Q) (txs : list (Transaction.t Q)) (s : Summary.t Q) :
  Forall tx_nonneg txs ->
  calculate_taxes st txs = Some (s, st') ->
  Forall (fun lot => (0 <= TaxLot.amount lot
                      /\ TaxLot.amount lot <= TaxLot.original_amount lot)%Q) (lots st')
  /\ Forall (fun g => (0 <= CapitalGain.amount g)%Q) (capital_gains st').
Proof.
  intros Hnonneg. rewrite calculate_taxes_from_fresh.
  destruct (process_all fresh (sorted txs)) as [st1|] eqn:Erun; [|discriminate].
  intros [= _ <-].
  eapply (process_all_invariant_in amounts_in_bounds tx_nonneg);
    [| | |exact Erun]; [| |split; constructor].
  - intros e tx e'. apply process_transaction_in_bounds.
  - eapply Permutation_Forall; [apply sorted_perm|exact Hnonneg].
Qed.

(** The loop splits what it was asked to sell into what it matched and what
    it left. *)
Lemma sell_loop_accounts (tx : Transaction.t Q) (fuel : nat) :
  forall (st st' : FIFOTaxCalculator Q) (r : Q),
    sell_loop fuel tx st r = Some st' ->
    exists gs es rest,
      capital_gains st' = capital_gains st ++ gs
      /\ errors st' = errors st ++ es
      /\ (nsum (map (@CapitalGain.amount Q) gs) + rest == r)%Q
      /\ ((0 <= r)%Q -> (0 <= rest)%Q)
      /\ sell_outcome tx st' es rest.
Proof.
  induction fuel as [|n IH]; intros st st' r Hrun;
    destruct (ngtb r neps) eqn:Hg;
    try (rewrite sell_loop_done in Hrun by exact Hg; injection Hrun as <-;
         exists [], [], r; cbn [map]; rewrite !app_nil_r, nsum_nil;
         split; [reflexivity|]; split; [reflexivity|]; split; [ring|];
         split; [auto|]; left; split; [apply Qltb_ge; exact Hg|constructor]).
  - cbn [sell_loop] in Hrun. rewrite Hg in Hrun. discriminate Hrun.
  - rewrite sell_loop_step in Hrun by exact Hg.
    unfold sell_body in Hrun.
    destruct (lots st) as [|lot rest0] eqn:Elots.
    { injection Hrun as <-. cbn [capital_gains errors lots].
      exists [], [NoLotsAvailable r (Transaction.symbol tx) (Transaction.date tx)], r.
      cbn [map]. rewrite app_nil_r, nsum_nil.
      split; [reflexivity|]. split; [reflexivity|]. split; [ring|]. split; [auto|].
      right. split; [apply Qltb_lt; exact Hg|]. split; [reflexivity|].
      exists []. split; [reflexivity|constructor]. }
    destruct (negb (TaxLot.symbol lot =? Transaction.symbol tx)%string).
    + destruct (IH _ st' r Hrun) as (gs & es & rest & Hgs & Hes & Hsum & Hpos & Hout).
      cbn [capital_gains errors] in Hgs, Hes.
      exists gs, (SymbolMismatch (Transaction.symbol tx) (TaxLot.symbol lot) :: es), rest.
      split; [exact Hgs|].
      split; [rewrite Hes, <- app_assoc; reflexivity|].
      split; [exact Hsum|]. split; [exact Hpos|].
      destruct Hout as [[Hle Hno]|(Hlt & Hempty & es0 & -> & Hno)].
      * left. split; [exact Hle|]. constructor; [reflexivity|exact Hno].
      * right. split; [exact Hlt|]. split; [exact Hempty|].
        exists (SymbolMismatch (Transaction.symbol tx) (TaxLot.symbol lot) :: es0).
        split; [reflexivity|]. constructor; [reflexivity|exact Hno].
    + set (m := nmin r (TaxLot.amount lot)) in *.
      destruct (IH _ st' _ Hrun) as (gs & es & rest & Hgs & Hes & Hsum & Hpos & Hout).
      cbn [capital_gains errors] in Hgs, Hes.
      exists (gain_of tx lot m :: gs), es, rest.
      split; [rewrite Hgs, <- app_assoc; reflexivity|].
      split; [exact Hes|].
      change (nsub r m) with (Qred (r - m)) in Hsum, Hpos.
      rewrite Qred_correct in Hsum, Hpos.
      split.
      { cbn [map]. rewrite nsum_cons.
        change (CapitalGain.amount (gain_of tx lot m)) with m. lra. }
      split; [|exact Hout].
      intros _. apply Hpos. pose proof (nmin_le_l r (TaxLot.amount lot)). fold m in H. lra.
Qed.

(** X10.  A sell is split without loss into what was matched and what was
    left: the amounts of the gains it adds and the remainder add up to the
    amount sold.  Either the remainder is within the tolerance and no
    shortage is recorded, or the ledger is used up and the last anomaly
    records exactly the remainder.  With a non-negative amount sold, never
    more is matched than was sold. *)
Theorem sell_is_matched_or_its_shortage_recorded
    (st st' : FIFOTaxCalculator Q) (tx : Transaction.t Q) :
  _process_sell st tx = Some st' ->
  exists gs es rest,
    capital_gains st' = capital_gains st ++ gs
    /\ errors st' = errors st ++ es
    /\ (nsum (map (@CapitalGain.amount Q) gs) + rest == Transaction.amount tx)%Q
    /\ ((0 <= Transaction.amount tx)%Q ->
        (0 <= rest)%Q
        /\ (nsum (map (@CapitalGain.amount Q) gs) <= Transaction.amount tx)%Q)
    /\ sell_outcome tx st' es rest.
Proof.
  unfold _process_sell. intros Hrun.
  destruct (sell_loop_accounts tx _ st st' _ Hrun)
    as (gs & es & rest & Hgs & Hes & Hsum & Hpos & Hout).
  exists gs, es, rest.
  split; [exact Hgs|]. split; [exact Hes|]. split; [exact Hsum|].
  split; [|exact Hout].
  intros Hamount. specialize (Hpos Hamount). split; [exact Hpos|lra].
Qed.

(** ** The size of the result *)

Lemma sell_loop_output_bound (tx : Transaction.t Q) (fuel : nat) :
  forall (st st' : FIFOTaxCalculator Q) (r : Q),
    sell_loop fuel tx st r = Some st' ->
    (List.length (capital_gains st') + List.length (errors st')
     <= List.length (capital_gains st) + List.length (errors st)
        + List.length (sell_loop_drops fuel tx st r)
        + (if ngtb r neps then 1 else 0))%nat.
Proof.
  induction fuel as [|n IH]; intros st st' r Hrun;
    destruct (ngtb r neps) eqn:Hg;
    try (rewrite sell_loop_done in Hrun by exact Hg; injection Hrun as <-;
         rewrite sell_loop_drops_done by exact Hg; simpl; lia).
  - cbn [sell_loop] in Hrun. rewrite Hg in Hrun. discriminate Hrun.
  - rewrite sell_loop_step in Hrun by exact Hg.
    rewrite sell_loop_drops_step by exact Hg. rewrite length_app.
    unfold sell_body in *. unfold dropped_by.
    destruct (lots st) as [|lot rest0] eqn:Elots.
    { injection Hrun as <-. cbn [capital_gains errors].
      rewrite length_app. simpl. lia. }
    destruct (negb (TaxLot.symbol lot =? Transaction.symbol tx)%string).
    { specialize (IH _ st' r Hrun). cbn [capital_gains errors] in IH.
      rewrite length_app in IH. rewrite Hg in IH. simpl in *. lia. }
    destruct (nltb (TaxLot.amount (TaxLot.take (nmin r (TaxLot.amount lot)) lot)) neps)
      eqn:Epop.
    + specialize (IH _ st' _ Hrun). cbn [capital_gains errors] in IH.
      rewrite length_app in IH.
      destruct (ngtb (nsub r (nmin r (TaxLot.amount lot))) neps); simpl in *; lia.
    + assert (Hm : nmin r (TaxLot.amount lot) = r).
      { unfold nmin. destruct (nltb (TaxLot.amount lot) r) eqn:Emin; [|reflexivity].
        exfalso. unfold nmin in Epop. rewrite Emin in Epop.
        cbn [TaxLot.take TaxLot.amount] in Epop. rewrite nsub_diag in Epop.
        discriminate Epop. }
      rewrite Hm, nsub_diag in Hrun |- *.
      rewrite sell_loop_done in Hrun by reflexivity. injection Hrun as <-.
      rewrite sell_loop_drops_done by reflexivity.
      cbn [capital_gains errors]. rewrite length_app. simpl. lia.
Qed.

Lemma process_all_output_bound (txs : list (Transaction.t Q)) :
  forall st st' : FIFOTaxCalculator Q,
    process_all st txs = Some st' ->
    (List.length (capital_gains st') + List.length (errors st')
     <= List.length (capital_gains st) + List.length (errors st)
        + List.length (drops_from st txs)
        + List.length (filter (fun tx => negb (is_buy tx)) txs))%nat.
Proof.
  induction txs as [|tx txs IH]; intros st st' Hrun; cbn [process_all] in Hrun.
  { injection Hrun as <-. simpl. lia. }
  cbn [drops_from filter].
  destruct (process_transaction st tx) as [st1|] eqn:Etx; [|discriminate].
  specialize (IH st1 st' Hrun). rewrite length_app. clear Hrun.
  unfold process_transaction, transaction_drops, is_buy in *.
  destruct (Transaction.type tx =? "buy")%string eqn:Ebuy.
  - apply String.eqb_eq in Ebuy. rewrite Ebuy. simpl String.eqb. cbv iota.
    injection Etx as <-. cbn [_process_buy capital_gains errors negb] in IH.
    simpl. lia.
  - cbn [negb List.length]. destruct (Transaction.type tx =? "sell")%string.
    + unfold _process_sell in Etx.
      pose proof (sell_loop_output_bound tx _ st st1 _ Etx) as Hloop.
      destruct (ngtb (Transaction.amount tx) neps); lia.
    + injection Etx as <-. cbn [capital_gains errors] in IH.
      rewrite length_app in IH. simpl in *. lia.
Qed.

Lemma length_filter_split {A : Type} (p : A -> bool) (l : list A) :
  (List.length (filter p l) + List.length (filter (fun x => negb (p x)) l))%nat
  = List.length l.
Proof.
  induction l as [|x l IH]; simpl; [reflexivity|].
  destruct (p x); simpl; lia.
Qed.

(** X11.  The result is never larger than the batch: the realized gains,
    the anomalies and the lots still held together number at most as many
    as the transactions. *)
Theorem result_is_no_larger_than_the_batch
    (st : FIFOTaxCalculator Q) (txs : list (Transaction.t Q)) :
  exists s st',
    calculate_taxes st txs = Some (s, st')
    /\ Summary.num_transactions s = List.length (capital_gains st')
    /\ Summary.errors s = errors st'
    /\ (Summary.num_transactions s + List.length (Summary.errors s)
        + List.length (lots st') <= List.length txs)%nat.
Proof.
  destruct (process_all_terminates (sorted txs) fresh) as [st' Hrun].
  exists (_generate_summary st'), st'.
  rewrite calculate_taxes_from_fresh, Hrun.
  split; [reflexivity|].
  assert (Hn : Summary.num_transactions (_generate_summary st')
               = List.length (capital_gains st')).
  { unfold _generate_summary. destruct (capital_gains st'); reflexivity. }
  assert (He : Summary.errors (_generate_summary st') = errors st').
  { unfold _generate_summary. destruct (capital_gains st'); reflexivity. }
  split; [exact Hn|]. split; [exact He|]. rewrite Hn, He.
  pose proof (process_all_output_bound (sorted txs) fresh st' Hrun) as Hout.
  pose proof (drops_from_logs_removals (sorted txs) fresh st' Hrun) as Hlog.
  pose proof (length_filter_split is_buy (sorted txs)) as Hsplit.
  pose proof (Permutation_length (sorted_perm txs)) as Hlen.
  cbn [fresh capital_gains errors lots List.length] in Hout, Hlog. lia.
Qed.

(** * The CSV parser *)

(** ** Signs on doubles *)

Lemma abs_not_negative (x : float) : (abs x <? 0)%float = false.
Proof.
  rewrite FloatAxioms.ltb_spec, FloatAxioms.abs_spec.
  destruct (FloatOps.Prim2SF x) as [s|s| |s m e]; reflexivity.
Qed.

Lemma abs_zero_iff (x : float) : (abs x =? 0)%float = (x =? 0)%float.
Proof.
  rewrite !FloatAxioms.eqb_spec, FloatAxioms.abs_spec.
  destruct (FloatOps.Prim2SF x) as [s|s| |s m e]; try reflexivity;
    destruct s; reflexivity.
Qed.

Lemma round_keeps_sign (mx ex : Z) (lx : SpecFloat.location) :
  SpecFloat.SFltb (SpecFloat.binary_round_aux FloatOps.prec FloatOps.emax false mx ex lx)
    (SpecFloat.S754_zero false) = false.
Proof.
  unfold SpecFloat.binary_round_aux.
  destruct (SpecFloat.shr_fexp FloatOps.prec FloatOps.emax mx ex lx) as [mrs' e'].
  destruct (SpecFloat.shr_fexp FloatOps.prec FloatOps.emax
              (SpecFloat.round_nearest_even (SpecFloat.shr_m mrs')
                 (SpecFloat.loc_of_shr_record mrs')) e' SpecFloat.loc_Exact)
    as [mrs'' e''].
  destruct (SpecFloat.shr_m mrs'') as [|m|m]; try reflexivity.
  destruct (e'' <=? FloatOps.emax - FloatOps.prec); reflexivity.
Qed.

Lemma div_abs_not_negative (x y : float) : (abs x / abs y <? 0)%float = false.
Proof.
  rewrite FloatAxioms.ltb_spec, FloatAxioms.div_spec, !FloatAxioms.abs_spec.
  change (FloatOps.Prim2SF 0) with (SpecFloat.S754_zero false).
  unfold FloatAxioms.SF64div.
  destruct (FloatOps.Prim2SF x) as [sx|sx| |sx mx ex];
    destruct (FloatOps.Prim2SF y) as [sy|sy| |sy my ey]; try reflexivity.
  cbn [SpecFloat.SFabs SpecFloat.SFdiv].
  destruct (SpecFloat.SFdiv_core_binary FloatOps.prec FloatOps.emax
              (Z.pos mx) ex (Z.pos my) ey) as [[mz ez] lz].
  cbn [xorb]. apply round_keeps_sign.
Qed.

Section ParserFacts.

Variable cell : Type.
Variable strptime : cell -> cell -> outcome datetime.
Variable lower : cell -> outcome string.
Variable to_float : cell -> outcome float.

Local Abbreviation parse_row := (parse_row strptime lower to_float).
Local Abbreviation parse_rows := (parse_rows strptime lower to_float).
Local Abbreviation parse := (parse strptime lower to_float).

Lemma parse_row_sign_normalized (row : Row.t cell) (tx : Transaction.t float) :
  parse_row row = Returns tx -> sign_normalized tx.
Proof.
  unfold parse_row, bind, float_div.
  destruct (strptime (Row.Date row) (Row.Time row)) as [d|]; [|discriminate].
  destruct (lower (Row.Type_ row)) as [ty|]; [|discriminate].
  destruct (to_float (Row.BTC_Amount row)) as [btc|]; [|discriminate].
  destruct (to_float (Row.USD_Amount row)) as [usd|]; [|discriminate].
  destruct (to_float (Row.Fee_USD row)) as [fee|]; [|discriminate].
  destruct (abs btc =? 0)%float eqn:Ezero; [discriminate|].
  intros [= <-]. unfold sign_normalized. cbn.
  split; [apply abs_not_negative|]. split; [exact Ezero|].
  split; [apply abs_not_negative|]. split; [apply div_abs_not_negative|reflexivity].
Qed.

(** A row whose cells all convert raises exactly when the amount is zero,
    of either sign. *)
Lemma parse_row_zero_amount (row : Row.t cell) (d : datetime) (ty : string)
    (btc usd fee : float) :
  strptime (Row.Date row) (Row.Time row) = Returns d ->
  lower (Row.Type_ row) = Returns ty ->
  to_float (Row.BTC_Amount row) = Returns btc ->
  to_float (Row.USD_Amount row) = Returns usd ->
  to_float (Row.Fee_USD row) = Returns fee ->
  parse_row row =
  if (btc =? 0)%float then Raises ZeroDivisionError
  else Returns (Transaction.mk d ty (Row.Symbol row) (abs btc) (abs usd / abs btc)%float
                  (abs usd) fee).
Proof.
  intros Hd Hty Hbtc Husd Hfee.
  unfold parse_row, bind, float_div.
  rewrite Hd, Hty, Hbtc, Husd, Hfee, abs_zero_iff.
  destruct (btc =? 0)%float; reflexivity.
Qed.

Lemma parse_rows_appends (rows : list (Row.t cell)) :
  forall transactions,
    parse_rows transactions rows =
    (transactions ++ fst (parse_rows [] rows), snd (parse_rows [] rows)).
Proof.
  induction rows as [|row rows IH]; intros transactions; simpl.
  - rewrite app_nil_r. reflexivity.
  - destruct (parse_row row) as [tx|e]; simpl.
    + rewrite (IH (transactions ++ [tx])), (IH [tx]). simpl.
      rewrite <- app_assoc. reflexivity.
    + rewrite app_nil_r. reflexivity.
Qed.

(** What the loop appends: one transaction per row, in row order, up to
    the first row that raises. *)
Lemma parse_rows_fresh (rows : list (Row.t cell)) :
  let new := fst (parse_rows [] rows) in
  Forall2 (fun row tx => parse_row row = Returns tx) (firstn (List.length new) rows) new
  /\ match snd (parse_rows [] rows) with
     | Returns _ => List.length new = List.length rows
     | Raises e =>
         exists row, nth_error rows (List.length new) = Some row
                     /\ parse_row row = Raises e
     end.
Proof.
  induction rows as [|row rows IH]; simpl.
  - split; [constructor|reflexivity].
  - destruct (parse_row row) as [tx|e] eqn:Erow; simpl.
    + rewrite (parse_rows_appends rows [tx]). simpl.
      destruct IH as [Hall Hend]. split.
      * constructor; [exact Erow|exact Hall].
      * destruct (snd (parse_rows [] rows)) as [u|e].
        { rewrite Hend. reflexivity. }
        exact Hend.
    + split; [constructor|]. exists row. split; [reflexivity|exact Erow].
Qed.

(** X12.  Whatever the cells of the rows are, every transaction [parse]
    adds has an amount and a total stripped of their sign and an amount
    that is not zero: none of amount, total and unit price compares below
    zero, and the unit price is the total divided by the amount.  The
    transactions added are those of the rows, in row order, up to the first
    row that raises; the exception of that row is the exception of the
    call, and the rows before it stay appended to the parser's list.  A row
    whose cells all convert raises exactly when its amount is zero: a
    [ZeroDivisionError]. *)
Theorem parse_normalizes_signs_and_rejects_zero_amounts
    (transactions : list (Transaction.t float)) (rows : list (Row.t cell)) :
  exists new,
    fst (parse transactions rows) = transactions ++ new
    /\ Forall sign_normalized new
    /\ Forall2 (fun row tx => parse_row row = Returns tx)
         (firstn (List.length new) rows) new
    /\ (forall out, snd (parse transactions rows) = Returns out ->
          out = transactions ++ new /\ List.length new = List.length rows)
    /\ (forall e, snd (parse transactions rows) = Raises e ->
          exists row, nth_error rows (List.length new) = Some row
                      /\ parse_row row = Raises e)
    /\ (forall row d ty btc usd fee,
          strptime (Row.Date row) (Row.Time row) = Returns d ->
          lower (Row.Type_ row) = Returns ty ->
          to_float (Row.BTC_Amount row) = Returns btc ->
          to_float (Row.USD_Amount row) = Returns usd ->
          to_float (Row.Fee_USD row) = Returns fee ->
          parse_row row =
          if (btc =? 0)%float then Raises ZeroDivisionError
          else Returns (Transaction.mk d ty (Row.Symbol row) (abs btc)
                          (abs usd / abs btc)%float (abs usd) fee)).
Proof.
  exists (fst (parse_rows [] rows)).
  destruct (parse_rows_fresh rows) as [Hall Hend]. cbv zeta in Hall, Hend.
  unfold parse. rewrite (parse_rows_appends rows transactions).
  cbn [fst snd].
  split; [reflexivity|]. split; [|split; [exact Hall|split; [|split]]].
  - clear Hend. revert Hall.
    generalize (firstn (List.length (fst (parse_rows [] rows))) rows).
    generalize (fst (parse_rows [] rows)).
    intros new rs Hall. induction Hall as [|row tx rs new Hrow _ IH]; constructor.
    + exact (parse_row_sign_normalized row tx Hrow).
    + exact IH.
  - intros out. destruct (snd (parse_rows [] rows)) as [u|e]; [|discriminate].
    intros [= <-]. split; [reflexivity|exact Hend].
  - intros e. destruct (snd (parse_rows [] rows)) as [u|e']; [discriminate|].
    intros [= <-]. exact Hend.
  - exact parse_row_zero_amount.
Qed.

(** X13.  [parse] never empties the parser's list: a call returns what the
    parser already held followed by what the rows add.  Called twice on the
    same rows, a parser returns every transaction twice. *)
Theorem parse_accumulates_across_calls
    (transactions : list (Transaction.t float)) (rows : list (Row.t cell)) :
  fst (parse transactions rows) = transactions ++ fst (parse [] rows)
  /\ snd (parse transactions rows)
     = outcome_map (app transactions) (snd (parse [] rows))
  /\ match snd (parse [] rows) with
     | Returns out =>
         fst (parse [] rows) = out
         /\ parse out rows = (out ++ out, Returns (out ++ out))
     | Raises _ => True
     end.
Proof.
  unfold parse.
  rewrite (parse_rows_appends rows transactions).
  destruct (parse_rows [] rows) as [new finished] eqn:Efresh. cbn [fst snd].
  split; [reflexivity|]. split.
  - destruct finished; reflexivity.
  - destruct finished as [u|e]; [|exact I]. cbn [outcome_map bind].
    split; [reflexivity|].
    rewrite (parse_rows_appends rows new), Efresh. reflexivity.
Qed.

End ParserFacts.

(** ** The parser's summary and the engine *)

Section ParserSummaryFacts.
Context {num : Type} `{Number num}.



End ParserSummaryFacts.

(** * Instances *)

Lemma no_gain_is_sold_before_it_was_bought_witness :
  calculate_taxes fresh split_batch = Some (split_summary, split_engine)
  /\ Forall (fun g => CapitalGain.purchase_date g <= CapitalGain.sale_date g
                      /\ 0 <= CapitalGain.holding_days g) (capital_gains split_engine).
Proof.
  split; [exact (split_batch_summary fresh)|].
  exact (no_gain_is_sold_before_it_was_bought fresh split_engine split_batch
           split_summary (split_batch_summary fresh)).
Defined.

Lemma lots_are_consumed_oldest_first_witness :
  calculate_taxes fresh split_batch = Some (split_summary, split_engine)
  /\ StronglySorted purchase_le (capital_gains split_engine)
  /\ StronglySorted sale_le (capital_gains split_engine)
  /\ StronglySorted lot_date_le (lots split_engine)
  /\ (forall g lot, In g (capital_gains split_engine) -> In lot (lots split_engine) ->
         CapitalGain.purchase_date g <= TaxLot.date lot).
Proof.
  split; [exact (split_batch_summary fresh)|].
  exact (lots_are_consumed_oldest_first fresh split_engine split_batch
           split_summary (split_batch_summary fresh)).
Defined.

Lemma gains_pair_a_buy_and_a_sell_of_one_symbol_witness :
  calculate_taxes fresh split_batch = Some (split_summary, split_engine)
  /\ Forall (gain_from split_batch) (capital_gains split_engine)
  /\ Forall (lot_from split_batch) (lots split_engine).
Proof.
  split; [exact (split_batch_summary fresh)|].
  exact (gains_pair_a_buy_and_a_sell_of_one_symbol fresh split_engine split_batch
           split_summary (split_batch_summary fresh)).
Defined.

Lemma lots_hold_between_nothing_and_what_was_bought_witness :
  Forall tx_nonneg split_batch
  /\ calculate_taxes fresh split_batch = Some (split_summary, split_engine)
  /\ Forall (fun lot => (0 <= TaxLot.amount lot
                         /\ TaxLot.amount lot <= TaxLot.original_amount lot)%Q)
        (lots split_engine)
  /\ Forall (fun g => (0 <= CapitalGain.amount g)%Q) (capital_gains split_engine).
Proof.
  assert (Hnonneg : Forall tx_nonneg split_batch).
  { repeat constructor; unfold tx_nonneg; simpl; discriminate. }
  split; [exact Hnonneg|]. split; [exact (split_batch_summary fresh)|].
  exact (lots_hold_between_nothing_and_what_was_bought fresh split_engine split_batch
           split_summary Hnonneg (split_batch_summary fresh)).
Defined.

Lemma sell_is_matched_or_its_shortage_recorded_witness :
  _process_sell mixed_ledger eth_oversell = Some eth_oversell_engine
  /\ exists gs es rest,
       capital_gains eth_oversell_engine = capital_gains mixed_ledger ++ gs
       /\ errors eth_oversell_engine = errors mixed_ledger ++ es
       /\ (nsum (map (@CapitalGain.amount Q) gs) + rest
           == Transaction.amount eth_oversell)%Q
       /\ ((0 <= Transaction.amount eth_oversell)%Q ->
           (0 <= rest)%Q
           /\ (nsum (map (@CapitalGain.amount Q) gs) <= Transaction.amount eth_oversell)%Q)
       /\ sell_outcome eth_oversell eth_oversell_engine es rest.
Proof.
  assert (Hrun : _process_sell mixed_ledger eth_oversell = Some eth_oversell_engine)
    by (vm_compute; reflexivity).
  split; [exact Hrun|].
  exact (sell_is_matched_or_its_shortage_recorded mixed_ledger eth_oversell_engine
           eth_oversell Hrun).
Defined.
